(** * Verification of [src/templates/generate-config.py]

    The generator builds a CircleCI pipeline document from a base
    template: a test matrix (application x version x test suite) is
    installed as the workflow's job list, and per-application custom
    steps are spliced into the shared job's step list.

    The program is embedded shallowly.  Python strings are [string]s
    (characters are code points below 256), the operating system is
    an abstract world with the observations the program makes of it,
    Python objects live in a store of lists and dictionaries addressed
    by location, and the program's statements run in a state and
    exception monad. *)

From Stdlib Require Import ZArith Ascii String Lia.
From stdpp Require Import base list strings.

Set Warnings "-register-all".

(** ** Python strings *)

Module PyStr.

(** [str.isspace] on one character, for code points below 256. *)
Definition isspace (c : ascii) : bool :=
  let n := nat_of_ascii c in
  (((9 <=? n) && (n <=? 13)) || ((28 <=? n) && (n <=? 32))
  || (n =? 133) || (n =? 160))%nat.

(** [s.lstrip()] *)
Fixpoint lstrip (s : string) : string :=
  match s with
  | EmptyString => EmptyString
  | String c s' => if isspace c then lstrip s' else s
  end.

(** [s.rstrip()] *)
Fixpoint rstrip (s : string) : string :=
  match s with
  | EmptyString => EmptyString
  | String c s' =>
      match rstrip s' with
      | EmptyString => if isspace c then EmptyString else String c EmptyString
      | r => String c r
      end
  end.

(** [s.strip()] *)
Definition strip (s : string) : string := rstrip (lstrip s).

(** [s.split(sep)] for a separator of one character. *)
Fixpoint split (sep : ascii) (s : string) : list string :=
  match s with
  | EmptyString => [EmptyString]
  | String c s' =>
      if Ascii.eqb c sep then EmptyString :: split sep s'
      else match split sep s' with
           | [] => [String c EmptyString]
           | w :: ws => String c w :: ws
           end
  end.

(** [sep.join(parts)] *)
Fixpoint join (sep : string) (parts : list string) : string :=
  match parts with
  | [] => EmptyString
  | [p] => p
  | p :: ps => p +:+ sep +:+ join sep ps
  end.

(** [needle in hay] *)
Fixpoint contains (needle hay : string) : bool :=
  String.prefix needle hay
  || match hay with
     | EmptyString => false
     | String _ hay' => contains needle hay'
     end.

(** [s.startswith(p)] and [s.endswith(c)] for one character. *)
Definition startswith (p s : string) : bool := String.prefix p s.

Fixpoint endswith_char (c : ascii) (s : string) : bool :=
  match s with
  | EmptyString => false
  | String a EmptyString => Ascii.eqb a c
  | String _ s' => endswith_char c s'
  end.

(** The part of [s] after its last [sep], all of [s] when there is
    none: [s[s.rfind(sep) + 1:]]. *)
Fixpoint after_last (sep : ascii) (s : string) : string :=
  match s with
  | EmptyString => EmptyString
  | String c s' =>
      if contains (String sep EmptyString) s' then after_last sep s'
      else if Ascii.eqb c sep then s' else s
  end.

(** The part of [s] up to and including its last [sep], empty when
    there is none: [s[:s.rfind(sep) + 1]]. *)
Fixpoint upto_last (sep : ascii) (s : string) : string :=
  match s with
  | EmptyString => EmptyString
  | String c s' =>
      if contains (String sep EmptyString) s' then String c (upto_last sep s')
      else if Ascii.eqb c sep then String c EmptyString else EmptyString
  end.

(** [s.rstrip(c)] for one character. *)
Fixpoint rstrip_char (c : ascii) (s : string) : string :=
  match s with
  | EmptyString => EmptyString
  | String a s' =>
      match rstrip_char c s' with
      | EmptyString => if Ascii.eqb a c then EmptyString else String a EmptyString
      | r => String a r
      end
  end.

Fixpoint all_chars (p : ascii -> bool) (s : string) : bool :=
  match s with
  | EmptyString => true
  | String c s' => p c && all_chars p s'
  end.

(** [s[:1].strip() != ""]: the first character is no whitespace. *)
Definition first_is_text (s : string) : bool :=
  match s with
  | EmptyString => false
  | String c _ => negb (isspace c)
  end.

(** [s[-1:].strip() != ""]: the last character is no whitespace. *)
Fixpoint last_is_text (s : string) : bool :=
  match s with
  | EmptyString => false
  | String c EmptyString => negb (isspace c)
  | String _ s' => last_is_text s'
  end.

(** [not any(c.isspace() for c in s)] *)
Definition no_space (s : string) : bool :=
  all_chars (fun c => negb (isspace c)) s.

End PyStr.

(** ** POSIX paths: [os.path] and [pathlib] *)

Module PosixPath.

(** [os.path.join(a, b)] *)
Definition join (a b : string) : string :=
  if PyStr.startswith "/" b then b
  else if String.eqb a EmptyString || PyStr.endswith_char "/" a then a +:+ b
  else a +:+ "/" +:+ b.

(** [os.path.basename(p)] *)
Definition basename (p : string) : string := PyStr.after_last "/" p.

(** [os.path.dirname(p)] *)
Definition dirname (p : string) : string :=
  let head := PyStr.upto_last "/" p in
  if negb (String.eqb head EmptyString) && negb (PyStr.all_chars (Ascii.eqb "/") head)
  then PyStr.rstrip_char "/" head
  else head.

(** A [pathlib.PurePosixPath]: its root ([""], ["/"] or ["//"]) and
    its components. *)
Record Path := mkPath { root : string; parts : list string }.

(** The root of a path string: exactly two leading slashes are kept,
    one or three and more make ["/"]. *)
Definition parse_root (s : string) : string :=
  match s with
  | String "/" (String "/" (String "/" _)) => "/"
  | String "/" (String "/" _) => "//"
  | String "/" _ => "/"
  | _ => EmptyString
  end.

(** The components of a path string: empty ones and ["."] are dropped. *)
Definition parse_parts (s : string) : list string :=
  List.filter (fun c => negb (String.eqb c EmptyString) && negb (String.eqb c "."))
    (PyStr.split "/" s).

(** [pathlib.Path(s)] for a string [s]. *)
Definition of_string (s : string) : Path :=
  {| root := parse_root s; parts := parse_parts s |}.

(** [str(p)], which is also [os.fspath(p)]. *)
Definition to_string (p : Path) : string :=
  match root p, parts p with
  | EmptyString, [] => "."
  | r, ps => r +:+ PyStr.join "/" ps
  end.

Definition is_absolute (p : Path) : bool := negb (String.eqb (root p) EmptyString).

(** [p.absolute()]: an absolute path is returned as it is, a relative
    one is put under the working directory [cwd]. *)
Definition absolute (cwd : string) (p : Path) : Path :=
  if is_absolute p then p
  else let c := of_string cwd in {| root := root c; parts := parts c ++ parts p |}.

(** [p.parent] *)
Definition parent (p : Path) : Path :=
  {| root := root p; parts := removelast (parts p) |}.

(** [p / name] as [iterdir] builds it: [name] is one more component. *)
Definition child (p : Path) (name : string) : Path :=
  {| root := root p; parts := parts p ++ [name] |}.

End PosixPath.

(** What the program passes where a path is expected: a string or a
    [pathlib.Path]. *)
Inductive pathlike :=
  | PStr (s : string)
  | PPath (p : PosixPath.Path).

(** [os.fspath(x)], also what [str(x)] and an f-string give. *)
Definition fspath (x : pathlike) : string :=
  match x with
  | PStr s => s
  | PPath p => PosixPath.to_string p
  end.

(** [pathlib.Path(x)] *)
Definition to_Path (x : pathlike) : PosixPath.Path :=
  match x with
  | PStr s => PosixPath.of_string s
  | PPath p => p
  end.

(** ** Extended regular expressions and [grep -E -w] *)

Module Regex.

Inductive regex :=
  | Empty                         (* matches nothing *)
  | Eps                           (* matches the empty string *)
  | Chr (c : ascii)               (* an ordinary or escaped character *)
  | Range (lo hi : ascii)         (* a bracket expression [lo-hi] *)
  | Cat (r1 r2 : regex)
  | Alt (r1 r2 : regex)
  | Star (r : regex).

Definition in_range (lo hi c : ascii) : bool :=
  (nat_of_ascii lo <=? nat_of_ascii c)%nat && (nat_of_ascii c <=? nat_of_ascii hi)%nat.

Fixpoint nullable (r : regex) : bool :=
  match r with
  | Empty => false
  | Eps => true
  | Chr _ => false
  | Range _ _ => false
  | Cat r1 r2 => nullable r1 && nullable r2
  | Alt r1 r2 => nullable r1 || nullable r2
  | Star _ => true
  end.

(** The derivative of [r] by the character [c]. *)
Fixpoint deriv (c : ascii) (r : regex) : regex :=
  match r with
  | Empty => Empty
  | Eps => Empty
  | Chr a => if Ascii.eqb a c then Eps else Empty
  | Range lo hi => if in_range lo hi c then Eps else Empty
  | Cat r1 r2 =>
      if nullable r1 then Alt (Cat (deriv c r1) r2) (deriv c r2)
      else Cat (deriv c r1) r2
  | Alt r1 r2 => Alt (deriv c r1) (deriv c r2)
  | Star r1 => Cat (deriv c r1) (Star r1)
  end.

(** The whole string [s] matches [r]. *)
Fixpoint matches (r : regex) (s : string) : bool :=
  match s with
  | EmptyString => nullable r
  | String c s' => matches (deriv c r) s'
  end.

(** The strings [r] denotes. *)
Inductive lang : regex -> string -> Prop :=
  | lang_eps : lang Eps EmptyString
  | lang_chr c : lang (Chr c) (String c EmptyString)
  | lang_range lo hi c : in_range lo hi c = true -> lang (Range lo hi) (String c EmptyString)
  | lang_cat r1 r2 s1 s2 : lang r1 s1 -> lang r2 s2 -> lang (Cat r1 r2) (s1 +:+ s2)
  | lang_alt_l r1 r2 s : lang r1 s -> lang (Alt r1 r2) s
  | lang_alt_r r1 r2 s : lang r2 s -> lang (Alt r1 r2) s
  | lang_star_nil r : lang (Star r) EmptyString
  | lang_star_cons r s1 s2 : lang r s1 -> lang (Star r) s2 -> lang (Star r) (s1 +:+ s2).

(** A word constituent for [grep -w]: a letter, a digit or the
    underscore. *)
Definition is_word (c : ascii) : bool :=
  in_range "a" "z" c || in_range "A" "Z" c || in_range "0" "9" c || Ascii.eqb c "_".

(** The text after a match ends the word: the line ends there or a
    character that is no word constituent follows. *)
Definition word_end (rest : string) : bool :=
  match rest with
  | EmptyString => true
  | String c _ => negb (is_word c)
  end.

(** Some prefix of [rest] matches [r] and ends a word. *)
Fixpoint match_prefix (r : regex) (rest : string) : bool :=
  (nullable r && word_end rest)
  || match rest with
     | EmptyString => false
     | String c rest' => match_prefix (deriv c r) rest'
     end.

(** Some non-empty substring of the line matches [r] as a whole word;
    [prev_word] tells whether the character before the current position
    is a word constituent. *)
Fixpoint search_word (r : regex) (prev_word : bool) (line : string) : bool :=
  match line with
  | EmptyString => false
  | String c line' =>
      (negb prev_word && match_prefix (deriv c r) line')
      || search_word r (is_word c) line'
  end.

(** [grep -E -w r] selects the line. *)
Definition grep_w (r : regex) (line : string) : bool := search_word r false line.

End Regex.

(** ** Python objects *)

Module Py.

(** A value is a scalar or a reference to a list or dictionary in the
    store.  Two references to one location are the same object: this
    is how a YAML alias and its anchor, or a variable and the document
    it was read from, share their updates.  A float is kept as its
    binary64 bit pattern; the program never computes with one. *)
Inductive value :=
  | VNone
  | VBool (b : bool)
  | VInt (n : Z)
  | VFloat (bits : Z)
  | VStr (s : string)
  | VRef (l : nat).

Inductive object :=
  | OList (items : list value)
  | ODict (entries : list (value * value)).

Abbreviation store := (list object).

(** The exceptions the program can meet. *)
Inductive exn :=
  | KeyError
  | TypeError
  | AttributeError
  | OSError
  | YAMLError.

(** [bool(v)] *)
Definition truthy (h : store) (v : value) : bool :=
  match v with
  | VNone => false
  | VBool b => b
  | VInt n => negb (n =? 0)%Z
  | VFloat bits => negb ((bits =? 0)%Z || (bits =? 2 ^ 63)%Z)
  | VStr s => negb (String.eqb s EmptyString)
  | VRef l =>
      match h !! l with
      | Some (OList []) => false
      | Some (ODict []) => false
      | _ => true
      end
  end.

(** A dictionary key equals the string [k]. *)
Definition key_is (k : string) (key : value) : bool :=
  match key with
  | VStr s => String.eqb s k
  | _ => false
  end.

(** The value a dictionary's entries hold for the string key [k]. *)
Fixpoint entries_get (k : string) (es : list (value * value)) : option value :=
  match es with
  | [] => None
  | (key, v) :: es' => if key_is k key then Some v else entries_get k es'
  end.

(** [d[k] = v] on a dictionary's entries: an existing key keeps its
    place, a new one goes last. *)
Fixpoint entries_set (k : string) (v : value) (es : list (value * value))
  : list (value * value) :=
  match es with
  | [] => [(VStr k, v)]
  | (key, v') :: es' =>
      if key_is k key then (key, v) :: es' else (key, v') :: entries_set k v es'
  end.

(** [l.insert(i, x)] for [i >= 0]: past the end it appends. *)
Definition list_insert_at {A} (i : nat) (x : A) (l : list A) : list A :=
  take i l ++ x :: drop i l.

(** A display of freshly built objects: a list or dictionary literal
    whose leaves are values that exist already. *)
Inductive lit :=
  | LVal (v : value)
  | LList (items : list lit)
  | LDict (entries : list (string * lit)).

Definition LStr (s : string) : lit := LVal (VStr s).

(** Evaluating a display allocates its lists and dictionaries, the
    inner ones first, each at the end of the store. *)
Fixpoint alloc (t : lit) (h : store) {struct t} : value * store :=
  match t with
  | LVal v => (v, h)
  | LList items =>
      let '(vs, h1) :=
        (fix go (ts : list lit) (h : store) {struct ts} : list value * store :=
           match ts with
           | [] => ([], h)
           | t' :: ts' =>
               let '(v, h1) := alloc t' h in
               let '(vs, h2) := go ts' h1 in
               (v :: vs, h2)
           end) items h in
      (VRef (length h1), h1 ++ [OList vs])
  | LDict entries =>
      let '(es, h1) :=
        (fix go (ts : list (string * lit)) (h : store) {struct ts}
           : list (value * value) * store :=
           match ts with
           | [] => ([], h)
           | (k, t') :: ts' =>
               let '(v, h1) := alloc t' h in
               let '(es, h2) := go ts' h1 in
               ((VStr k, v) :: es, h2)
           end) entries h in
      (VRef (length h1), h1 ++ [ODict es])
  end.

(** The value a dictionary display holds for a key. *)
Fixpoint lit_entries_get (k : string) (es : list (string * lit)) : option lit :=
  match es with
  | [] => None
  | (k', t) :: es' => if String.eqb k' k then Some t else lit_entries_get k es'
  end.

Definition lit_get (k : string) (t : lit) : option lit :=
  match t with
  | LDict es => lit_entries_get k es
  | _ => None
  end.

(** A parsed YAML document: its objects, with locations counted from
    the document's own start, and its top-level value. *)
Record document := mkDocument { doc_objects : list object; doc_root : value }.

Definition shift_value (k : nat) (v : value) : value :=
  match v with
  | VRef l => VRef (k + l)
  | _ => v
  end.

Definition shift_object (k : nat) (o : object) : object :=
  match o with
  | OList items => OList (map (shift_value k) items)
  | ODict es => ODict (map (fun e => (shift_value k e.1, shift_value k e.2)) es)
  end.

(** The loader builds the document's objects at the end of the store. *)
Definition load_document (d : document) (h : store) : value * store :=
  (shift_value (length h) (doc_root d), h ++ map (shift_object (length h)) (doc_objects d)).

End Py.

(** ** The operating system *)

(** What opening and parsing a YAML file gives. *)
Inductive load_result :=
  | LoadOSError                       (* the file cannot be opened *)
  | LoadYAMLError                     (* the text is not YAML *)
  | Loaded (d : Py.document).

(** The world outside the program and what the program observes of it.
    [getoutput] runs a shell command that can change the world (a
    checkout rewrites the working tree); the other observations only
    read. *)
Record OS := mkOS {
  world : Type;
  (** [os.path.realpath(__file__)] *)
  script_file : string;
  (** [os.getcwd()] *)
  getcwd : string;
  os_path_isdir : world -> string -> bool;
  os_path_isfile : world -> string -> bool;
  os_path_exists : world -> string -> bool;
  os_listdir : world -> string -> list string;
  (** the lines [git tag -l] prints *)
  git_tag_l : world -> list string;
  (** [subprocess.getoutput(cmd)]: its output and the world it leaves *)
  subprocess_getoutput : string -> world -> string * world;
  (** [open(path)] followed by [yaml.safe_load] *)
  yaml_safe_load : world -> string -> load_result;
  (** [yaml.dump(value, default_flow_style=False)] *)
  yaml_dump : Py.store -> Py.value -> string;
  (** [open(path, "w")] followed by writing the text *)
  write_file : string -> string -> world -> world;
}.

Existing Class OS.

(** ** The monad of statements *)

Module Run.
Section Run.

Context {E : OS}.

Record state := mkState {
  st_world : world E;
  st_heap : Py.store;
  st_stdout : list string;
}.

Inductive outcome (A : Type) :=
  | Ok (a : A) (s : state)
  | Raise (e : Py.exn).
#[global] Arguments Ok {A} a s.
#[global] Arguments Raise {A} e.

Definition M (A : Type) : Type := state -> outcome A.

Definition ret {A} (a : A) : M A := fun s => Ok a s.

Definition bind {A B} (m : M A) (k : A -> M B) : M B :=
  fun s => match m s with
           | Ok a s' => k a s'
           | Raise e => Raise e
           end.

Definition raise {A} (e : Py.exn) : M A := fun _ => Raise e.

(** Reading the world and the store. *)
Definition observe {A} (f : world E -> A) : M A := fun s => Ok (f (st_world s)) s.
Definition read_heap {A} (f : Py.store -> A) : M A := fun s => Ok (f (st_heap s)) s.

(** [print(msg)] *)
Definition print (msg : string) : M unit :=
  fun s => Ok tt {| st_world := st_world s; st_heap := st_heap s;
                    st_stdout := st_stdout s ++ [msg] |}.

(** Running a command that changes the world. *)
Definition run_world {A} (f : world E -> A * world E) : M A :=
  fun s => let '(a, w) := f (st_world s) in
           Ok a {| st_world := w; st_heap := st_heap s; st_stdout := st_stdout s |}.

(** Running a command that changes the store. *)
Definition run_heap {A} (f : Py.store -> A * Py.store) : M A :=
  fun s => let '(a, h) := f (st_heap s) in
           Ok a {| st_world := st_world s; st_heap := h; st_stdout := st_stdout s |}.

(** The state after the world moved to [w] and [msgs] were printed. *)
Definition moved (s : state) (w : world E) (msgs : list string) : state :=
  {| st_world := w; st_heap := st_heap s; st_stdout := st_stdout s ++ msgs |}.

(** [for x in xs: acc = body x acc] *)
Fixpoint for_each {A B} (xs : list A) (body : A -> B -> M B) (acc : B) : M B :=
  match xs with
  | [] => ret acc
  | x :: xs' => bind (body x acc) (for_each xs' body)
  end.

End Run.
End Run.

Import Run.

Notation "x <- m ;; k" := (bind m (fun x => k))
  (at level 100, m at next level, right associativity).
Notation "m ;;; k" := (bind m (fun _ => k))
  (at level 100, right associativity).

(** Operations on Python objects as statements. *)

Module PyOps.
Section PyOps.

Context {E : OS}.

(** [v[k]] for a string [k]: a dictionary gives the value or
    [KeyError]; nothing else can be indexed by a string. *)
Definition getitem (v : Py.value) (k : string) : M Py.value :=
  fun s =>
    match v with
    | Py.VRef l =>
        match st_heap s !! l with
        | Some (Py.ODict es) =>
            match Py.entries_get k es with
            | Some x => Ok x s
            | None => Raise Py.KeyError
            end
        | _ => Raise Py.TypeError
        end
    | _ => Raise Py.TypeError
    end.

Definition set_object (l : nat) (o : Py.object) : M unit :=
  fun s => Ok tt {| st_world := st_world s; st_heap := <[l := o]> (st_heap s);
                    st_stdout := st_stdout s |}.

(** [v[k] = x] for a string [k] *)
Definition setitem (v : Py.value) (k : string) (x : Py.value) : M unit :=
  fun s =>
    match v with
    | Py.VRef l =>
        match st_heap s !! l with
        | Some (Py.ODict es) => set_object l (Py.ODict (Py.entries_set k x es)) s
        | _ => Raise Py.TypeError
        end
    | _ => Raise Py.TypeError
    end.

(** [v.insert(i, x)]: only a list has the method. *)
Definition list_insert (v : Py.value) (i : nat) (x : Py.value) : M unit :=
  fun s =>
    match v with
    | Py.VRef l =>
        match st_heap s !! l with
        | Some (Py.OList items) => set_object l (Py.OList (Py.list_insert_at i x items)) s
        | _ => Raise Py.AttributeError
        end
    | _ => Raise Py.AttributeError
    end.

(** [v.append(x)] *)
Definition list_append (v : Py.value) (x : Py.value) : M unit :=
  fun s =>
    match v with
    | Py.VRef l =>
        match st_heap s !! l with
        | Some (Py.OList items) => set_object l (Py.OList (items ++ [x])) s
        | _ => Raise Py.AttributeError
        end
    | _ => Raise Py.AttributeError
    end.

(** Evaluating a display. *)
Definition new (t : Py.lit) : M Py.value := run_heap (Py.alloc t).

(** [v.get(k, default)]: only a dictionary has the method; the
    default is evaluated before the call. *)
Definition dict_get (v : Py.value) (k : string) (default : Py.lit) : M Py.value :=
  fun s =>
    match v with
    | Py.VRef l =>
        match st_heap s !! l with
        | Some (Py.ODict es) =>
            (d <- new default ;;
             ret (match Py.entries_get k es with Some x => x | None => d end)) s
        | _ => Raise Py.AttributeError
        end
    | _ => Raise Py.AttributeError
    end.

(** [bool(v)] *)
Definition truth (v : Py.value) : M bool := read_heap (fun h => Py.truthy h v).

(** [with open(path) as f: yaml.safe_load(f)] *)
Definition load_yaml (path : string) : M Py.value :=
  r <- observe (fun w => yaml_safe_load E w path) ;;
  match r with
  | LoadOSError => raise Py.OSError
  | LoadYAMLError => raise Py.YAMLError
  | Loaded d => run_heap (Py.load_document d)
  end.

End PyOps.
End PyOps.

(** ** The generator *)

Definition nl : string := String "010" EmptyString.

Module Shell.

(** The text a command prints for the lines it writes. *)
Fixpoint unlines (ls : list string) : string :=
  match ls with
  | [] => EmptyString
  | l :: ls' => l +:+ nl +:+ unlines ls'
  end.

(** [subprocess.getoutput] drops one trailing newline. *)
Fixpoint chomp (s : string) : string :=
  match s with
  | EmptyString => EmptyString
  | String c EmptyString => if Ascii.eqb c "010" then EmptyString else s
  | String c s' => String c (chomp s')
  end.

(** The output of [lines | grep -E -w r]. *)
Definition grep_output (r : Regex.regex) (lines : list string) : string :=
  chomp (unlines (List.filter (Regex.grep_w r) lines)).

(** A line of the tag listing: not empty and without whitespace, as
    git's reference names are. *)
Definition tag_line (t : string) : Prop :=
  t <> EmptyString /\ PyStr.no_space t = true.

End Shell.

Module Gen.
Section Gen.

Context {E : OS}.

Definition dir_path : string := PosixPath.dirname (script_file E).
Definition base_config : string := PosixPath.join dir_path "base-generated-config.yaml".
Definition generated_config : string := PosixPath.join dir_path "generated.yml".
(** [pathlib.Path(dir_path).parent], as [os.path.join] reads it. *)
Definition parent_dir : string :=
  PosixPath.to_string (PosixPath.parent (PosixPath.of_string dir_path)).
Definition examples_path : string := PosixPath.join parent_dir "examples".
Definition test_suites_path : string := PosixPath.join parent_dir "test".
Definition main_branch : string := "main".

Definition is_valid (w : world E) (test_harness_path : pathlike) : bool :=
  if negb (os_path_isdir E w (fspath test_harness_path)) then false
  else
    let elements := map PosixPath.basename (os_listdir E w (fspath test_harness_path)) in
    if negb (existsb (String.eqb "test_entrypoint.sh") elements) then false
    else true.

Definition extends_config (w : world E) (application_path : string) : bool :=
  if negb (os_path_isdir E w application_path) then false
  else
    let elements := map PosixPath.basename (os_listdir E w application_path) in
    existsb (String.eqb "circle_config.yml") elements.

Definition load_circle_config (application_path : string) : M Py.value :=
  let config_path := PosixPath.join application_path "circle_config.yml" in
  isfile <- observe (fun w => os_path_isfile E w config_path) ;;
  if isfile then PyOps.load_yaml config_path else ret Py.VNone.

(** A digit from 1 to 9 followed by any number of digits. *)
Definition re_nonzero : Regex.regex :=
  Regex.Cat (Regex.Range "1" "9") (Regex.Star (Regex.Range "0" "9")).

(** The digit 0 alone, or a number that starts with 1 to 9. *)
Definition re_number : Regex.regex := Regex.Alt (Regex.Chr "0") re_nonzero.

(** The text of the pattern in [get_git_tags]. *)
Definition regex_text : string :=
  "v(0|([1-9][0-9]*)\.(0|([1-9][0-9]*))\.(0|[1-9][0-9]*))|latest".

(** The pattern, group by group.  The group that follows the letter v
    closes at the end of the third number, so its two alternatives are
    the digit 0 alone and the three dotted numbers, the first of which
    starts with 1 to 9. *)
Definition regex : Regex.regex :=
  Regex.Alt
    (Regex.Cat (Regex.Chr "v")
       (Regex.Alt (Regex.Chr "0")
          (Regex.Cat re_nonzero
             (Regex.Cat (Regex.Chr ".")
                (Regex.Cat re_number
                   (Regex.Cat (Regex.Chr ".") re_number))))))
    (Regex.Cat (Regex.Chr "l") (Regex.Cat (Regex.Chr "a") (Regex.Cat (Regex.Chr "t")
       (Regex.Cat (Regex.Chr "e") (Regex.Cat (Regex.Chr "s") (Regex.Chr "t")))))).

Definition get_git_tags : M (list string) :=
  tags <- observe (fun w => Shell.grep_output regex (git_tag_l E w)) ;;
  ret (PyStr.split "010" (PyStr.strip tags)).

Definition list_test_suites_for_version (version : string) : M (list string) :=
  let cmd := "git checkout " +:+ version +:+ " && ls " +:+ test_suites_path in
  out <- run_world (subprocess_getoutput E cmd) ;;
  let output := PyStr.strip out in
  if PyStr.contains "error:" output then
    print ("Failed to checkout or list test suites for version: " +:+ version) ;;;
    ret []
  else ret (PyStr.split "010" output).

Definition app_and_name_from_path (test_harness_path : pathlike) : string * string :=
  let test_path := PosixPath.to_string (PosixPath.absolute (getcwd E) (to_Path test_harness_path)) in
  let test_name := PosixPath.basename test_path in
  (test_path, test_name).

Definition wrap_with_condition (steps : Py.value) (app_name : string) : Py.lit :=
  Py.LDict [
    ("when", Py.LDict [
       ("condition", Py.LDict [
          ("equal", Py.LList [Py.LStr "<< parameters.example-app-name >>"; Py.LStr app_name])
       ]);
       ("steps", Py.LVal steps)
    ])
  ].

(** [circle_config['jobs']['test-example']['steps']] *)
Definition shared_steps (circle_config : Py.value) : M Py.value :=
  jobs <- PyOps.getitem circle_config "jobs" ;;
  job <- PyOps.getitem jobs "test-example" ;;
  PyOps.getitem job "steps".

Definition merge_with_custom_steps (circle_config custom_config : Py.value)
    (app_name : string) : M Py.value :=
  before_steps <- PyOps.dict_get custom_config "before" (Py.LList []) ;;
  after_steps <- PyOps.dict_get custom_config "after" (Py.LList []) ;;
  has_before <- PyOps.truth before_steps ;;
  (if has_before then
     conditional_before_steps <- PyOps.new (wrap_with_condition before_steps app_name) ;;
     steps <- shared_steps circle_config ;;
     PyOps.list_insert steps 1 conditional_before_steps
   else ret tt) ;;;
  has_after <- PyOps.truth after_steps ;;
  (if has_after then
     conditional_after_steps <- PyOps.new (wrap_with_condition after_steps app_name) ;;
     steps <- shared_steps circle_config ;;
     PyOps.list_append steps conditional_after_steps
   else ret tt) ;;;
  ret circle_config.

(** One turn of the loop of [append_custom_yamls]. *)
Definition append_custom_yaml (app : pathlike) (circle_config : Py.value) : M Py.value :=
  let '(app_path, app_name) := app_and_name_from_path app in
  extends <- observe (fun w => extends_config w app_path) ;;
  if negb extends then
    print ("Software under " +:+ app_path +:+ " doesn't provide custom CircleCI steps.") ;;;
    ret circle_config
  else
    custom_config <- load_circle_config app_path ;;
    has_config <- PyOps.truth custom_config ;;
    if has_config then merge_with_custom_steps circle_config custom_config app_name
    else ret circle_config.

Definition append_custom_yamls (circle_config : Py.value) (example_apps : list pathlike)
  : M Py.value :=
  for_each example_apps append_custom_yaml circle_config.

(** The dictionary [new_example] of [list_test_executions]. *)
Definition new_example (app : pathlike) (suite_path version : string) : Py.lit :=
  let '(app_path, app_name) := app_and_name_from_path app in
  let '(_, suite_name) := app_and_name_from_path (PStr suite_path) in
  Py.LDict [
    ("example-app-path", Py.LStr app_path); ("test-suite-name", Py.LStr suite_name);
    ("example-app-name", Py.LStr app_name); ("test-suite-path", Py.LStr suite_path);
    ("bb-version", Py.LStr version);
    ("name", Py.LStr (app_name +:+ " (" +:+ suite_name +:+ " test suite , version: "
                        +:+ version +:+ ")"))
  ].

(** One turn of the inner loop of [list_test_executions]. *)
Definition add_suite (app : pathlike) (version suite : string)
    (test_executions : list Py.lit) : M (list Py.lit) :=
  let suite_path := PosixPath.join test_suites_path suite in
  skip <- observe (fun w => negb (os_path_exists E w suite_path)
                            || negb (is_valid w (PStr suite_path))) ;;
  if skip then
    print ("---" +:+ nl +:+ "Test Suite: " +:+ suite +:+ nl +:+ "will not be executed."
           +:+ nl +:+ "test_entrypoint.sh is missing." +:+ nl +:+ "---") ;;;
    ret test_executions
  else
    ret (test_executions ++ [Py.LDict [("test-example", new_example app suite_path version)]]).

(** One turn of the outer loop of [list_test_executions]. *)
Definition add_app_version (pair : pathlike * string)
    (test_executions : list Py.lit) : M (list Py.lit) :=
  let '(app, version) := pair in
  valid <- observe (fun w => is_valid w app) ;;
  if negb valid then
    print ("---" +:+ nl +:+ "App: " +:+ fspath app +:+ nl +:+ "will not be executed."
           +:+ nl +:+ "test_entrypoint.sh is missing." +:+ nl +:+ "---") ;;;
    ret test_executions
  else
    suites_for_version <- list_test_suites_for_version version ;;
    for_each suites_for_version (add_suite app version) test_executions.

Definition list_test_executions (example_apps : list pathlike) (versions : list string)
  : M (list Py.lit) :=
  for_each (list_prod example_apps versions) add_app_version [].

(** [[name for name in pathlib.Path(examples_path).iterdir() if os.path.isdir(name)]] *)
Definition available_examples : M (list pathlike) :=
  is_dir <- observe (fun w => os_path_isdir E w examples_path) ;;
  if negb is_dir then raise Py.OSError
  else
    observe (fun w =>
      List.filter (fun name => os_path_isdir E w (fspath name))
        (map (fun n => PPath (PosixPath.child (PosixPath.of_string examples_path) n))
           (os_listdir E w examples_path))).

(** [available_versions] once the top level has appended the branch. *)
Definition available_versions : M (list string) :=
  tags <- get_git_tags ;;
  ret (tags ++ [main_branch]).

(** The script's top level; the result is [yaml_content]. *)
Definition main : M string :=
  circle_config <- PyOps.load_yaml base_config ;;
  examples <- available_examples ;;
  versions <- available_versions ;;
  executions <- list_test_executions examples versions ;;
  jobs <- PyOps.new (Py.LList executions) ;;
  workflows <- PyOps.getitem circle_config "workflows" ;;
  workflow <- PyOps.getitem workflows "test_everything" ;;
  PyOps.setitem workflow "jobs" jobs ;;;
  circle_config <- append_custom_yamls circle_config examples ;;
  yaml_content <- read_heap (fun h => yaml_dump E h circle_config) ;;
  print yaml_content ;;;
  text <- read_heap (fun h => yaml_dump E h circle_config) ;;
  run_world (fun w => (tt, write_file E generated_config text w)) ;;;
  ret yaml_content.

End Gen.
End Gen.

(** ** A concrete world

    A repository checked out at [/repo], with the script under
    [/repo/src/templates].  A world is a snapshot of the working tree;
    the command that checks a known revision out and lists the suites
    prints that revision's text and leaves its snapshot, and any other
    command fails with git's error message. *)

Module Sample.

Record snapshot := mkSnapshot {
  dirs : list (string * list string);
  yamls : list (string * load_result);
}.

Record repository := mkRepository {
  tags : list string;
  (** a revision, with what its checkout and listing print and leave *)
  revisions : list (string * (string * snapshot));
}.

Fixpoint assoc {A} (k : string) (l : list (string * A)) : option A :=
  match l with
  | [] => None
  | (k', a) :: l' => if String.eqb k' k then Some a else assoc k l'
  end.

(** A directory's name with and without a final slash is one entry. *)
Definition dir_key (p : string) : string :=
  match PyStr.rstrip_char "/" p with
  | EmptyString => "/"
  | q => q
  end.

Definition isdir (w : snapshot) (p : string) : bool :=
  match assoc (dir_key p) (dirs w) with Some _ => true | None => false end.

Definition isfile (w : snapshot) (p : string) : bool :=
  match assoc p (yamls w) with Some _ => true | None => false end.

Definition listdir (w : snapshot) (p : string) : list string :=
  match assoc (dir_key p) (dirs w) with Some names => names | None => [] end.

Definition load (w : snapshot) (p : string) : load_result :=
  match assoc p (yamls w) with Some r => r | None => LoadOSError end.

Definition checkout_ls (r : repository) (cmd : string) (w : snapshot) : string * snapshot :=
  match List.find (fun rev => String.eqb cmd
                      ("git checkout " +:+ rev.1 +:+ " && ls /repo/src/test"))
          (revisions r) with
  | Some rev => rev.2
  | None => ("error: pathspec did not match any file(s) known to git", w)
  end.

(** A plain rendering of a value, enough to tell documents apart. *)
Fixpoint render (fuel : nat) (h : Py.store) (v : Py.value) : string :=
  match v with
  | Py.VNone => "null"
  | Py.VBool b => if b then "true" else "false"
  | Py.VInt n => "int"
  | Py.VFloat _ => "float"
  | Py.VStr s => s
  | Py.VRef l =>
      match fuel with
      | O => "..."
      | S fuel' =>
          match h !! l with
          | Some (Py.OList items) =>
              "[" +:+ PyStr.join ", " (map (render fuel' h) items) +:+ "]"
          | Some (Py.ODict es) =>
              "{" +:+ PyStr.join ", "
                (map (fun e => render fuel' h e.1 +:+ ": " +:+ render fuel' h e.2) es) +:+ "}"
          | None => "?"
          end
      end
  end.

Definition os (r : repository) : OS :=
  {| world := snapshot;
     script_file := "/repo/src/templates/generate-config.py";
     getcwd := "/repo";
     os_path_isdir := isdir;
     os_path_isfile := isfile;
     os_path_exists := fun w p => isdir w p || isfile w p;
     os_listdir := listdir;
     git_tag_l := fun _ => tags r;
     subprocess_getoutput := checkout_ls r;
     yaml_safe_load := load;
     yaml_dump := render 8;
     write_file := fun p text w =>
       {| dirs := dirs w; yamls := (p, Loaded (Py.mkDocument [] (Py.VStr text))) :: yamls w |} |}.

(** The base template: a workflow with a placeholder job list and the
    shared job with two steps. *)
Definition base_template : Py.document :=
  Py.mkDocument
    [ Py.ODict [(Py.VStr "version", Py.VFloat 4611911198408756429);
                (Py.VStr "jobs", Py.VRef 1); (Py.VStr "workflows", Py.VRef 4)];
      Py.ODict [(Py.VStr "test-example", Py.VRef 2)];
      Py.ODict [(Py.VStr "steps", Py.VRef 3)];
      Py.OList [Py.VStr "checkout"; Py.VStr "run-tests"];
      Py.ODict [(Py.VStr "test_everything", Py.VRef 5)];
      Py.ODict [(Py.VStr "jobs", Py.VRef 6)];
      Py.OList [] ]
    (Py.VRef 0).

(** An override document with only [after: [{run: cleanup}]]. *)
Definition after_cleanup : Py.document :=
  Py.mkDocument
    [ Py.ODict [(Py.VStr "after", Py.VRef 1)];
      Py.OList [Py.VRef 2];
      Py.ODict [(Py.VStr "run", Py.VStr "cleanup")] ]
    (Py.VRef 0).

(** An override document with only [before: [{run: setup}]]. *)
Definition before_setup : Py.document :=
  Py.mkDocument
    [ Py.ODict [(Py.VStr "before", Py.VRef 1)];
      Py.OList [Py.VRef 2];
      Py.ODict [(Py.VStr "run", Py.VStr "setup")] ]
    (Py.VRef 0).

(** The working tree of the scenario: [app1] without an override,
    [app2] with an [after] override, [app3] without the entrypoint,
    and the test suite [smoke]. *)
Definition tree : snapshot :=
  {| dirs :=
       [ ("/repo/src/examples", ["app1"; "app2"; "app3"; "README.md"]);
         ("/repo/src/examples/app1", ["test_entrypoint.sh"; "main.py"]);
         ("/repo/src/examples/app2", ["test_entrypoint.sh"; "circle_config.yml"]);
         ("/repo/src/examples/app3", ["main.py"]);
         ("/repo/src/test", ["smoke"]);
         ("/repo/src/test/smoke", ["test_entrypoint.sh"]) ];
     yamls :=
       [ ("/repo/src/templates/base-generated-config.yaml", Loaded base_template);
         ("/repo/src/examples/app2/circle_config.yml", Loaded after_cleanup) ] |}.

Definition repo : repository :=
  {| tags := ["v1.0.0"; "nightly"];
     revisions := [("v1.0.0", ("smoke", tree)); ("main", ("smoke", tree))] |}.



Definition start (r : repository) (w : snapshot) : @state (os r) :=
  @mkState (os r) w [] [].

(** A working tree with two applications that bring custom steps:
    [app2] an [after] block, [app4] a [before] block. *)
Definition extender_tree : snapshot :=
  {| dirs :=
       [ ("/repo/src/examples/app1", ["test_entrypoint.sh"]);
         ("/repo/src/examples/app2", ["test_entrypoint.sh"; "circle_config.yml"]);
         ("/repo/src/examples/app4", ["circle_config.yml"; "test_entrypoint.sh"]) ];
     yamls :=
       [ ("/repo/src/examples/app2/circle_config.yml", Loaded after_cleanup);
         ("/repo/src/examples/app4/circle_config.yml", Loaded before_setup) ] |}.

(** The state once the base template is loaded into an empty store. *)
Definition loaded (w : snapshot) : @state (os repo) :=
  @mkState (os repo) w (Py.doc_objects base_template) [].

(** A repository without any version tag, and one with a tag that is
    the letter v and a single 0. *)
Definition untagged_repo : repository :=
  {| tags := ["nightly"; "release-1"]; revisions := [] |}.

Definition odd_tags_repo : repository :=
  {| tags := ["v0"; "v1.2.3"; "v1.2.3-rc1"; "nightly"]; revisions := [] |}.

(** An override document that is a sequence: [- run: setup]. *)
Definition steps_only : Py.document :=
  Py.mkDocument
    [ Py.OList [Py.VRef 1];
      Py.ODict [(Py.VStr "run", Py.VStr "setup")] ]
    (Py.VRef 0).

(** A working tree whose application [app5] brings such a document. *)
Definition list_override_tree : snapshot :=
  {| dirs :=
       [ ("/repo/src/examples/app1", ["test_entrypoint.sh"]);
         ("/repo/src/examples/app5", ["test_entrypoint.sh"; "circle_config.yml"]) ];
     yamls :=
       [ ("/repo/src/examples/app5/circle_config.yml", Loaded steps_only) ] |}.

(** A template whose shared job has no step yet. *)
Definition bare_template : Py.document :=
  Py.mkDocument
    [ Py.ODict [(Py.VStr "jobs", Py.VRef 1); (Py.VStr "workflows", Py.VRef 4)];
      Py.ODict [(Py.VStr "test-example", Py.VRef 2)];
      Py.ODict [(Py.VStr "steps", Py.VRef 3)];
      Py.OList [];
      Py.ODict [(Py.VStr "test_everything", Py.VRef 5)];
      Py.ODict [(Py.VStr "jobs", Py.VRef 6)];
      Py.OList [] ]
    (Py.VRef 0).

(** The store with that template and the override [before_setup]
    loaded after it. *)
Definition bare_loaded : @state (os repo) :=
  @mkState (os repo) extender_tree
    (Py.load_document before_setup (Py.doc_objects bare_template)).2 [].

(** A template that is not a pipeline: [version: 2.1] alone. *)
Definition jobless_template : Py.document :=
  Py.mkDocument [ Py.ODict [(Py.VStr "version", Py.VFloat 4611911198408756429)] ]
    (Py.VRef 0).

Definition jobless_loaded : @state (os repo) :=
  @mkState (os repo) extender_tree
    (Py.load_document before_setup (Py.doc_objects jobless_template)).2 [].

(** The working tree of the scenario with a base template that holds
    only [version: 2.1]. *)
Definition jobless_tree : snapshot :=
  {| dirs := dirs tree;
     yamls :=
       [ ("/repo/src/templates/base-generated-config.yaml", Loaded jobless_template) ] |}.

(** A repository in which [app1] got its entrypoint after the tag: the
    tree of [v1.0.0] has the application without it, the tree of
    [main] with it; the suite [smoke] is valid in both. *)
Definition old_tree : snapshot :=
  {| dirs :=
       [ ("/repo/src/examples", ["app1"]);
         ("/repo/src/examples/app1", ["main.py"]);
         ("/repo/src/test", ["smoke"]);
         ("/repo/src/test/smoke", ["test_entrypoint.sh"]) ];
     yamls :=
       [ ("/repo/src/templates/base-generated-config.yaml", Loaded base_template) ] |}.

Definition new_tree : snapshot :=
  {| dirs :=
       [ ("/repo/src/examples", ["app1"]);
         ("/repo/src/examples/app1", ["main.py"; "test_entrypoint.sh"]);
         ("/repo/src/test", ["smoke"]);
         ("/repo/src/test/smoke", ["test_entrypoint.sh"]) ];
     yamls :=
       [ ("/repo/src/templates/base-generated-config.yaml", Loaded base_template) ] |}.

Definition grown_repo : repository :=
  {| tags := ["v1.0.0"];
     revisions := [("v1.0.0", ("smoke", old_tree)); ("main", ("smoke", new_tree))] |}.

(** The tree of the scenario as another enumeration shows it: every
    directory has the entries it has in [tree], and the examples
    directory gives them in another order. *)
Definition shuffled_tree : snapshot :=
  {| dirs :=
       [ ("/repo/src/examples", ["app2"; "app1"; "app3"; "README.md"]);
         ("/repo/src/examples/app1", ["test_entrypoint.sh"; "main.py"]);
         ("/repo/src/examples/app2", ["test_entrypoint.sh"; "circle_config.yml"]);
         ("/repo/src/examples/app3", ["main.py"]);
         ("/repo/src/test", ["smoke"]);
         ("/repo/src/test/smoke", ["test_entrypoint.sh"]) ];
     yamls := yamls tree |}.

(** The same tree with the examples directory in the order of [tree]
    and the directories of two applications in another order. *)
Definition relisted_tree : snapshot :=
  {| dirs :=
       [ ("/repo/src/examples", ["app1"; "app2"; "app3"; "README.md"]);
         ("/repo/src/examples/app1", ["main.py"; "test_entrypoint.sh"]);
         ("/repo/src/examples/app2", ["circle_config.yml"; "test_entrypoint.sh"]);
         ("/repo/src/examples/app3", ["main.py"]);
         ("/repo/src/test", ["smoke"]);
         ("/repo/src/test/smoke", ["test_entrypoint.sh"]) ];
     yamls := yamls tree |}.

(** Two snapshots of the same files and directories: the same paths
    are directories, each with the same entries, and the same files
    with the same content. *)
Definition same_trees (w1 w2 : snapshot) : Prop :=
  (forall p, isdir w1 p = isdir w2 p) /\
  (forall p, Permutation (listdir w1 p) (listdir w2 p)) /\
  yamls w1 = yamls w2.

(** The same, and the examples directory is enumerated in one order. *)
Definition same_trees_in_order (w1 w2 : snapshot) : Prop :=
  same_trees w1 w2 /\ listdir w1 "/repo/src/examples" = listdir w2 "/repo/src/examples".

(** A repository whose checkout writes a line about the revision
    before [ls] writes the suite names, as [git checkout] does for a
    tag. *)
Definition chatty_repo : repository :=
  {| tags := ["v1.0.0"];
     revisions :=
       [("v1.0.0", ("HEAD is now at 1a2b3c4 Release 1.0.0" +:+ nl +:+ "smoke", tree))] |}.




End Sample.

(** ** The matrix as a function of the world

    What [list_test_executions] computes, written without the
    statement monad: the jobs of each pair of the product, and the
    world each checkout leaves for the next pair. *)

Module Matrix.
Section Matrix.

Context {E : OS}.

(** The element appended for an application, a suite path and a version. *)
Definition job (app : pathlike) (suite_path version : string) : Py.lit :=
  Py.LDict [("test-example", Gen.new_example app suite_path version)].

Definition suite_path (suite : string) : string :=
  PosixPath.join Gen.test_suites_path suite.

Definition suite_ok (w : world E) (suite : string) : bool :=
  os_path_exists E w (suite_path suite) && Gen.is_valid w (PStr (suite_path suite)).

Definition suite_jobs (w : world E) (app : pathlike) (version suite : string) : list Py.lit :=
  if suite_ok w suite then [job app (suite_path suite) version] else [].

Definition checkout_command (version : string) : string :=
  "git checkout " +:+ version +:+ " && ls " +:+ Gen.test_suites_path.

(** The stripped output of the checkout and listing, and the world after. *)
Definition checkout (w : world E) (version : string) : string * world E :=
  let '(out, w') := subprocess_getoutput E (checkout_command version) w in
  (PyStr.strip out, w').

(** The suite names a version yields. *)
Definition suites (w : world E) (version : string) : list string :=
  let output := (checkout w version).1 in
  if PyStr.contains "error:" output then [] else PyStr.split "010" output.

Definition pair_jobs (w : world E) (pair : pathlike * string) : list Py.lit :=
  if Gen.is_valid w pair.1 then
    flat_map (suite_jobs (checkout w pair.2).2 pair.1 pair.2) (suites w pair.2)
  else [].

Definition pair_world (w : world E) (pair : pathlike * string) : world E :=
  if Gen.is_valid w pair.1 then (checkout w pair.2).2 else w.

Fixpoint jobs (w : world E) (pairs : list (pathlike * string)) : list Py.lit :=
  match pairs with
  | [] => []
  | pv :: pairs' => pair_jobs w pv ++ jobs (pair_world w pv) pairs'
  end.

Fixpoint final_world (w : world E) (pairs : list (pathlike * string)) : world E :=
  match pairs with
  | [] => w
  | pv :: pairs' => final_world (pair_world w pv) pairs'
  end.

(** The world in which the run takes up each pair: the first in the
    world the run starts in, each next one in the world the pair
    before left. *)
Fixpoint worlds (w : world E) (pairs : list (pathlike * string)) : list (world E) :=
  match pairs with
  | [] => []
  | pv :: pairs' => w :: worlds (pair_world w pv) pairs'
  end.


(** The diagnostic printed for an application without the entrypoint. *)
Definition app_diagnostic (app : pathlike) : string :=
  "---" +:+ nl +:+ "App: " +:+ fspath app +:+ nl +:+ "will not be executed."
  +:+ nl +:+ "test_entrypoint.sh is missing." +:+ nl +:+ "---".

(** The fields of a job that name its application, version and suite. *)
Definition field (k : string) (j : Py.lit) : option Py.lit :=
  match Py.lit_get "test-example" j with
  | Some d => Py.lit_get k d
  | None => None
  end.

Definition field_is (k v : string) (j : Py.lit) : bool :=
  match field k j with
  | Some (Py.LVal (Py.VStr s)) => String.eqb s v
  | _ => false
  end.

(** The job is for the application at [app_path], the version and the
    suite at [spath]. *)
Definition job_for (app_path version spath : string) (j : Py.lit) : bool :=
  field_is "example-app-path" app_path j && field_is "bb-version" version j
  && field_is "test-suite-path" spath j.

(** The absolute path and the display name of an application. *)
Definition app_path (app : pathlike) : string := (Gen.app_and_name_from_path app).1.
Definition app_name (app : pathlike) : string := (Gen.app_and_name_from_path app).2.

End Matrix.
End Matrix.

(** ** What the specification words

    The version tag format, the display name of an application and
    the conditional-step guard structure, written from the
    specification and not from the program. *)

Module Spec.

(** A numeric component: the digit 0 alone, or digits that do not
    start with 0. *)
Definition is_component (s : string) : bool :=
  String.eqb s "0"
  || match s with
     | EmptyString => false
     | String c r => Regex.in_range "1" "9" c && PyStr.all_chars (Regex.in_range "0" "9") r
     end.

(** A tag of the form v<major>.<minor>.<patch>, or the tag latest. *)
Definition is_version_tag (t : string) : bool :=
  match t with
  | String c r =>
      Ascii.eqb c "v"
      && match PyStr.split "." r with
         | [a; b; p] => is_component a && is_component b && is_component p
         | _ => false
         end
  | EmptyString => false
  end
  || String.eqb t "latest".

(** The display name of an application: the base name of its absolute
    path, for the working directory [cwd]. *)
Definition display_name (cwd : string) (app : pathlike) : string :=
  PosixPath.basename (PosixPath.to_string (PosixPath.absolute cwd (to_Path app))).

(** The reference to the matrix parameter that names the application. *)
Definition matrix_parameter : string := "<< parameters.example-app-name >>".

(** The conditional-step guard structure
    [{when: {condition: {equal: [parameter, name]}, steps: steps}}]
    as objects of the store [h]; [g] refers to the outer mapping. *)
Definition guarded_block (h : Py.store) (g : Py.value) (name : string) (steps : Py.value) : Prop :=
  exists lw lc le lp,
    g = Py.VRef lw /\
    h !! lw = Some (Py.ODict [(Py.VStr "when", Py.VRef lc)]) /\
    h !! lc = Some (Py.ODict [(Py.VStr "condition", Py.VRef le); (Py.VStr "steps", steps)]) /\
    h !! le = Some (Py.ODict [(Py.VStr "equal", Py.VRef lp)]) /\
    h !! lp = Some (Py.OList [Py.VStr matrix_parameter; Py.VStr name]).

End Spec.

(** ** The store of the config extender

    Paths through the template, the frame a run leaves around the
    shared step list, and the store after [merge_with_custom_steps]
    written as a function. *)

Module Heap.

(** The value reached from [v] by the string keys [keys], through
    dictionaries only. *)
Fixpoint lookup_path (h : Py.store) (v : Py.value) (keys : list string) : option Py.value :=
  match keys with
  | [] => Some v
  | k :: keys' =>
      match v with
      | Py.VRef l =>
          match h !! l with
          | Some (Py.ODict es) =>
              match Py.entries_get k es with
              | Some x => lookup_path h x keys'
              | None => None
              end
          | _ => None
          end
      | _ => None
      end
  end.

Definition is_list (o : Py.object) : Prop :=
  match o with Py.OList _ => True | Py.ODict _ => False end.

(** From [h] to [h'] every object stays as it is, except that the list
    at [sl] may have become another list; new objects may have been
    added. *)
Definition frame (sl : nat) (h h' : Py.store) : Prop :=
  forall l o, h !! l = Some o ->
    if decide (l = sl) then is_list o -> exists items, h' !! l = Some (Py.OList items)
    else h' !! l = Some o.


End Heap.

Module Extender.
Section Extender.

Context {E : OS}.

Definition steps_path : list string := ["jobs"; "test-example"; "steps"].

(** The state with another store. *)
Definition with_heap (s : state) (h : Py.store) : state :=
  {| st_world := st_world s; st_heap := h; st_stdout := st_stdout s |}.

(** The four objects of a guarded block, as [wrap_with_condition]
    builds them from location [l] on; the block itself is the last. *)
Definition guard_objects (steps : Py.value) (app_name : string) (l : nat) : list Py.object :=
  [ Py.OList [Py.VStr "<< parameters.example-app-name >>"; Py.VStr app_name];
    Py.ODict [(Py.VStr "equal", Py.VRef l)];
    Py.ODict [(Py.VStr "condition", Py.VRef (l + 1)); (Py.VStr "steps", steps)];
    Py.ODict [(Py.VStr "when", Py.VRef (l + 2))] ].

(** [g] is a guarded block for [app_name] around [steps], built in [h]
    at locations from [n] on. *)
Definition guard_above (n : nat) (h : Py.store) (app_name : string) (steps g : Py.value) : Prop :=
  exists l, n <= l /\ g = Py.VRef (l + 3) /\
    forall i o, guard_objects steps app_name l !! i = Some o -> h !! (l + i) = Some o.

(** The items of the list at [sl]. *)
Definition items_at (h : Py.store) (sl : nat) : list Py.value :=
  match h !! sl with
  | Some (Py.OList items) => items
  | _ => []
  end.

(** The store after one block of [merge_with_custom_steps]: when
    [steps] is truthy its guard is built and [f] puts it into the list
    at [sl]. *)
Definition put_block (f : Py.value -> list Py.value -> list Py.value) (sl : nat)
    (app_name : string) (steps : Py.value) (h : Py.store) : Py.store :=
  if Py.truthy h steps then
    <[sl := Py.OList (f (Py.VRef (length h + 3)) (items_at h sl))]>
      (h ++ Extender.guard_objects steps app_name (length h))
  else h.

(** [custom_config.get(k, [])] for the entries [es], in a store of
    [n] objects. *)
Definition steps_or_default (k : string) (es : list (Py.value * Py.value)) (n : nat) : Py.value :=
  match Py.entries_get k es with
  | Some v => v
  | None => Py.VRef n
  end.

(** The store after [merge_with_custom_steps] for a custom
    configuration with the entries [es]. *)
Definition merged (sl : nat) (app_name : string) (es : list (Py.value * Py.value))
    (h : Py.store) : Py.store :=
  let before_steps := steps_or_default "before" es (length h) in
  let h1 := h ++ [Py.OList []] in
  let after_steps := steps_or_default "after" es (length h1) in
  let h2 := h1 ++ [Py.OList []] in
  put_block (fun g items => items ++ [g]) sl app_name after_steps
    (put_block (Py.list_insert_at 1) sl app_name before_steps h2).

(** What [append_custom_yamls] finds for an application: no override
    document, one that cannot be read, or the parsed document. *)
Inductive override :=
  | NoOverride
  | BadOverride (e : Py.exn)
  | Override (d : Py.document).

Definition find_override (w : world E) (app : pathlike) : override :=
  let app_path := Matrix.app_path app in
  if Gen.extends_config w app_path then
    let config_path := PosixPath.join app_path "circle_config.yml" in
    if os_path_isfile E w config_path then
      match yaml_safe_load E w config_path with
      | LoadOSError => BadOverride Py.OSError
      | LoadYAMLError => BadOverride Py.YAMLError
      | Loaded d => Override d
      end
    else NoOverride
  else NoOverride.

(** The object a value refers to is a dictionary. *)
Definition dict_entries (h : Py.store) (v : Py.value) : option (list (Py.value * Py.value)) :=
  match v with
  | Py.VRef l =>
      match h !! l with
      | Some (Py.ODict es) => Some es
      | _ => None
      end
  | _ => None
  end.

(** The store after one turn of the loop of [append_custom_yamls]. *)
Definition turn (sl : nat) (w : world E) (app : pathlike) (h : Py.store) : Py.store :=
  match find_override w app with
  | Override d =>
      let '(custom_config, h1) := Py.load_document d h in
      if Py.truthy h1 custom_config then
        match dict_entries h1 custom_config with
        | Some es => merged sl (Matrix.app_name app) es h1
        | None => h1
        end
      else h1
  | _ => h
  end.

(** The turn raises nothing: the document can be read, and when it is
    truthy it is a dictionary. *)
Definition turn_ok (w : world E) (app : pathlike) (h : Py.store) : bool :=
  match find_override w app with
  | NoOverride => true
  | BadOverride _ => false
  | Override d =>
      let '(custom_config, h1) := Py.load_document d h in
      negb (Py.truthy h1 custom_config)
      || match dict_entries h1 custom_config with Some _ => true | None => false end
  end.

(** The store after the whole loop. *)
Fixpoint extended (sl : nat) (w : world E) (apps : list pathlike) (h : Py.store) : Py.store :=
  match apps with
  | [] => h
  | app :: apps' => extended sl w apps' (turn sl w app h)
  end.

Fixpoint turns_ok (sl : nat) (w : world E) (apps : list pathlike) (h : Py.store) : bool :=
  match apps with
  | [] => true
  | app :: apps' => turn_ok w app h && turns_ok sl w apps' (turn sl w app h)
  end.

(** A reference of a document points into the document. *)
Definition boundb (n : nat) (v : Py.value) : bool :=
  match v with
  | Py.VRef l => l <? n
  | _ => true
  end.

Definition closed_object (n : nat) (o : Py.object) : bool :=
  match o with
  | Py.OList items => forallb (boundb n) items
  | Py.ODict es => forallb (fun e => boundb n e.2) es
  end.

(** The loader's documents are closed: every reference is to one of
    the document's own objects. *)
Definition wf_document (d : Py.document) : bool :=
  boundb (length (Py.doc_objects d)) (Py.doc_root d)
  && forallb (closed_object (length (Py.doc_objects d))) (Py.doc_objects d).

(** The entries of a document whose top level is a mapping. *)
Definition root_entries (d : Py.document) : option (list (Py.value * Py.value)) :=
  dict_entries (Py.doc_objects d) (Py.doc_root d).

(** The document has a truthy value under the key [k], for instance a
    non-empty sequence. *)
Definition doc_has (d : Py.document) (k : string) : bool :=
  match root_entries d with
  | Some es =>
      match Py.entries_get k es with
      | Some v => Py.truthy (Py.doc_objects d) v
      | None => false
      end
  | None => false
  end.

(** The application's override document has truthy steps under [k]. *)
Definition has_block (w : world E) (k : string) (app : pathlike) : bool :=
  match find_override w app with
  | Override d => doc_has d k
  | _ => false
  end.

(** The application has no override document, or a closed one that is
    a mapping or falsy (an empty file). *)
Definition app_ok (w : world E) (app : pathlike) : bool :=
  match find_override w app with
  | NoOverride => true
  | BadOverride _ => false
  | Override d =>
      wf_document d
      && (negb (Py.truthy (Py.doc_objects d) (Py.doc_root d))
          || match root_entries d with Some _ => true | None => false end)
  end.

(** The steps the application's override document holds under [k]. *)
Definition block_steps (w : world E) (k : string) (app : pathlike) : option Py.value :=
  match find_override w app with
  | Override d =>
      match root_entries d with
      | Some es => Py.entries_get k es
      | None => None
      end
  | _ => None
  end.

(** The document [d] stands in the store [h] from location [m] on, as
    the loader put it there. *)
Definition loaded_at (h : Py.store) (d : Py.document) (m : nat) : Prop :=
  forall i o, Py.doc_objects d !! i = Some o -> h !! (m + i) = Some (Py.shift_object m o).

(** [g] is the guarded block of the application around the steps its
    override document holds under [k]: the document stands in [h] from
    a location [m] on, not below [n], and the guard is built at
    locations from [n] on, around the steps as loaded there. *)
Definition guard_of (w : world E) (k : string) (n : nat) (h : Py.store)
    (g : Py.value) (app : pathlike) : Prop :=
  exists d m v, find_override w app = Override d /\ n <= m /\ loaded_at h d m /\
    block_steps w k app = Some v /\
    guard_above n h (Matrix.app_name app) (Py.shift_value m v) g.

(** [gs] is the one guarded block of [app] for the key [k] when the
    application has such a block, and nothing otherwise. *)
Definition guards (w : world E) (k : string) (n : nat) (h : Py.store) (app : pathlike)
    (gs : list Py.value) : Prop :=
  if has_block w k app then exists g, gs = [g] /\ guard_of w k n h g app
  else gs = [].

(** [g] is, in the store [h], the guarded block of the application for
    the key [k]: the application's override document is a mapping that
    stands in [h] as it was loaded, and [g] is the guard structure on
    the application's display name around the very value the loaded
    document holds under [k]. *)
Definition block_of (w : world E) (k : string) (h : Py.store) (g : Py.value)
    (app : pathlike) : Prop :=
  exists d es v m,
    find_override w app = Override d /\ root_entries d = Some es /\
    Py.entries_get k es = Some v /\ loaded_at h d m /\
    Spec.guarded_block h g (Spec.display_name (getcwd E) app) (Py.shift_value m v).

(** The line printed for an application without the override file. *)
Definition no_override_diagnostic (app : pathlike) : string :=
  "Software under " +:+ Matrix.app_path app +:+ " doesn't provide custom CircleCI steps.".

End Extender.
End Extender.

(** ** The assembly as a function of the world *)

Module Assembly.
Section Assembly.

Context {E : OS}.

(** The applications the top level discovers. *)
Definition examples (w : world E) : list pathlike :=
  List.filter (fun name => os_path_isdir E w (fspath name))
    (map (fun n => PPath (PosixPath.child (PosixPath.of_string Gen.examples_path) n))
       (os_listdir E w Gen.examples_path)).

(** The versions handed to the matrix builder. *)
Definition versions (w : world E) : list string :=
  PyStr.split "010" (PyStr.strip (Shell.grep_output Gen.regex (git_tag_l E w)))
  ++ [Gen.main_branch].

(** The matrix builder's output and the world its checkouts leave. *)
Definition executions (w : world E) : list Py.lit :=
  Matrix.jobs w (list_prod (examples w) (versions w)).



End Assembly.
End Assembly.

(** ** Runs from the same state *)

Module Replay.
Section Replay.

Context {E : OS}.

(** [R] relates two worlds that hold the same filesystem and
    version-control state: the same paths are directories and files,
    every directory has the same entries, the files load alike, the
    tags are the same, and a command prints the same in both and takes
    related worlds to related worlds, as a write does.  The order in
    which a directory is enumerated is no part of the state: related
    worlds may list the same entries in different orders. *)
Record same_state (R : world E -> world E -> Prop) : Prop := mkSame {
  same_isdir : forall w1 w2 p, R w1 w2 -> os_path_isdir E w1 p = os_path_isdir E w2 p;
  same_isfile : forall w1 w2 p, R w1 w2 -> os_path_isfile E w1 p = os_path_isfile E w2 p;
  same_exists : forall w1 w2 p, R w1 w2 -> os_path_exists E w1 p = os_path_exists E w2 p;
  same_entries : forall w1 w2 p, R w1 w2 -> Permutation (os_listdir E w1 p) (os_listdir E w2 p);
  same_tags : forall w1 w2, R w1 w2 -> git_tag_l E w1 = git_tag_l E w2;
  same_load : forall w1 w2 p, R w1 w2 -> yaml_safe_load E w1 p = yaml_safe_load E w2 p;
  same_output : forall w1 w2 cmd, R w1 w2 ->
    (subprocess_getoutput E cmd w1).1 = (subprocess_getoutput E cmd w2).1;
  same_next : forall w1 w2 cmd, R w1 w2 ->
    R (subprocess_getoutput E cmd w1).2 (subprocess_getoutput E cmd w2).2;
  same_write : forall w1 w2 p text, R w1 w2 ->
    R (write_file E p text w1) (write_file E p text w2);
}.

(** Related worlds enumerate the examples directory in the same
    order. *)
Definition same_order (R : world E -> world E -> Prop) : Prop :=
  forall w1 w2, R w1 w2 ->
    os_listdir E w1 Gen.examples_path = os_listdir E w2 Gen.examples_path.

(** Two interpreter states over related worlds. *)
Definition alike (R : world E -> world E -> Prop) (s1 s2 : state) : Prop :=
  R (st_world s1) (st_world s2) /\ st_heap s1 = st_heap s2 /\ st_stdout s1 = st_stdout s2.

(** Two runs end the same way: the same exception, or the same value
    in states that are alike. *)
Definition same_outcome {A} (R : world E -> world E -> Prop) (o1 o2 : outcome A) : Prop :=
  match o1, o2 with
  | Ok a s, Ok b t => a = b /\ alike R s t
  | Raise e1, Raise e2 => e1 = e2
  | _, _ => False
  end.

(** A statement that cannot tell related worlds apart. *)
Definition respects {A} (R : world E -> world E -> Prop) (m : M A) : Prop :=
  forall s1 s2, alike R s1 s2 -> same_outcome R (m s1) (m s2).

End Replay.
End Replay.

(** * Properties

    ** The matrix builder returns the matrix *)

Section MatrixFacts.

Context {E : OS}.

Lemma moved_moved s w1 m1 w2 m2 :
  moved (moved s w1 m1) w2 m2 = moved s w2 (m1 ++ m2).
Proof. unfold moved; simpl. by rewrite <- app_assoc. Qed.

Lemma moved_id s : moved s (st_world s) [] = s.
Proof. destruct s. unfold moved; simpl. by rewrite app_nil_r. Qed.

Lemma add_suite_spec app version suite acc s :
  exists msgs,
    Gen.add_suite app version suite acc s
    = Ok (acc ++ Matrix.suite_jobs (st_world s) app version suite) (moved s (st_world s) msgs).
Proof.
  unfold Gen.add_suite, Matrix.suite_jobs, Matrix.suite_ok, Matrix.suite_path.
  unfold bind, observe. rewrite <- negb_andb.
  destruct (os_path_exists E (st_world s) _ && _); simpl.
  - exists []. by rewrite moved_id.
  - eexists [_]. unfold print, ret; simpl. by rewrite app_nil_r.
Qed.

Lemma add_suites_spec app version suites acc s :
  exists msgs,
    for_each suites (Gen.add_suite app version) acc s
    = Ok (acc ++ flat_map (Matrix.suite_jobs (st_world s) app version) suites)
         (moved s (st_world s) msgs).
Proof.
  revert acc s. induction suites as [|suite suites IH]; intros acc s; simpl.
  - exists []. by rewrite app_nil_r, moved_id.
  - unfold bind. destruct (add_suite_spec app version suite acc s) as [m1 ->].
    destruct (IH (acc ++ Matrix.suite_jobs (st_world s) app version suite)
                 (moved s (st_world s) m1)) as [m2 ->].
    exists (m1 ++ m2). simpl. by rewrite moved_moved, <- app_assoc.
Qed.

Lemma list_test_suites_spec version s :
  exists msgs,
    Gen.list_test_suites_for_version version s
    = Ok (Matrix.suites (st_world s) version)
         (moved s (Matrix.checkout (st_world s) version).2 msgs).
Proof.
  unfold Gen.list_test_suites_for_version, Matrix.suites, Matrix.checkout,
    Matrix.checkout_command, bind, run_world.
  destruct (subprocess_getoutput E _ (st_world s)) as [out w'] eqn:Hout; simpl.
  destruct (PyStr.contains "error:" (PyStr.strip out)); simpl.
  - eexists [_]. reflexivity.
  - exists []. unfold ret, moved; simpl. by rewrite app_nil_r.
Qed.

Lemma add_app_version_spec pv acc s :
  exists msgs,
    Gen.add_app_version pv acc s
    = Ok (acc ++ Matrix.pair_jobs (st_world s) pv)
         (moved s (Matrix.pair_world (st_world s) pv) msgs).
Proof.
  destruct pv as [app version].
  unfold Gen.add_app_version, Matrix.pair_jobs, Matrix.pair_world, bind, observe; simpl.
  destruct (Gen.is_valid (st_world s) app); simpl.
  - destruct (list_test_suites_spec version s) as [m1 ->].
    destruct (add_suites_spec app version (Matrix.suites (st_world s) version) acc
                (moved s (Matrix.checkout (st_world s) version).2 m1)) as [m2 ->].
    exists (m1 ++ m2). simpl. by rewrite moved_moved.
  - eexists [_]. unfold print, ret; simpl. by rewrite app_nil_r.
Qed.

Lemma add_pairs_spec pairs acc s :
  exists msgs,
    for_each pairs Gen.add_app_version acc s
    = Ok (acc ++ Matrix.jobs (st_world s) pairs)
         (moved s (Matrix.final_world (st_world s) pairs) msgs).
Proof.
  revert acc s. induction pairs as [|pv pairs IH]; intros acc s; simpl.
  - exists []. by rewrite app_nil_r, moved_id.
  - unfold bind. destruct (add_app_version_spec pv acc s) as [m1 ->].
    destruct (IH (acc ++ Matrix.pair_jobs (st_world s) pv)
                 (moved s (Matrix.pair_world (st_world s) pv) m1)) as [m2 ->].
    exists (m1 ++ m2). simpl. by rewrite moved_moved, <- app_assoc.
Qed.

(** [list_test_executions] returns the matrix of the product. *)
Lemma list_test_executions_spec example_apps versions s :
  exists msgs,
    Gen.list_test_executions example_apps versions s
    = Ok (Matrix.jobs (st_world s) (list_prod example_apps versions))
         (moved s (Matrix.final_world (st_world s) (list_prod example_apps versions)) msgs).
Proof. apply (add_pairs_spec _ []). Qed.

End MatrixFacts.

(** ** Where the jobs of the matrix come from *)

Section JobFacts.

Context {E : OS}.

Lemma checkout_snd w version :
  (Matrix.checkout w version).2
  = (subprocess_getoutput E (Matrix.checkout_command version) w).2.
Proof.
  unfold Matrix.checkout. by destruct (subprocess_getoutput E _ w).
Qed.

Lemma job_for_job P V SP app sp v :
  Matrix.job_for P V SP (Matrix.job app sp v)
  = String.eqb (Matrix.app_path app) P && String.eqb v V && String.eqb sp SP.
Proof. reflexivity. Qed.

Lemma field_is_app_path_job P app sp v :
  Matrix.field_is "example-app-path" P (Matrix.job app sp v)
  = String.eqb (Matrix.app_path app) P.
Proof. reflexivity. Qed.

Lemma worlds_length w pairs : length (Matrix.worlds w pairs) = length pairs.
Proof.
  revert w. induction pairs as [|pv pairs IH]; intros w; simpl; [done|]. by rewrite IH.
Qed.

(** Every job of the matrix comes from the pair at some position of
    the product: its application was valid in the world the run had
    when it took that pair up, and its suite was listed by the pair's
    checkout and valid in the world that checkout left. *)
Lemma jobs_origin w pairs j :
  In j (Matrix.jobs w pairs) ->
  exists i app version suite wi,
    pairs !! i = Some (app, version) /\
    Matrix.worlds w pairs !! i = Some wi /\
    Gen.is_valid wi app = true /\
    In suite (Matrix.suites wi version) /\
    Matrix.suite_ok (Matrix.checkout wi version).2 suite = true /\
    j = Matrix.job app (Matrix.suite_path suite) version.
Proof.
  revert w. induction pairs as [|[app version] pairs IH]; intros w Hj; simpl in Hj.
  - destruct Hj.
  - apply in_app_or in Hj as [Hj|Hj].
    + unfold Matrix.pair_jobs in Hj; simpl in Hj.
      destruct (Gen.is_valid w app) eqn:Hv; [|destruct Hj].
      apply in_flat_map in Hj as (suite & Hin & Hj).
      unfold Matrix.suite_jobs in Hj.
      destruct (Matrix.suite_ok _ suite) eqn:Hok; [|destruct Hj].
      destruct Hj as [<-|[]].
      by exists 0, app, version, suite, w.
    + destruct (IH _ Hj) as (i & a & v & su & wi & Hi & Hwi & Hrest).
      by exists (S i), a, v, su, wi.
Qed.

End JobFacts.

(** ** The application is judged in the tree of the checkout before

    [list_test_executions] calls [is_valid(app)] before it checks the
    pair's version out, so an application is judged in the working
    tree the previous checkout left (the tree the script started in,
    for the first pair).  The repository [Sample.grown_repo] shows
    both effects: [app1] has the entrypoint on the branch and lacks it
    at the tag [v1.0.0]; the suite [smoke] is valid at both. *)

(** C1 (the code departs from it): [app1] is valid on [main] and the
    checkout of [main] lists the valid suite [smoke], yet the matrix,
    built from a checkout of [main] for the versions [v1.0.0] and
    [main], holds no job for (app1, main, smoke): when the pair is
    taken up the tree is the tag's, where [app1] has no entrypoint. *)
Theorem valid_triple_is_left_out_after_a_checkout :
  let A := PStr "/repo/src/examples/app1" in
  let s := Sample.start Sample.grown_repo Sample.new_tree in
  @Gen.is_valid (Sample.os Sample.grown_repo) Sample.new_tree A = true /\
  @Matrix.checkout (Sample.os Sample.grown_repo) Sample.old_tree "main"
  = ("smoke", Sample.new_tree) /\
  @Matrix.suite_ok (Sample.os Sample.grown_repo) Sample.new_tree "smoke" = true /\
  exists out s',
    Gen.list_test_executions [A] ["v1.0.0"; "main"] s = Ok out s' /\
    List.filter (Matrix.job_for "/repo/src/examples/app1" "main" "/repo/src/test/smoke") out
    = [] /\
    st_stdout s' = [Matrix.app_diagnostic A].
Proof.
  repeat split. eexists _, _. repeat split.
Qed.

(** C2 (the code departs from it): at the tag [v1.0.0] the directory
    of [app1] lacks the entrypoint, yet the same run emits a job that
    references [app1] for that version: the application was judged in
    the tree of [main], before the tag was checked out. *)
Theorem application_without_entrypoint_gets_a_job :
  let A := PStr "/repo/src/examples/app1" in
  let s := Sample.start Sample.grown_repo Sample.new_tree in
  @Gen.is_valid (Sample.os Sample.grown_repo) Sample.old_tree A = false /\
  @Matrix.checkout (Sample.os Sample.grown_repo) Sample.new_tree "v1.0.0"
  = ("smoke", Sample.old_tree) /\
  exists s',
    Gen.list_test_executions [A] ["v1.0.0"; "main"] s
    = Ok [Py.LDict [("test-example",
            @Gen.new_example (Sample.os Sample.grown_repo) A "/repo/src/test/smoke"
              "v1.0.0")]] s' /\
    Matrix.field_is "example-app-path" "/repo/src/examples/app1"
      (Py.LDict [("test-example",
         @Gen.new_example (Sample.os Sample.grown_repo) A "/repo/src/test/smoke" "v1.0.0")])
    = true /\
    Matrix.field_is "bb-version" "v1.0.0"
      (Py.LDict [("test-example",
         @Gen.new_example (Sample.os Sample.grown_repo) A "/repo/src/test/smoke" "v1.0.0")])
    = true.
Proof.
  repeat split. eexists. repeat split.
Qed.

Lemma for_each_cons {E : OS} {A B} (x : A) (xs : list A) (body : A -> B -> M B) acc s :
  for_each (x :: xs) body acc s
  = match body x acc s with
    | Ok acc' s' => for_each xs body acc' s'
    | Raise e => Raise e
    end.
Proof. reflexivity. Qed.

(** The diagnostic printed when a checkout fails. *)
Definition checkout_diagnostic (version : string) : string :=
  "Failed to checkout or list test suites for version: " +:+ version.

(** C7: when the output of the checkout of a version holds the error
    marker, the suite listing returns the empty sequence and prints
    the diagnostic; the turn of a valid application for that version
    adds no job, and the run goes on with the remaining pairs and ends
    without an exception. *)
Theorem checkout_failure_yields_no_suites {E : OS} (app : pathlike) (version : string)
    (pairs : list (pathlike * string)) (acc : list Py.lit) (s : state) :
  PyStr.contains "error:" (Matrix.checkout (st_world s) version).1 = true ->
  Gen.is_valid (st_world s) app = true ->
  let s' := moved s (Matrix.checkout (st_world s) version).2 [checkout_diagnostic version] in
  Gen.list_test_suites_for_version version s = Ok [] s' /\
  Gen.add_app_version (app, version) acc s = Ok acc s' /\
  for_each ((app, version) :: pairs) Gen.add_app_version acc s
  = for_each pairs Gen.add_app_version acc s' /\
  exists out s'', for_each ((app, version) :: pairs) Gen.add_app_version acc s = Ok out s''.
Proof.
  intros Herr Hvalid s'.
  assert (Hlist : Gen.list_test_suites_for_version version s = Ok [] s').
  { unfold Gen.list_test_suites_for_version, bind, run_world. subst s'.
    unfold Matrix.checkout, Matrix.checkout_command in *.
    destruct (subprocess_getoutput E _ (st_world s)) as [out w'].
    simpl in *. rewrite Herr. reflexivity. }
  assert (Hturn : Gen.add_app_version (app, version) acc s = Ok acc s').
  { unfold Gen.add_app_version, bind, observe. rewrite Hvalid; simpl.
    rewrite Hlist. reflexivity. }
  split_and!; [done | done | |].
  - by rewrite for_each_cons, Hturn.
  - destruct (add_pairs_spec ((app, version) :: pairs) acc s) as [msgs ->]. eauto.
Qed.

Lemma checkout_failure_yields_no_suites_witness :
  let s := Sample.start Sample.repo Sample.tree in
  let s' := moved s Sample.tree [checkout_diagnostic "v9.9.9"] in
  @Gen.list_test_suites_for_version (Sample.os Sample.repo) "v9.9.9" s = Ok [] s' /\
  Gen.add_app_version (PStr "/repo/src/examples/app1", "v9.9.9") [] s = Ok [] s' /\
  for_each [(PStr "/repo/src/examples/app1", "v9.9.9"); (PStr "/repo/src/examples/app1", "main")]
    Gen.add_app_version [] s
  = for_each [(PStr "/repo/src/examples/app1", "main")] Gen.add_app_version [] s' /\
  exists out s'',
    for_each [(PStr "/repo/src/examples/app1", "v9.9.9"); (PStr "/repo/src/examples/app1", "main")]
      Gen.add_app_version [] s = Ok out s''.
Proof.
  apply (@checkout_failure_yields_no_suites (Sample.os Sample.repo)
           (PStr "/repo/src/examples/app1") "v9.9.9"
           [(PStr "/repo/src/examples/app1", "main")] []
           (Sample.start Sample.repo Sample.tree)); reflexivity.
Defined.

(** ** An empty listing *)

Lemma append_String c (s t : string) : String c s +:+ t = String c (s +:+ t).
Proof. reflexivity. Qed.

Lemma append_empty_l (t : string) : EmptyString +:+ t = t.
Proof. reflexivity. Qed.

Lemma append_empty_r (s : string) : s +:+ EmptyString = s.
Proof.
  induction s as [|c s IH]; [done|]. by rewrite append_String, IH.
Qed.

Lemma append_assoc (a b c : string) : a +:+ b +:+ c = (a +:+ b) +:+ c.
Proof.
  induction a as [|x a IH]; [done|]. by rewrite !append_String, IH.
Qed.







(** ** The config extender on the store *)

Lemma lit_ind' (P : Py.lit -> Prop) :
  (forall v, P (Py.LVal v)) ->
  (forall items, Forall P items -> P (Py.LList items)) ->
  (forall es, Forall (fun e => P e.2) es -> P (Py.LDict es)) ->
  forall t, P t.
Proof.
  intros HV HL HD. fix IH 1. intros [v|items|es].
  - apply HV.
  - apply HL. induction items as [|t items IHitems]; constructor; [apply IH | exact IHitems].
  - apply HD. induction es as [|[k t] es IHes]; constructor; [apply IH | exact IHes].
Qed.

(** Evaluating a display only adds objects at the end of the store. *)
Lemma alloc_extends t : forall h, exists new, (Py.alloc t h).2 = h ++ new.
Proof.
  induction t as [v|items IH|es IH] using lit_ind'; intros h; simpl.
  - exists []. by rewrite app_nil_r.
  - assert (Hgo : forall h, exists new vs,
      (fix go (ts : list Py.lit) (h : Py.store) {struct ts} : list Py.value * Py.store :=
         match ts with
         | [] => ([], h)
         | t' :: ts' =>
             let '(v, h1) := Py.alloc t' h in
             let '(vs, h2) := go ts' h1 in (v :: vs, h2)
         end) items h = (vs, h ++ new)).
    { clear h. induction IH as [|t items Ht _ IHitems]; intros h.
      - exists [], []. by rewrite app_nil_r.
      - destruct (Ht h) as [n1 H1]. destruct (Py.alloc t h) as [v h1]. simpl in H1. subst h1.
        destruct (IHitems (h ++ n1)) as (n2 & vs & ->).
        exists (n1 ++ n2), (v :: vs). by rewrite app_assoc. }
    destruct (Hgo h) as (new & vs & ->). simpl.
    exists (new ++ [Py.OList vs]). by rewrite app_assoc.
  - assert (Hgo : forall h, exists new vs,
      (fix go (ts : list (string * Py.lit)) (h : Py.store) {struct ts}
         : list (Py.value * Py.value) * Py.store :=
         match ts with
         | [] => ([], h)
         | (k, t') :: ts' =>
             let '(v, h1) := Py.alloc t' h in
             let '(es, h2) := go ts' h1 in ((Py.VStr k, v) :: es, h2)
         end) es h = (vs, h ++ new)).
    { clear h. induction IH as [|[k t] es Ht _ IHes]; intros h.
      - exists [], []. by rewrite app_nil_r.
      - simpl in Ht. destruct (Ht h) as [n1 H1].
        destruct (Py.alloc t h) as [v h1]. simpl in H1. subst h1.
        destruct (IHes (h ++ n1)) as (n2 & vs & ->).
        exists (n1 ++ n2), ((Py.VStr k, v) :: vs). by rewrite app_assoc. }
    destruct (Hgo h) as (new & vs & ->). simpl.
    exists (new ++ [Py.ODict vs]). by rewrite app_assoc.
Qed.

Lemma frame_refl sl h : Heap.frame sl h h.
Proof.
  intros l o Hl. case_decide; [|done]. intros Ho. destruct o; [eauto | done].
Qed.

Lemma frame_trans sl h1 h2 h3 :
  Heap.frame sl h1 h2 -> Heap.frame sl h2 h3 -> Heap.frame sl h1 h3.
Proof.
  intros H12 H23 l o Hl. specialize (H12 l o Hl). case_decide as Hd.
  - intros Ho. destruct (H12 Ho) as [items Hi]. specialize (H23 l _ Hi).
    rewrite decide_True in H23 by done. by apply H23.
  - specialize (H23 l o H12). by rewrite decide_False in H23.
Qed.

Lemma frame_app sl h new : Heap.frame sl h (h ++ new).
Proof.
  intros l o Hl. case_decide.
  - intros Ho. destruct o; [|done]. exists items. by apply lookup_app_l_Some.
  - by apply lookup_app_l_Some.
Qed.

Lemma frame_update sl h items :
  Heap.frame sl h (<[sl := Py.OList items]> h).
Proof.
  intros l o Hl. case_decide as Hd.
  - subst l. intros _. exists items. apply list_lookup_insert_eq. by eapply lookup_lt_Some.
  - by rewrite list_lookup_insert_ne.
Qed.

(** A path through dictionaries reads the same in a framed store, as
    long as the list at [sl] was a list. *)
Lemma lookup_path_frame sl h h' items v keys x :
  Heap.frame sl h h' -> h !! sl = Some (Py.OList items) ->
  Heap.lookup_path h v keys = Some x -> Heap.lookup_path h' v keys = Some x.
Proof.
  intros Hf Hsl. revert v. induction keys as [|k keys IH]; intros v Hv; simpl in *; [done|].
  destruct v as [| | | | |l]; try done.
  destruct (h !! l) as [[its|es]|] eqn:Hl; try done.
  specialize (Hf l _ Hl). case_decide as Hd.
  - subst l. rewrite Hsl in Hl. done.
  - rewrite Hf. destruct (Py.entries_get k es); [by apply IH | done].
Qed.

Section ExtenderFacts.

Context {E : OS}.

Lemma alloc_wrap steps app_name (h : Py.store) :
  Py.alloc (Gen.wrap_with_condition steps app_name) h
  = (Py.VRef (length h + 3), h ++ Extender.guard_objects steps app_name (length h)).
Proof.
  unfold Gen.wrap_with_condition, Extender.guard_objects. cbn.
  rewrite !length_app. cbn. rewrite <- !app_assoc. cbn.
  replace (length h + 1 + 1 + 1) with (length h + 3) by lia.
  by replace (length h + 1 + 1) with (length h + 2) by lia.
Qed.

(** The objects [wrap_with_condition] builds are the guard structure
    of the specification. *)
Lemma guard_above_block n h app_name steps g :
  Extender.guard_above n h app_name steps g ->
  Spec.guarded_block h g app_name steps.
Proof.
  intros (l & _ & -> & Hobj).
  pose proof (Hobj 0 _ eq_refl) as H0. pose proof (Hobj 1 _ eq_refl) as H1.
  pose proof (Hobj 2 _ eq_refl) as H2. pose proof (Hobj 3 _ eq_refl) as H3.
  rewrite Nat.add_0_r in H0.
  exists (l + 3), (l + 2), (l + 1), l. by split_and!.
Qed.

Lemma guard_above_frame n sl h h' app_name steps g :
  sl < n -> Heap.frame sl h h' ->
  Extender.guard_above n h app_name steps g -> Extender.guard_above n h' app_name steps g.
Proof.
  intros Hsl Hf (l & Hl & -> & Hobj). exists l. split_and!; [done | done |].
  intros i o Hi. specialize (Hf _ _ (Hobj i o Hi)).
  rewrite decide_False in Hf by lia. done.
Qed.

Lemma guard_above_fresh (h : Py.store) app_name steps :
  Extender.guard_above (length h) (h ++ Extender.guard_objects steps app_name (length h))
    app_name steps (Py.VRef (length h + 3)).
Proof.
  exists (length h). split_and!; [done | done |].
  intros i o Hi. rewrite lookup_app_r by lia.
  by replace (length h + i - length h) with i by lia.
Qed.

End ExtenderFacts.

Section Phase.

Context {E : OS}.

Lemma with_heap_with_heap (s : state) h1 h2 :
  Extender.with_heap (Extender.with_heap s h1) h2 = Extender.with_heap s h2.
Proof. reflexivity. Qed.

Lemma with_heap_id (s : state) : Extender.with_heap s (st_heap s) = s.
Proof. by destruct s. Qed.

Lemma shared_steps_ok cc (s : state) v :
  Heap.lookup_path (st_heap s) cc Extender.steps_path = Some v ->
  Gen.shared_steps cc s = Ok v s.
Proof.
  unfold Gen.shared_steps, Extender.steps_path, bind, PyOps.getitem. simpl.
  intros H.
  repeat match type of H with
  | match ?x with _ => _ end = _ => destruct x eqn:?; try discriminate H
  end.
  by inversion H.
Qed.

Lemma list_insert_ok sl i g (s : state) items :
  st_heap s !! sl = Some (Py.OList items) ->
  PyOps.list_insert (Py.VRef sl) i g s
  = Ok tt (Extender.with_heap s (<[sl := Py.OList (Py.list_insert_at i g items)]> (st_heap s))).
Proof. intros H. unfold PyOps.list_insert. by rewrite H. Qed.

Lemma list_append_ok sl g (s : state) items :
  st_heap s !! sl = Some (Py.OList items) ->
  PyOps.list_append (Py.VRef sl) g s
  = Ok tt (Extender.with_heap s (<[sl := Py.OList (items ++ [g])]> (st_heap s))).
Proof. intros H. unfold PyOps.list_append. by rewrite H. Qed.

(** One block of [merge_with_custom_steps]: when the steps are truthy
    the guard is built and put into the shared list by [op]. *)
Lemma block_spec {A} (op : Py.value -> Py.value -> M unit)
    (f : Py.value -> list Py.value -> list Py.value)
    (v : Py.value) (app_name : string) (cc : Py.value) (k : unit -> M A)
    (s : state) (sl : nat) (items : list Py.value) :
  (forall g (s' : state) its, st_heap s' !! sl = Some (Py.OList its) ->
     op (Py.VRef sl) g s'
     = Ok tt (Extender.with_heap s' (<[sl := Py.OList (f g its)]> (st_heap s')))) ->
  Heap.lookup_path (st_heap s) cc Extender.steps_path = Some (Py.VRef sl) ->
  st_heap s !! sl = Some (Py.OList items) ->
  bind (PyOps.truth v) (fun has =>
    bind (if has then
            bind (PyOps.new (Gen.wrap_with_condition v app_name)) (fun g =>
              bind (Gen.shared_steps cc) (fun steps => op steps g))
          else ret tt) k) s
  = k tt (Extender.with_heap s
       (if Py.truthy (st_heap s) v then
          <[sl := Py.OList (f (Py.VRef (length (st_heap s) + 3)) items)]>
            (st_heap s ++ Extender.guard_objects v app_name (length (st_heap s)))
        else st_heap s)).
Proof.
  intros Hop Hpath Hsl. unfold bind at 1, PyOps.truth, read_heap.
  destruct (Py.truthy (st_heap s) v).
  - unfold bind at 1. unfold bind at 1. unfold PyOps.new, run_heap.
    rewrite alloc_wrap. unfold bind at 1.
    set (s1 := mkState _ _ _).
    assert (Hsl1 : st_heap s1 !! sl = Some (Py.OList items)).
    { simpl. by apply lookup_app_l_Some. }
    rewrite (shared_steps_ok cc s1 (Py.VRef sl)).
    + rewrite (Hop _ s1 items Hsl1). reflexivity.
    + eapply lookup_path_frame; [| exact Hsl | exact Hpath]. apply frame_app.
  - unfold bind at 1, ret. by rewrite with_heap_id.
Qed.

End Phase.

Section MergeFacts.

Context {E : OS}.

Lemma dict_get_ok c k (s : state) es :
  st_heap s !! c = Some (Py.ODict es) ->
  PyOps.dict_get (Py.VRef c) k (Py.LList []) s
  = Ok (Extender.steps_or_default k es (length (st_heap s)))
       (Extender.with_heap s (st_heap s ++ [Py.OList []])).
Proof.
  intros H. unfold PyOps.dict_get. rewrite H.
  unfold bind, PyOps.new, run_heap, Extender.steps_or_default. simpl.
  by destruct (Py.entries_get k es).
Qed.

Lemma items_at_eq (h : Py.store) sl items :
  h !! sl = Some (Py.OList items) -> Extender.items_at h sl = items.
Proof. intros H. unfold Extender.items_at. by rewrite H. Qed.

Lemma put_block_frame f sl app_name steps (h : Py.store) :
  Heap.frame sl h (Extender.put_block f sl app_name steps h).
Proof.
  unfold Extender.put_block. destruct (Py.truthy h steps); [|apply frame_refl].
  eapply frame_trans; [apply frame_app | apply frame_update].
Qed.

(** [merge_with_custom_steps] leaves the store [merged]. *)
Lemma merge_spec cc c app_name (s : state) sl items es :
  Heap.lookup_path (st_heap s) cc Extender.steps_path = Some (Py.VRef sl) ->
  st_heap s !! sl = Some (Py.OList items) ->
  st_heap s !! c = Some (Py.ODict es) ->
  Gen.merge_with_custom_steps cc (Py.VRef c) app_name s
  = Ok cc (Extender.with_heap s (Extender.merged sl app_name es (st_heap s))).
Proof.
  intros Hpath Hsl Hc. unfold Gen.merge_with_custom_steps.
  unfold bind at 1. rewrite (dict_get_ok c "before" s es Hc).
  unfold bind at 1. rewrite (dict_get_ok c "after" _ es); [|by apply lookup_app_l_Some].
  set (s2 := Extender.with_heap (Extender.with_heap s _) _).
  assert (Hf2 : Heap.frame sl (st_heap s) (st_heap s2)).
  { eapply frame_trans; apply frame_app. }
  assert (Hsl2 : st_heap s2 !! sl = Some (Py.OList items)).
  { simpl. by do 2 apply lookup_app_l_Some. }
  etransitivity.
  { apply (block_spec (fun st g => PyOps.list_insert st 1 g) (Py.list_insert_at 1)
             _ app_name cc _ s2 sl items).
    - intros g s' its Hs'. by apply list_insert_ok.
    - eapply lookup_path_frame; [exact Hf2 | exact Hsl | exact Hpath].
    - exact Hsl2. }
  set (h3 := if Py.truthy _ _ then _ else _).
  assert (Hh3 : h3 = Extender.put_block (Py.list_insert_at 1) sl app_name
                      (Extender.steps_or_default "before" es (length (st_heap s))) (st_heap s2)).
  { unfold Extender.put_block. subst h3. by rewrite (items_at_eq _ _ _ Hsl2). }
  assert (Hf3 : Heap.frame sl (st_heap s2) h3) by (rewrite Hh3; apply put_block_frame).
  assert (Hsl3 : exists items3, h3 !! sl = Some (Py.OList items3)).
  { specialize (Hf3 sl _ Hsl2). rewrite decide_True in Hf3 by done. by apply Hf3. }
  destruct Hsl3 as [items3' Hsl3].
  etransitivity.
  { apply (block_spec (fun st g => PyOps.list_append st g) (fun g its => its ++ [g])
             _ app_name cc _ (Extender.with_heap s2 h3) sl items3').
    - intros g s' its Hs'. by apply list_append_ok.
    - change (st_heap (Extender.with_heap s2 h3)) with h3.
      eapply lookup_path_frame; [exact Hf3 | exact Hsl2 |].
      eapply lookup_path_frame; [exact Hf2 | exact Hsl | exact Hpath].
    - exact Hsl3. }
  unfold ret. f_equal.
  change (Extender.merged sl app_name es (st_heap s)) with
    (Extender.put_block (fun g items => items ++ [g]) sl app_name
       (Extender.steps_or_default "after" es (length (st_heap s ++ [Py.OList []])))
       (Extender.put_block (Py.list_insert_at 1) sl app_name
          (Extender.steps_or_default "before" es (length (st_heap s))) (st_heap s2))).
  rewrite <- Hh3. unfold Extender.put_block. rewrite (items_at_eq _ _ _ Hsl3). reflexivity.
Qed.

End MergeFacts.

Section TurnFacts.

Context {E : OS}.

Lemma merged_frame sl app_name es (h : Py.store) :
  Heap.frame sl h (Extender.merged sl app_name es h).
Proof.
  unfold Extender.merged.
  eapply frame_trans; [|apply put_block_frame].
  eapply frame_trans; [|apply put_block_frame].
  eapply frame_trans; apply frame_app.
Qed.

Lemma turn_frame sl w app (h : Py.store) : Heap.frame sl h (Extender.turn sl w app h).
Proof.
  unfold Extender.turn. destruct (Extender.find_override w app); try apply frame_refl.
  unfold Py.load_document.
  destruct (Py.truthy _ _); [|apply frame_app].
  destruct (Extender.dict_entries _ _); [|apply frame_app].
  eapply frame_trans; [apply frame_app | apply merged_frame].
Qed.

Lemma frame_list sl (h h' : Py.store) items :
  Heap.frame sl h h' -> h !! sl = Some (Py.OList items) ->
  exists items', h' !! sl = Some (Py.OList items').
Proof.
  intros Hf Hsl. specialize (Hf sl _ Hsl). rewrite decide_True in Hf by done. by apply Hf.
Qed.

(** One turn of the loop leaves the store [turn]. *)
Lemma turn_spec sl app cc (s : state) items :
  Heap.lookup_path (st_heap s) cc Extender.steps_path = Some (Py.VRef sl) ->
  st_heap s !! sl = Some (Py.OList items) ->
  Extender.turn_ok (st_world s) app (st_heap s) = true ->
  exists msgs,
    Gen.append_custom_yaml app cc s
    = Ok cc {| st_world := st_world s;
               st_heap := Extender.turn sl (st_world s) app (st_heap s);
               st_stdout := st_stdout s ++ msgs |}.
Proof.
  intros Hpath Hsl Hok.
  unfold Gen.append_custom_yaml, Extender.turn, Extender.turn_ok, Extender.find_override in *.
  change (Gen.app_and_name_from_path app) with (Matrix.app_path app, Matrix.app_name app).
  cbv beta iota. unfold bind at 1, observe.
  destruct (Gen.extends_config (st_world s) (Matrix.app_path app)); cbn [negb].
  - unfold bind at 1. unfold Gen.load_circle_config. unfold bind at 1, observe.
    destruct (os_path_isfile E (st_world s) _).
    + unfold PyOps.load_yaml, bind at 1, observe.
      destruct (yaml_safe_load E (st_world s) _) as [| |d]; try discriminate Hok.
      unfold run_heap. unfold Py.load_document in *.
      set (h1 := st_heap s ++ _) in *. set (c := Py.shift_value _ _) in *.
      unfold bind at 1, PyOps.truth, read_heap. cbn [st_heap].
      destruct (Py.truthy h1 c); cbn [negb orb] in Hok.
      * destruct (Extender.dict_entries h1 c) as [es|] eqn:Hes; [|discriminate Hok].
        unfold Extender.dict_entries in Hes. destruct c as [| | | | |l]; try discriminate Hes.
        destruct (h1 !! l) as [[|es']|] eqn:Hl; try discriminate Hes.
        inversion Hes; subst es'.
        rewrite (merge_spec cc l (Matrix.app_name app) _ sl items es).
        -- exists []. by rewrite app_nil_r.
        -- eapply lookup_path_frame; [apply (frame_app sl) | exact Hsl | exact Hpath].
        -- cbn [st_heap]. by apply lookup_app_l_Some.
        -- exact Hl.
      * exists []. unfold ret. by rewrite app_nil_r.
    + unfold ret, bind at 1, PyOps.truth, read_heap. cbn.
      exists []. destruct s; cbn. by rewrite app_nil_r.
  - unfold bind at 1, print, ret. eexists [_]. reflexivity.
Qed.

End TurnFacts.

Section LoopFacts.

Context {E : OS}.

(** [append_custom_yamls] leaves the store [extended]. *)
Lemma append_custom_yamls_spec sl apps cc (s : state) items :
  Heap.lookup_path (st_heap s) cc Extender.steps_path = Some (Py.VRef sl) ->
  st_heap s !! sl = Some (Py.OList items) ->
  Extender.turns_ok sl (st_world s) apps (st_heap s) = true ->
  exists msgs,
    Gen.append_custom_yamls cc apps s
    = Ok cc {| st_world := st_world s;
               st_heap := Extender.extended sl (st_world s) apps (st_heap s);
               st_stdout := st_stdout s ++ msgs |}.
Proof.
  unfold Gen.append_custom_yamls.
  revert s items. induction apps as [|app apps IH]; intros s items Hpath Hsl Hok.
  - exists []. simpl. unfold ret. destruct s; simpl. by rewrite app_nil_r.
  - simpl in Hok. apply andb_prop in Hok as [Hok1 Hok2].
    destruct (turn_spec sl app cc s items Hpath Hsl Hok1) as [m1 Hturn].
    rewrite for_each_cons, Hturn.
    pose proof (turn_frame sl (st_world s) app (st_heap s)) as Hf.
    destruct (frame_list _ _ _ _ Hf Hsl) as [items' Hsl'].
    edestruct (IH (mkState (st_world s) (Extender.turn sl (st_world s) app (st_heap s))
                     (st_stdout s ++ m1)) items') as [m2 ->].
    + eapply lookup_path_frame; [exact Hf | exact Hsl | exact Hpath].
    + exact Hsl'.
    + exact Hok2.
    + exists (m1 ++ m2). simpl. by rewrite app_assoc.
Qed.

Lemma truthy_app (h extra : Py.store) v :
  (forall l, v = Py.VRef l -> l < length h) ->
  Py.truthy (h ++ extra) v = Py.truthy h v.
Proof.
  intros Hin. destruct v as [| | | | |l]; try done. simpl.
  by rewrite lookup_app_l by (by apply Hin).
Qed.

Lemma truthy_frame sl (h h' : Py.store) v :
  Heap.frame sl h h' ->
  (forall l, v = Py.VRef l -> l <> sl /\ l < length h) ->
  Py.truthy h' v = Py.truthy h v.
Proof.
  intros Hf Hin. destruct v as [| | | | |l]; try done. simpl.
  destruct (Hin l eq_refl) as [Hne Hlt].
  destruct (lookup_lt_is_Some_2 h l Hlt) as [o Ho].
  specialize (Hf l o Ho). rewrite decide_False in Hf by done. by rewrite Hf, Ho.
Qed.

Lemma boundb_lt n l : Extender.boundb n (Py.VRef l) = true -> l < n.
Proof. simpl. by intros ?%Nat.ltb_lt. Qed.

Lemma lookup_loaded (h : Py.store) objs l o :
  objs !! l = Some o ->
  (h ++ map (Py.shift_object (length h)) objs) !! (length h + l)
  = Some (Py.shift_object (length h) o).
Proof.
  intros Ho. rewrite lookup_app_r by lia.
  replace (length h + l - length h) with l by lia.
  by rewrite list_lookup_fmap, Ho.
Qed.

Lemma truthy_loaded (h : Py.store) objs v :
  Extender.boundb (length objs) v = true ->
  Py.truthy (h ++ map (Py.shift_object (length h)) objs) (Py.shift_value (length h) v)
  = Py.truthy objs v.
Proof.
  intros Hb. destruct v as [| | | | |l]; try done.
  apply boundb_lt in Hb. simpl.
  destruct (lookup_lt_is_Some_2 objs l Hb) as [o Ho].
  rewrite (lookup_loaded h objs l o Ho), Ho.
  destruct o as [[|? ?]|[|? ?]]; done.
Qed.

Lemma key_is_shift k n key : Py.key_is k (Py.shift_value n key) = Py.key_is k key.
Proof. by destruct key. Qed.

Lemma entries_get_shift k n es :
  Py.entries_get k (map (fun e => (Py.shift_value n e.1, Py.shift_value n e.2)) es)
  = Py.shift_value n <$> Py.entries_get k es.
Proof.
  induction es as [|[key v] es IH]; simpl; [done|].
  rewrite key_is_shift. by destruct (Py.key_is k key).
Qed.

Lemma entries_get_bound k n es v :
  forallb (fun e => Extender.boundb n e.2) es = true ->
  Py.entries_get k es = Some v -> Extender.boundb n v = true.
Proof.
  induction es as [|[key x] es IH]; simpl; [done|].
  intros [Hx Hes]%andb_prop. destruct (Py.key_is k key); [|by apply IH].
  intros [= <-]. done.
Qed.

End LoopFacts.

Section BlockFacts.

Context {E : OS}.

Lemma guard_above_le n n' h app_name steps g :
  n <= n' -> Extender.guard_above n' h app_name steps g ->
  Extender.guard_above n h app_name steps g.
Proof.
  intros Hle (l & Hl & Hg & Hobj). exists l. split_and!; [lia | done | done].
Qed.

Lemma put_block_length f sl app_name steps (h : Py.store) :
  length h <= length (Extender.put_block f sl app_name steps h).
Proof.
  unfold Extender.put_block. destruct (Py.truthy h steps); [|done].
  rewrite length_insert, length_app. lia.
Qed.

(** The list at [sl] after one block, and the guard built for it. *)
Lemma put_block_summary f sl app_name steps (h : Py.store) items :
  h !! sl = Some (Py.OList items) ->
  Extender.put_block f sl app_name steps h !! sl
  = Some (Py.OList (if Py.truthy h steps then f (Py.VRef (length h + 3)) items else items))
  /\ (Py.truthy h steps = true ->
      Extender.guard_above (length h) (Extender.put_block f sl app_name steps h)
        app_name steps (Py.VRef (length h + 3))).
Proof.
  intros Hsl. pose proof (lookup_lt_Some _ _ _ Hsl) as Hlt.
  unfold Extender.put_block. rewrite (items_at_eq _ _ _ Hsl).
  destruct (Py.truthy h steps); [|done]. split.
  - apply list_lookup_insert_eq. rewrite length_app. lia.
  - intros _. eapply guard_above_frame; [exact Hlt | apply frame_update | apply guard_above_fresh].
Qed.

End BlockFacts.

Section TurnSummary.

Context {E : OS}.

(** The list at [sl] after [merge_with_custom_steps]: the guard of the
    [before] steps goes right after the first element, the guard of
    the [after] steps goes last. *)
Lemma merged_summary sl app_name es (h : Py.store) first mid (tb ta : bool) :
  h !! sl = Some (Py.OList (first :: mid)) ->
  Py.truthy ((h ++ [Py.OList []]) ++ [Py.OList []])
    (Extender.steps_or_default "before" es (length h)) = tb ->
  Py.truthy
    (Extender.put_block (Py.list_insert_at 1) sl app_name
       (Extender.steps_or_default "before" es (length h))
       ((h ++ [Py.OList []]) ++ [Py.OList []]))
    (Extender.steps_or_default "after" es (length (h ++ [Py.OList []]))) = ta ->
  exists bs as',
    Extender.merged sl app_name es h !! sl = Some (Py.OList (first :: bs ++ mid ++ as')) /\
    (if tb then exists g, bs = [g] /\
        Extender.guard_above (length h) (Extender.merged sl app_name es h) app_name
          (Extender.steps_or_default "before" es (length h)) g
     else bs = []) /\
    (if ta then exists g, as' = [g] /\
        Extender.guard_above (length h) (Extender.merged sl app_name es h) app_name
          (Extender.steps_or_default "after" es (length (h ++ [Py.OList []]))) g
     else as' = []).
Proof.
  intros Hsl Htb Hta.
  pose proof (lookup_lt_Some _ _ _ Hsl) as Hlt.
  set (b := Extender.steps_or_default "before" es (length h)) in *.
  set (a := Extender.steps_or_default "after" es (length (h ++ [Py.OList []]))) in *.
  set (h2 := (h ++ [Py.OList []]) ++ [Py.OList []]) in *.
  assert (Hsl2 : h2 !! sl = Some (Py.OList (first :: mid))).
  { by do 2 apply lookup_app_l_Some. }
  assert (Hlen2 : length h <= length h2).
  { unfold h2. rewrite !length_app. lia. }
  destruct (put_block_summary (Py.list_insert_at 1) sl app_name b h2 _ Hsl2) as [Hsl3 Hg3].
  set (h3 := Extender.put_block (Py.list_insert_at 1) sl app_name b h2) in *.
  pose proof (put_block_length (Py.list_insert_at 1) sl app_name b h2) as Hlen3.
  fold h3 in Hlen3.
  destruct (put_block_summary (fun g items => items ++ [g]) sl app_name a h3 _ Hsl3)
    as [Hsl4 Hg4].
  change (Extender.put_block (fun g items => items ++ [g]) sl app_name a h3)
    with (Extender.merged sl app_name es h) in *.
  rewrite Htb in Hsl3, Hsl4. rewrite Hta in Hsl4.
  exists (if tb then [Py.VRef (length h2 + 3)] else []),
         (if ta then [Py.VRef (length h3 + 3)] else []).
  split_and!.
  - rewrite Hsl4. destruct tb, ta; cbn; by rewrite ?app_nil_r.
  - destruct tb; [|done]. exists (Py.VRef (length h2 + 3)). split; [done|].
    apply (guard_above_le _ (length h2)); [done|].
    eapply guard_above_frame; [| apply put_block_frame | by apply Hg3]. lia.
  - destruct ta; [|done]. exists (Py.VRef (length h3 + 3)). split; [done|].
    apply (guard_above_le _ (length h3)); [lia | by apply Hg4].
Qed.

End TurnSummary.

Section TurnSummary2.

Context {E : OS}.

Lemma root_entries_inv (d : Py.document) es :
  Extender.root_entries d = Some es ->
  exists r, Py.doc_root d = Py.VRef r /\ Py.doc_objects d !! r = Some (Py.ODict es).
Proof.
  unfold Extender.root_entries, Extender.dict_entries.
  destruct (Py.doc_root d) as [| | | | |r]; try done.
  destruct (Py.doc_objects d !! r) as [[|es']|] eqn:Hr; try done.
  intros [= <-]. eauto.
Qed.

Lemma wf_entries (d : Py.document) r es :
  Extender.wf_document d = true ->
  Py.doc_objects d !! r = Some (Py.ODict es) ->
  forallb (fun e => Extender.boundb (length (Py.doc_objects d)) e.2) es = true.
Proof.
  intros [_ Hobjs]%andb_prop Hr.
  rewrite forallb_forall in Hobjs.
  apply (Hobjs (Py.ODict es)). apply list_elem_of_In. by eapply list_elem_of_lookup_2.
Qed.

(** The truthiness of the steps under [k] of a loaded document, in any
    store [hx] that still holds the document as it was loaded and an
    empty list at the default's location. *)
Lemma loaded_steps_truthy (h hx : Py.store) (d : Py.document) r es k dl :
  Extender.wf_document d = true ->
  Py.doc_root d = Py.VRef r -> Py.doc_objects d !! r = Some (Py.ODict es) ->
  (forall v, Extender.boundb (length (Py.doc_objects d)) v = true ->
     Py.truthy hx (Py.shift_value (length h) v) = Py.truthy (Py.doc_objects d) v) ->
  hx !! dl = Some (Py.OList []) ->
  Py.truthy hx
    (Extender.steps_or_default k
       (map (fun e => (Py.shift_value (length h) e.1, Py.shift_value (length h) e.2)) es) dl)
  = Extender.doc_has d k.
Proof.
  intros Hwf Hroot Hr Hval Hdl.
  unfold Extender.steps_or_default, Extender.doc_has, Extender.root_entries,
    Extender.dict_entries.
  rewrite Hroot, Hr, entries_get_shift.
  destruct (Py.entries_get k es) as [v|] eqn:Hv; simpl.
  - apply Hval. eapply entries_get_bound; [|exact Hv]. by eapply wf_entries.
  - by rewrite Hdl.
Qed.

(** One turn on the shared list: the application's [before] block, if
    it has one, goes right after the first element, its [after] block
    goes last, and the turn raises nothing. *)
Lemma turn_summary sl w app (h : Py.store) first mid :
  Extender.app_ok w app = true ->
  h !! sl = Some (Py.OList (first :: mid)) ->
  Extender.turn_ok w app h = true /\
  exists bs as',
    Extender.turn sl w app h !! sl = Some (Py.OList (first :: bs ++ mid ++ as')) /\
    Extender.guards w "before" (length h) (Extender.turn sl w app h) app bs /\
    Extender.guards w "after" (length h) (Extender.turn sl w app h) app as'.
Proof.
  intros Hok Hsl. pose proof (lookup_lt_Some _ _ _ Hsl) as Hlt.
  unfold Extender.app_ok, Extender.turn_ok, Extender.turn, Extender.guards,
    Extender.guard_of, Extender.block_steps, Extender.has_block in *.
  destruct (Extender.find_override w app) as [|e|d]; [|done|].
  { split; [done|]. exists [], []. simpl. by rewrite app_nil_r. }
  apply andb_prop in Hok as [Hwf Hroot].
  pose proof Hwf as [Hb _]%andb_prop.
  unfold Py.load_document. cbv beta iota.
  set (objs := Py.doc_objects d) in *.
  set (h1 := h ++ map (Py.shift_object (length h)) objs).
  assert (Htl : Py.truthy h1 (Py.shift_value (length h) (Py.doc_root d))
                = Py.truthy objs (Py.doc_root d)) by (by apply truthy_loaded).
  rewrite Htl. clear Htl.
  assert (Hsl1 : h1 !! sl = Some (Py.OList (first :: mid))) by (by apply lookup_app_l_Some).
  destruct (Py.truthy objs (Py.doc_root d)) eqn:Htr; simpl in Hroot |- *.
  - destruct (Extender.root_entries d) as [es|] eqn:Hes; [|done].
    destruct (root_entries_inv d es Hes) as (r & Hr & Hobj).
    fold objs in Hobj. rewrite Hr. simpl.
    assert (Hl1 : h1 !! (length h + r)
                  = Some (Py.shift_object (length h) (Py.ODict es)))
      by (by apply lookup_loaded).
    rewrite Hl1. simpl. split; [done|].
    set (es' := map (fun e => (Py.shift_value (length h) e.1, Py.shift_value (length h) e.2)) es).
    assert (Hlen1 : length h1 = length h + length objs).
    { unfold h1. by rewrite length_app, length_map. }
    assert (Hin1 : forall v l, Extender.boundb (length objs) v = true ->
              Py.shift_value (length h) v = Py.VRef l -> length h <= l < length h1).
    { intros [| | | | |l0] l Hv; try done. intros [= <-].
      apply boundb_lt in Hv. lia. }
    destruct (merged_summary sl (Matrix.app_name app) es' h1 first mid
                (Extender.doc_has d "before") (Extender.doc_has d "after") Hsl1)
      as (bs & as' & Hsl' & Hbs & Has).
    + apply (loaded_steps_truthy h _ d r es "before"); try done.
      * intros v Hv. rewrite !truthy_app; [by apply truthy_loaded | |].
        -- intros l Hl. by apply (Hin1 v l Hv).
        -- intros l Hl. rewrite length_app. simpl. pose proof (Hin1 v l Hv Hl). lia.
      * rewrite lookup_app_l by (rewrite length_app; simpl; lia).
        rewrite lookup_app_r by lia. by rewrite Nat.sub_diag.
    + apply (loaded_steps_truthy h _ d r es "after"); try done.
      * intros v Hv.
        rewrite (truthy_frame sl ((h1 ++ [Py.OList []]) ++ [Py.OList []]));
          [| apply put_block_frame |].
        -- rewrite !truthy_app; [by apply truthy_loaded | |].
           ++ intros l Hl. by apply (Hin1 v l Hv).
           ++ intros l Hl. rewrite length_app. simpl. pose proof (Hin1 v l Hv Hl). lia.
        -- intros l Hl. pose proof (Hin1 v l Hv Hl). rewrite !length_app. simpl. lia.
      * assert (Hdl : ((h1 ++ [Py.OList []]) ++ [Py.OList []]) !! length (h1 ++ [Py.OList []])
                      = Some (Py.OList [])).
        { rewrite lookup_app_r by lia. by rewrite Nat.sub_diag. }
        pose proof (put_block_frame (Py.list_insert_at 1) sl (Matrix.app_name app)
                      (Extender.steps_or_default "before" es' (length h1))
                      ((h1 ++ [Py.OList []]) ++ [Py.OList []]) _ _ Hdl) as Hf.
        rewrite decide_False in Hf; [done|]. rewrite length_app. simpl. lia.
    + assert (Hsteps : forall k dl g,
        Extender.doc_has d k = true ->
        Extender.guard_above (length h1)
          (Extender.merged sl (Matrix.app_name app) es' h1) (Matrix.app_name app)
          (Extender.steps_or_default k es' dl) g ->
        exists d0 m v, Extender.Override d = Extender.Override d0 /\ length h <= m /\
          Extender.loaded_at (Extender.merged sl (Matrix.app_name app) es' h1) d0 m /\
          Py.entries_get k es = Some v /\
          Extender.guard_above (length h)
            (Extender.merged sl (Matrix.app_name app) es' h1) (Matrix.app_name app)
            (Py.shift_value m v) g).
      { intros k dl g Hhas Hg. unfold Extender.doc_has in Hhas. rewrite Hes in Hhas.
        destruct (Py.entries_get k es) as [v|] eqn:Hv; [|discriminate Hhas].
        exists d, (length h), v. split_and!; [done | done | | done |].
        - intros i o Hi.
          pose proof (merged_frame sl (Matrix.app_name app) es' h1 _ _
                        (lookup_loaded h objs i o Hi)) as Hf.
          rewrite decide_False in Hf by lia. exact Hf.
        - unfold Extender.steps_or_default, es' in Hg. rewrite entries_get_shift, Hv in Hg.
          apply (guard_above_le _ (length h1)); [lia | exact Hg]. }
      exists bs, as'. split_and!; [done | |].
      * destruct (Extender.doc_has d "before") eqn:Hhas; [|done].
        destruct Hbs as (g & -> & Hg). exists g. split; [done|].
        rewrite ?Hes. exact (Hsteps "before" _ g Hhas Hg).
      * destruct (Extender.doc_has d "after") eqn:Hhas; [|done].
        destruct Has as (g & -> & Hg). exists g. split; [done|].
        rewrite ?Hes. exact (Hsteps "after" _ g Hhas Hg).
  - split; [done|]. exists [], []. split_and!.
    + simpl. by rewrite app_nil_r.
    + unfold Extender.doc_has.
      destruct (Extender.root_entries d) as [es|] eqn:Hes; [|done].
      destruct (root_entries_inv d es Hes) as (r & Hr & Hobj).
      fold objs in Hobj. rewrite Hr in Htr. simpl in Htr. rewrite Hobj in Htr.
      destruct es; [done | discriminate Htr].
    + unfold Extender.doc_has.
      destruct (Extender.root_entries d) as [es|] eqn:Hes; [|done].
      destruct (root_entries_inv d es Hes) as (r & Hr & Hobj).
      fold objs in Hobj. rewrite Hr in Htr. simpl in Htr. rewrite Hobj in Htr.
      destruct es; [done | discriminate Htr].
Qed.

End TurnSummary2.

Section Accumulation.

Context {E : OS}.

Lemma merged_length sl app_name es (h : Py.store) :
  length h <= length (Extender.merged sl app_name es h).
Proof.
  unfold Extender.merged.
  etransitivity; [|apply put_block_length].
  etransitivity; [|apply put_block_length].
  rewrite !length_app. lia.
Qed.

Lemma turn_length sl w app (h : Py.store) :
  length h <= length (Extender.turn sl w app h).
Proof.
  unfold Extender.turn. destruct (Extender.find_override w app); try done.
  unfold Py.load_document. cbv beta iota.
  assert (Hl : length h <= length (h ++ map (Py.shift_object (length h)) (Py.doc_objects d))).
  { rewrite length_app. lia. }
  destruct (Py.truthy _ _); [|done].
  destruct (Extender.dict_entries _ _); [|done].
  etransitivity; [exact Hl | apply merged_length].
Qed.

Lemma extended_frame sl w apps (h : Py.store) :
  Heap.frame sl h (Extender.extended sl w apps h).
Proof.
  revert h. induction apps as [|app apps IH]; intros h; simpl; [apply frame_refl|].
  eapply frame_trans; [apply turn_frame | apply IH].
Qed.

(** The shared list after the whole loop: the [before] blocks follow
    the first element, the latest first; the [after] blocks are at the
    tail in the order of the applications. *)
Lemma extended_summary sl w apps (h : Py.store) first mid :
  Forall (fun app => Extender.app_ok w app = true) apps ->
  h !! sl = Some (Py.OList (first :: mid)) ->
  Extender.turns_ok sl w apps h = true /\
  exists Bs As,
    Extender.extended sl w apps h !! sl = Some (Py.OList (first :: rev Bs ++ mid ++ As)) /\
    Forall2 (Extender.guard_of w "before" (length h) (Extender.extended sl w apps h)) Bs
      (List.filter (Extender.has_block w "before") apps) /\
    Forall2 (Extender.guard_of w "after" (length h) (Extender.extended sl w apps h)) As
      (List.filter (Extender.has_block w "after") apps).
Proof.
  intros Hok. revert h mid. induction Hok as [|app apps Happ _ IH]; intros h mid Hsl.
  - split; [done|]. exists [], []. simpl. rewrite app_nil_r. by split_and!.
  - pose proof (lookup_lt_Some _ _ _ Hsl) as Hlt.
    destruct (turn_summary sl w app h first mid Happ Hsl) as (Hturn & bs & as' & Hsl1 & Hbs & Has).
    destruct (IH _ _ Hsl1) as (Hturns & Bs & As & Hfinal & HBs & HAs).
    simpl. rewrite Hturn, Hturns. split; [done|].
    pose proof (extended_frame sl w apps (Extender.turn sl w app h)) as Hf.
    pose proof (turn_length sl w app h) as Hlen.
    assert (Hweak : forall k gs apps',
      Forall2 (Extender.guard_of w k (length (Extender.turn sl w app h))
                 (Extender.extended sl w apps (Extender.turn sl w app h))) gs apps' ->
      Forall2 (Extender.guard_of w k (length h)
                 (Extender.extended sl w apps (Extender.turn sl w app h))) gs apps').
    { intros k gs apps' H. eapply Forall2_impl; [exact H|].
      intros g a (d & m & v & Hd & Hm & Hl & Hv & Hg). exists d, m, v.
      split_and!; [done | lia | done | done | by eapply guard_above_le]. }
    assert (Hmove : forall k gs,
      Extender.guards w k (length h) (Extender.turn sl w app h) app gs ->
      rev gs = gs /\
      Forall2 (Extender.guard_of w k (length h)
                 (Extender.extended sl w apps (Extender.turn sl w app h))) gs
        (if Extender.has_block w k app then [app] else [])).
    { intros k gs Hgs. unfold Extender.guards in Hgs.
      destruct (Extender.has_block w k app).
      - destruct Hgs as (g & -> & d & m & v & Hd & Hm & Hl & Hv & Hg). split; [done|].
        constructor; [|constructor]. exists d, m, v. split_and!; [done | done | | done |].
        + intros i o Hi. pose proof (Hf _ _ (Hl i o Hi)) as Hfi.
          rewrite decide_False in Hfi by lia. exact Hfi.
        + by eapply guard_above_frame; [exact Hlt | exact Hf |].
      - subst gs. split; [done | constructor]. }
    destruct (Hmove _ _ Hbs) as [Hrevb Hfb]. destruct (Hmove _ _ Has) as [_ Hfa].
    exists (bs ++ Bs), (as' ++ As). split_and!.
    + rewrite Hfinal, rev_app_distr, Hrevb. by rewrite <- !app_assoc.
    + destruct (Extender.has_block w "before" app); simpl.
      * change (app :: List.filter (Extender.has_block w "before") apps)
          with ([app] ++ List.filter (Extender.has_block w "before") apps).
        apply Forall2_app; [exact Hfb | by apply Hweak].
      * inversion Hfb; subst. by apply Hweak.
    + destruct (Extender.has_block w "after" app); simpl.
      * change (app :: List.filter (Extender.has_block w "after") apps)
          with ([app] ++ List.filter (Extender.has_block w "after") apps).
        apply Forall2_app; [exact Hfa | by apply Hweak].
      * inversion Hfa; subst. by apply Hweak.
Qed.

End Accumulation.

(** ** The blocks of the config extender *)

(** The name the program gives an application is the display name. *)
Lemma app_name_display {E : OS} (app : pathlike) :
  Matrix.app_name app = Spec.display_name (getcwd E) app.
Proof. reflexivity. Qed.

Lemma guard_of_block_of {E : OS} (w : world E) k n h g app :
  Extender.guard_of w k n h g app -> Extender.block_of w k h g app.
Proof.
  intros (d & m & v & Hd & _ & Hl & Hv & Hg).
  unfold Extender.block_steps in Hv. rewrite Hd in Hv.
  destruct (Extender.root_entries d) as [es|] eqn:Hes; [|discriminate Hv].
  exists d, es, v, m. split_and!; [done | done | done | done |].
  rewrite <- app_name_display. by eapply guard_above_block.
Qed.



Lemma has_block_override {E : OS} (w : world E) k app d :
  Extender.find_override w app = Extender.Override d ->
  Extender.has_block w k app = Extender.doc_has d k.
Proof. intros H. unfold Extender.has_block. by rewrite H. Qed.

Lemma doc_has_app_ok {E : OS} (w : world E) k app d :
  Extender.find_override w app = Extender.Override d ->
  Extender.wf_document d = true -> Extender.doc_has d k = true ->
  Extender.app_ok w app = true.
Proof.
  intros Hfo Hwf Hhas. unfold Extender.app_ok. rewrite Hfo, Hwf. simpl.
  unfold Extender.doc_has in Hhas.
  destruct (Extender.root_entries d); [|discriminate Hhas]. apply orb_true_r.
Qed.

(** C3: for an application whose override document has only non-empty
    [before] steps, a turn of the config extender puts exactly one
    guarded block into the shared step list at index 1, right after
    the original first element: the when/condition/equal structure on
    the application's display name (the base name of its absolute
    path) around the [before] value of the override document as it
    stands loaded in the store; over a run of the extender the list
    grows by exactly one element for each block, so by one for each
    such application. *)
Theorem before_block_follows_first {E : OS} (app : pathlike) (example_apps : list pathlike)
    (circle_config : Py.value) (s : state) (sl : nat) (first : Py.value)
    (rest : list Py.value) (d : Py.document) :
  Heap.lookup_path (st_heap s) circle_config Extender.steps_path = Some (Py.VRef sl) ->
  st_heap s !! sl = Some (Py.OList (first :: rest)) ->
  Extender.find_override (st_world s) app = Extender.Override d ->
  Extender.wf_document d = true ->
  Extender.doc_has d "before" = true ->
  Extender.doc_has d "after" = false ->
  Forall (fun a => Extender.app_ok (st_world s) a = true) example_apps ->
  (exists s' g,
     Gen.append_custom_yaml app circle_config s = Ok circle_config s' /\
     st_heap s' !! sl = Some (Py.OList (first :: g :: rest)) /\
     Extender.block_of (st_world s) "before" (st_heap s') g app) /\
  (exists s' items,
     Gen.append_custom_yamls circle_config example_apps s = Ok circle_config s' /\
     st_heap s' !! sl = Some (Py.OList items) /\
     length items
     = length (first :: rest)
       + length (List.filter (Extender.has_block (st_world s) "before") example_apps)
       + length (List.filter (Extender.has_block (st_world s) "after") example_apps)).
Proof.
  intros Hpath Hsl Hfo Hwf Hbefore Hafter Hok. split.
  - pose proof (doc_has_app_ok _ _ _ _ Hfo Hwf Hbefore) as Happ.
    destruct (turn_summary sl (st_world s) app (st_heap s) first rest Happ Hsl)
      as (Hturn & bs & as' & Hlist & Hbs & Has).
    destruct (turn_spec sl app circle_config s _ Hpath Hsl Hturn) as [msgs Hrun].
    unfold Extender.guards in Hbs, Has.
    rewrite (has_block_override _ _ _ _ Hfo), Hbefore in Hbs.
    rewrite (has_block_override _ _ _ _ Hfo), Hafter in Has.
    destruct Hbs as (g & -> & Hg). subst as'.
    eexists _, g. split; [exact Hrun|]. simpl. split.
    + by rewrite Hlist, app_nil_r.
    + by apply guard_of_block_of in Hg.
  - destruct (extended_summary sl (st_world s) example_apps (st_heap s) first rest Hok Hsl)
      as (Hturns & Bs & As & Hfinal & HBs & HAs).
    destruct (append_custom_yamls_spec sl example_apps circle_config s _ Hpath Hsl Hturns)
      as [msgs Hrun].
    eexists _, _. split; [exact Hrun|]. simpl. split; [exact Hfinal|].
    apply Forall2_length in HBs, HAs.
    simpl. rewrite !length_app, length_rev. lia.
Qed.

Lemma before_block_follows_first_witness :
  let app := PStr "/repo/src/examples/app4" in
  let apps := [PStr "/repo/src/examples/app1"; PStr "/repo/src/examples/app4"] in
  let s := Sample.loaded Sample.extender_tree in
  (exists s' g,
     Gen.append_custom_yaml app (Py.VRef 0) s = Ok (Py.VRef 0) s' /\
     st_heap s' !! 3 = Some (Py.OList (Py.VStr "checkout" :: g :: [Py.VStr "run-tests"])) /\
     Extender.block_of (st_world s) "before" (st_heap s') g app) /\
  (exists s' items,
     Gen.append_custom_yamls (Py.VRef 0) apps s = Ok (Py.VRef 0) s' /\
     st_heap s' !! 3 = Some (Py.OList items) /\
     length items
     = length (Py.VStr "checkout" :: [Py.VStr "run-tests"])
       + length (List.filter (Extender.has_block (st_world s) "before") apps)
       + length (List.filter (Extender.has_block (st_world s) "after") apps)).
Proof.
  apply (@before_block_follows_first (Sample.os Sample.repo)
           (PStr "/repo/src/examples/app4")
           [PStr "/repo/src/examples/app1"; PStr "/repo/src/examples/app4"]
           (Py.VRef 0) (Sample.loaded Sample.extender_tree) 3
           (Py.VStr "checkout") [Py.VStr "run-tests"] Sample.before_setup);
    try reflexivity.
  repeat constructor.
Defined.

(** ** The version listing *)

(** C5 (the code departs from it): when no tag matches the pattern,
    [grep] prints nothing, and splitting the empty text gives one empty
    string; the version sequence is then the empty string followed by
    the branch, not the branch alone. *)
Theorem no_matching_tag_leaves_empty_version {E : OS} (s : state) :
  List.filter (Regex.grep_w Gen.regex) (git_tag_l E (st_world s)) = [] ->
  Gen.get_git_tags s = Ok [EmptyString] s /\
  Gen.available_versions s = Ok [EmptyString; "main"] s.
Proof.
  intros Hnone.
  assert (Htags : Gen.get_git_tags s = Ok [EmptyString] s).
  { unfold Gen.get_git_tags, bind, observe, Shell.grep_output. by rewrite Hnone. }
  split; [exact Htags|].
  unfold Gen.available_versions, bind. by rewrite Htags.
Qed.

Lemma no_matching_tag_leaves_empty_version_witness :
  let s := Sample.start Sample.untagged_repo Sample.tree in
  Gen.get_git_tags s = Ok [EmptyString] s /\
  Gen.available_versions s = Ok [EmptyString; "main"] s.
Proof.
  apply (@no_matching_tag_leaves_empty_version (Sample.os Sample.untagged_repo)
           (Sample.start Sample.untagged_repo Sample.tree)).
  reflexivity.
Defined.

(** C6 (the code departs from it): the tags [v0] and [v1.2.3-rc1] do
    not have the form v<major>.<minor>.<patch>, yet the listing
    returns them with [v1.2.3]: in the pattern the alternative [0]
    stands alone against the three dotted numbers, and [grep -w] takes
    any line that holds a match as a whole word. *)
Theorem version_listing_takes_other_forms :
  let s := Sample.start Sample.odd_tags_repo Sample.tree in
  Gen.get_git_tags s = Ok ["v0"; "v1.2.3"; "v1.2.3-rc1"] s /\
  Spec.is_version_tag "v0" = false /\
  Spec.is_version_tag "v1.2.3-rc1" = false /\
  Spec.is_version_tag "v1.2.3" = true.
Proof. repeat split. Qed.

(** ** The assembly *)

Section AssemblyFacts.

Context {E : OS}.

Lemma load_yaml_ok path (s : state) d :
  yaml_safe_load E (st_world s) path = Loaded d ->
  PyOps.load_yaml path s
  = Ok (Py.load_document d (st_heap s)).1
       (Extender.with_heap s (Py.load_document d (st_heap s)).2).
Proof.
  intros H. unfold PyOps.load_yaml, bind, observe. rewrite H. reflexivity.
Qed.

Lemma available_examples_ok (s : state) :
  os_path_isdir E (st_world s) Gen.examples_path = true ->
  Gen.available_examples s = Ok (Assembly.examples (st_world s)) s.
Proof.
  intros H. unfold Gen.available_examples, bind, observe. rewrite H. reflexivity.
Qed.

Lemma available_versions_ok (s : state) :
  Gen.available_versions s = Ok (Assembly.versions (st_world s)) s.
Proof. reflexivity. Qed.






Lemma app_ok_turn_ok w app (h : Py.store) :
  Extender.app_ok w app = true -> Extender.turn_ok w app h = true.
Proof.
  unfold Extender.app_ok, Extender.turn_ok.
  destruct (Extender.find_override w app) as [|e|d]; try done.
  intros [Hwf Hroot]%andb_prop. pose proof Hwf as [Hb _]%andb_prop.
  unfold Py.load_document. cbv beta iota.
  rewrite (truthy_loaded h (Py.doc_objects d) (Py.doc_root d) Hb).
  destruct (Py.truthy (Py.doc_objects d) (Py.doc_root d)); [|done]. simpl in *.
  destruct (Extender.root_entries d) as [es|] eqn:Hes; [|done].
  destruct (root_entries_inv d es Hes) as (r & Hr & Hobj).
  rewrite Hr. simpl. by rewrite (lookup_loaded h _ r _ Hobj).
Qed.

Lemma apps_ok_turns_ok sl w apps (h : Py.store) :
  Forall (fun app => Extender.app_ok w app = true) apps ->
  Extender.turns_ok sl w apps h = true.
Proof.
  intros Hok. revert h. induction Hok as [|app apps Happ _ IH]; intros h; simpl; [done|].
  by rewrite (app_ok_turn_ok w app h Happ), IH.
Qed.

End AssemblyFacts.



(** ** Replaying a run *)

Section ReplayFacts.

Context {E : OS} (R : world E -> world E -> Prop).

Lemma respects_ret {A} (a : A) : Replay.respects R (ret a).
Proof. intros s1 s2 H. by split. Qed.

Lemma respects_raise {A} e : Replay.respects R (@raise E A e).
Proof. by intros s1 s2 H. Qed.

Lemma respects_bind {A B} (m : M A) (k : A -> M B) :
  Replay.respects R m -> (forall a, Replay.respects R (k a)) ->
  Replay.respects R (bind m k).
Proof.
  intros Hm Hk s1 s2 H. specialize (Hm s1 s2 H). unfold bind.
  destruct (m s1) as [a s1'|e1], (m s2) as [b s2'|e2]; simpl in Hm; try done.
  destruct Hm as [-> H']. by apply Hk.
Qed.

Lemma respects_observe {A} (f : world E -> A) :
  (forall w1 w2, R w1 w2 -> f w1 = f w2) -> Replay.respects R (observe f).
Proof.
  intros Hf s1 s2 H. split; [|exact H]. apply Hf. by destruct H.
Qed.

Lemma respects_read_heap {A} (f : Py.store -> A) : Replay.respects R (read_heap f).
Proof. intros s1 s2 H. split; [|exact H]. unfold read_heap. destruct H as (_ & -> & _). done. Qed.

Lemma respects_print msg : Replay.respects R (print msg).
Proof.
  intros s1 s2 (Hw & Hh & Ho). split; [done|]. unfold Replay.alike. simpl. by rewrite Ho.
Qed.

Lemma respects_run_heap {A} (f : Py.store -> A * Py.store) : Replay.respects R (run_heap f).
Proof.
  intros s1 s2 (Hw & Hh & Ho). unfold run_heap. rewrite Hh.
  destruct (f (st_heap s2)) as [a h]. by split.
Qed.

End ReplayFacts.

Section ReplayStore.

Context {E : OS} (R : world E -> world E -> Prop).

Lemma respects_set_object l o : Replay.respects R (PyOps.set_object l o).
Proof.
  intros s1 s2 (Hw & Hh & Ho). split; [done|]. unfold Replay.alike. simpl. by rewrite Hh.
Qed.

Lemma respects_getitem v k : Replay.respects R (PyOps.getitem v k).
Proof.
  intros s1 s2 H. pose proof H as (Hw & Hh & Ho). unfold PyOps.getitem. rewrite Hh.
  destruct v as [| | | | |l]; try done.
  destruct (st_heap s2 !! l) as [[items|es]|]; try done.
  by destruct (Py.entries_get k es).
Qed.

Lemma respects_setitem v k x : Replay.respects R (PyOps.setitem v k x).
Proof.
  intros s1 s2 H. pose proof H as (Hw & Hh & Ho). unfold PyOps.setitem. rewrite Hh.
  destruct v as [| | | | |l]; try done.
  destruct (st_heap s2 !! l) as [[items|es]|]; try done.
  by apply respects_set_object.
Qed.

Lemma respects_list_insert v i x : Replay.respects R (PyOps.list_insert v i x).
Proof.
  intros s1 s2 H. pose proof H as (Hw & Hh & Ho). unfold PyOps.list_insert. rewrite Hh.
  destruct v as [| | | | |l]; try done.
  destruct (st_heap s2 !! l) as [[items|es]|]; try done.
  by apply respects_set_object.
Qed.

Lemma respects_list_append v x : Replay.respects R (PyOps.list_append v x).
Proof.
  intros s1 s2 H. pose proof H as (Hw & Hh & Ho). unfold PyOps.list_append. rewrite Hh.
  destruct v as [| | | | |l]; try done.
  destruct (st_heap s2 !! l) as [[items|es]|]; try done.
  by apply respects_set_object.
Qed.

Lemma respects_new t : Replay.respects R (PyOps.new t).
Proof. apply respects_run_heap. Qed.

Lemma respects_dict_get v k t : Replay.respects R (PyOps.dict_get v k t).
Proof.
  intros s1 s2 H. pose proof H as (Hw & Hh & Ho). unfold PyOps.dict_get. rewrite Hh.
  destruct v as [| | | | |l]; try done.
  destruct (st_heap s2 !! l) as [[items|es]|]; try done.
  apply (respects_bind R (PyOps.new t)
           (fun d => ret (match Py.entries_get k es with Some x => x | None => d end)));
    [apply respects_new | intros d; apply respects_ret | exact H].
Qed.

Lemma respects_truth v : Replay.respects R (PyOps.truth v).
Proof. apply respects_read_heap. Qed.

End ReplayStore.

Section ReplayGen.

Context {E : OS} (R : world E -> world E -> Prop) (HR : Replay.same_state R)
  (HO : Replay.same_order R).

Lemma respects_for_each {A B} (xs : list A) (body : A -> B -> M B) acc :
  (forall x b, Replay.respects R (body x b)) ->
  Replay.respects R (for_each xs body acc).
Proof.
  intros Hbody. revert acc. induction xs as [|x xs IH]; intros acc; simpl.
  - apply respects_ret.
  - apply respects_bind; [apply Hbody | exact IH].
Qed.

Lemma respects_getoutput cmd : Replay.respects R (run_world (subprocess_getoutput E cmd)).
Proof.
  intros s1 s2 (Hw & Hh & Ho). unfold run_world.
  pose proof (Replay.same_output R HR _ _ cmd Hw) as Hout.
  pose proof (Replay.same_next R HR _ _ cmd Hw) as Hnext.
  destruct (subprocess_getoutput E cmd (st_world s1)) as [o1 w1].
  destruct (subprocess_getoutput E cmd (st_world s2)) as [o2 w2].
  simpl in *. by repeat split.
Qed.

Lemma respects_write p text :
  Replay.respects R (run_world (fun w => (tt, write_file E p text w))).
Proof.
  intros s1 s2 (Hw & Hh & Ho). unfold run_world. simpl.
  repeat split; try done. by apply (Replay.same_write R HR).
Qed.

Lemma respects_load_yaml path : Replay.respects R (PyOps.load_yaml path).
Proof.
  unfold PyOps.load_yaml. apply respects_bind.
  - apply respects_observe. intros w1 w2 Hw. by apply (Replay.same_load R HR).
  - intros [| |d]; [apply respects_raise | apply respects_raise | apply respects_run_heap].
Qed.

(** [name in elements] does not depend on the order of the listing. *)
Lemma existsb_listing (f : string -> bool) (l1 l2 : list string) :
  Permutation l1 l2 ->
  existsb f (map PosixPath.basename l1) = existsb f (map PosixPath.basename l2).
Proof.
  induction 1 as [|x l1 l2 _ IH|x y l|l1 l2 l3 _ IH1 _ IH2]; simpl.
  - done.
  - by rewrite IH.
  - by rewrite !orb_assoc, (orb_comm (f _)).
  - by rewrite IH1.
Qed.

Lemma same_is_valid w1 w2 p : R w1 w2 -> Gen.is_valid w1 p = Gen.is_valid w2 p.
Proof.
  intros Hw. unfold Gen.is_valid.
  by rewrite (Replay.same_isdir R HR _ _ _ Hw),
    (existsb_listing _ _ _ (Replay.same_entries R HR _ _ _ Hw)).
Qed.

Lemma same_extends_config w1 w2 p :
  R w1 w2 -> Gen.extends_config w1 p = Gen.extends_config w2 p.
Proof.
  intros Hw. unfold Gen.extends_config.
  by rewrite (Replay.same_isdir R HR _ _ _ Hw),
    (existsb_listing _ _ _ (Replay.same_entries R HR _ _ _ Hw)).
Qed.

Lemma respects_load_circle_config p : Replay.respects R (Gen.load_circle_config p).
Proof.
  unfold Gen.load_circle_config. apply respects_bind.
  - apply respects_observe. intros w1 w2 Hw. by apply (Replay.same_isfile R HR).
  - intros [|]; [apply respects_load_yaml | apply respects_ret].
Qed.

Lemma respects_get_git_tags : Replay.respects R Gen.get_git_tags.
Proof.
  unfold Gen.get_git_tags. apply respects_bind.
  - apply respects_observe. intros w1 w2 Hw. by rewrite (Replay.same_tags R HR _ _ Hw).
  - intros tags. apply respects_ret.
Qed.

Lemma respects_list_test_suites version :
  Replay.respects R (Gen.list_test_suites_for_version version).
Proof.
  unfold Gen.list_test_suites_for_version. apply respects_bind.
  - apply respects_getoutput.
  - intros out. destruct (PyStr.contains "error:" (PyStr.strip out)).
    + apply respects_bind; [apply respects_print | intros _; apply respects_ret].
    + apply respects_ret.
Qed.

Lemma respects_shared_steps v : Replay.respects R (Gen.shared_steps v).
Proof.
  unfold Gen.shared_steps.
  apply respects_bind; [apply respects_getitem|]. intros jobs.
  apply respects_bind; [apply respects_getitem|]. intros job.
  apply respects_getitem.
Qed.

Lemma respects_merge cc custom name :
  Replay.respects R (Gen.merge_with_custom_steps cc custom name).
Proof.
  unfold Gen.merge_with_custom_steps.
  apply respects_bind; [apply respects_dict_get|]. intros before_steps.
  apply respects_bind; [apply respects_dict_get|]. intros after_steps.
  apply respects_bind; [apply respects_truth|]. intros has_before.
  apply respects_bind.
  { destruct has_before; [|apply respects_ret].
    apply respects_bind; [apply respects_new|]. intros g.
    apply respects_bind; [apply respects_shared_steps|]. intros steps.
    apply respects_list_insert. }
  intros _. apply respects_bind; [apply respects_truth|]. intros has_after.
  apply respects_bind.
  { destruct has_after; [|apply respects_ret].
    apply respects_bind; [apply respects_new|]. intros g.
    apply respects_bind; [apply respects_shared_steps|]. intros steps.
    apply respects_list_append. }
  intros _. apply respects_ret.
Qed.

Lemma respects_append_custom_yaml app cc :
  Replay.respects R (Gen.append_custom_yaml app cc).
Proof.
  unfold Gen.append_custom_yaml.
  destruct (Gen.app_and_name_from_path app) as [app_path app_name].
  apply respects_bind.
  - apply respects_observe. intros w1 w2 Hw. by apply same_extends_config.
  - intros extends. destruct (negb extends).
    + apply respects_bind; [apply respects_print | intros _; apply respects_ret].
    + apply respects_bind; [apply respects_load_circle_config|]. intros custom.
      apply respects_bind; [apply respects_truth|]. intros [|].
      * apply respects_merge.
      * apply respects_ret.
Qed.

Lemma respects_append_custom_yamls cc apps :
  Replay.respects R (Gen.append_custom_yamls cc apps).
Proof.
  unfold Gen.append_custom_yamls. apply respects_for_each.
  intros app b. apply respects_append_custom_yaml.
Qed.

Lemma respects_add_suite app version suite acc :
  Replay.respects R (Gen.add_suite app version suite acc).
Proof.
  unfold Gen.add_suite. apply respects_bind.
  - apply respects_observe. intros w1 w2 Hw.
    by rewrite (Replay.same_exists R HR _ _ _ Hw), (same_is_valid _ _ _ Hw).
  - intros [|].
    + apply respects_bind; [apply respects_print | intros _; apply respects_ret].
    + apply respects_ret.
Qed.

Lemma respects_add_app_version pv acc :
  Replay.respects R (Gen.add_app_version pv acc).
Proof.
  unfold Gen.add_app_version. destruct pv as [app version].
  apply respects_bind.
  - apply respects_observe. intros w1 w2 Hw. by apply same_is_valid.
  - intros valid. destruct (negb valid).
    + apply respects_bind; [apply respects_print | intros _; apply respects_ret].
    + apply respects_bind; [apply respects_list_test_suites|]. intros suites.
      apply respects_for_each. intros suite b. apply respects_add_suite.
Qed.

Lemma respects_list_test_executions apps versions :
  Replay.respects R (Gen.list_test_executions apps versions).
Proof.
  unfold Gen.list_test_executions. apply respects_for_each.
  intros pv b. apply respects_add_app_version.
Qed.

Lemma respects_available_examples : Replay.respects R Gen.available_examples.
Proof.
  unfold Gen.available_examples. apply respects_bind.
  - apply respects_observe. intros w1 w2 Hw. by apply (Replay.same_isdir R HR).
  - intros is_dir. destruct (negb is_dir); [apply respects_raise|].
    apply respects_observe. intros w1 w2 Hw.
    rewrite (HO _ _ Hw).
    apply filter_ext. intros name. by apply (Replay.same_isdir R HR).
Qed.

Lemma respects_available_versions : Replay.respects R Gen.available_versions.
Proof.
  unfold Gen.available_versions.
  apply respects_bind; [apply respects_get_git_tags | intros tags; apply respects_ret].
Qed.

Lemma respects_main : Replay.respects R Gen.main.
Proof.
  unfold Gen.main.
  apply respects_bind; [apply respects_load_yaml|]. intros cc.
  apply respects_bind; [apply respects_available_examples|]. intros examples.
  apply respects_bind; [apply respects_available_versions|]. intros versions.
  apply respects_bind; [apply respects_list_test_executions|]. intros executions.
  apply respects_bind; [apply respects_new|]. intros jobs.
  apply respects_bind; [apply respects_getitem|]. intros workflows.
  apply respects_bind; [apply respects_getitem|]. intros workflow.
  apply respects_bind; [apply respects_setitem|]. intros _.
  apply respects_bind; [apply respects_append_custom_yamls|]. intros cc'.
  apply respects_bind; [apply respects_read_heap|]. intros yaml_content.
  apply respects_bind; [apply respects_print|]. intros _.
  apply respects_bind; [apply respects_read_heap|]. intros text.
  apply respects_bind; [apply respects_write|]. intros _.
  apply respects_ret.
Qed.

End ReplayGen.

Lemma main_writes {E : OS} (s t : state) (text : string) :
  Gen.main s = Ok text t ->
  (exists w, st_world t = write_file E Gen.generated_config text w) /\
  last (st_stdout t) = Some text.
Proof.
  unfold Gen.main.
  do 9 (unfold bind at 1;
        match goal with
        | |- match ?m with Ok _ _ => _ | Raise _ => _ end = _ -> _ =>
            destruct m as [? ?|?]; [|discriminate]
        end).
  unfold bind, read_heap, print, run_world, ret. cbn.
  intros [= <- <-]. cbn. split; [by eexists|]. apply last_snoc.
Qed.

(** C8, amended: two runs that start from worlds holding the same
    filesystem and version-control state, in a fresh interpreter each,
    end the same way (the same exception, or the same document text)
    when the examples directory is enumerated in the same order in
    both.  The order in which any other directory is enumerated does
    not matter: the program asks only whether a name is among the
    entries.  Each run prints the text last and writes it to
    [generated.yml]; what the two runs print is the same, and the
    worlds they leave again hold the same state. *)
Theorem same_state_in_order_same_document {E : OS} (R : world E -> world E -> Prop)
    (s1 s2 : state) :
  Replay.same_state R ->
  Replay.same_order R ->
  R (st_world s1) (st_world s2) ->
  st_heap s1 = st_heap s2 ->
  st_stdout s1 = st_stdout s2 ->
  match Gen.main s1, Gen.main s2 with
  | Ok text1 t1, Ok text2 t2 =>
      text1 = text2 /\
      st_stdout t1 = st_stdout t2 /\ last (st_stdout t1) = Some text1 /\
      (exists w1 w2,
         st_world t1 = write_file E Gen.generated_config text1 w1 /\
         st_world t2 = write_file E Gen.generated_config text2 w2) /\
      R (st_world t1) (st_world t2)
  | Raise e1, Raise e2 => e1 = e2
  | _, _ => False
  end.
Proof.
  intros HR HO Hw Hh Ho.
  pose proof (respects_main R HR HO s1 s2 (conj Hw (conj Hh Ho))) as H.
  unfold Replay.same_outcome in H.
  destruct (Gen.main s1) as [text1 t1|e1] eqn:H1, (Gen.main s2) as [text2 t2|e2] eqn:H2;
    try done.
  destruct H as (-> & Hw' & Hh' & Ho').
  destruct (main_writes _ _ _ H1) as [[w1 Hw1] Hl1].
  destruct (main_writes _ _ _ H2) as [[w2 Hw2] Hl2].
  split_and!; eauto.
Qed.

(** ** The sample trees hold the same state *)

Lemma same_trees_refl (w : Sample.snapshot) : Sample.same_trees w w.
Proof. by split_and!. Qed.

Lemma write_keeps_dirs (r : Sample.repository) p text (w : Sample.snapshot) q :
  Sample.isdir (write_file (Sample.os r) p text w) q = Sample.isdir w q /\
  Sample.listdir (write_file (Sample.os r) p text w) q = Sample.listdir w q.
Proof. by split. Qed.

Lemma same_trees_state (r : Sample.repository) :
  @Replay.same_state (Sample.os r) Sample.same_trees.
Proof.
  constructor; simpl.
  - intros w1 w2 p (Hd & _ & _). apply Hd.
  - intros w1 w2 p (_ & _ & Hy). unfold Sample.isfile. by rewrite Hy.
  - intros w1 w2 p (Hd & _ & Hy). unfold Sample.isfile. by rewrite Hd, Hy.
  - intros w1 w2 p (_ & Hl & _). apply Hl.
  - done.
  - intros w1 w2 p (_ & _ & Hy). unfold Sample.load. by rewrite Hy.
  - intros w1 w2 cmd _. unfold Sample.checkout_ls. by destruct (List.find _ _).
  - intros w1 w2 cmd H. unfold Sample.checkout_ls.
    destruct (List.find _ _) as [rev|]; simpl; [apply same_trees_refl | exact H].
  - intros w1 w2 p text (Hd & Hl & Hy). split_and!.
    + intros q. apply Hd.
    + intros q. apply Hl.
    + simpl. by rewrite Hy.
Qed.

Lemma same_trees_in_order_state (r : Sample.repository) :
  @Replay.same_state (Sample.os r) Sample.same_trees_in_order.
Proof.
  pose proof (same_trees_state r) as [H1 H2 H3 H4 H5 H6 H7 H8 H9].
  constructor.
  - intros w1 w2 p [H _]. by apply H1.
  - intros w1 w2 p [H _]. by apply H2.
  - intros w1 w2 p [H _]. by apply H3.
  - intros w1 w2 p [H _]. by apply H4.
  - intros w1 w2 [H _]. by apply H5.
  - intros w1 w2 p [H _]. by apply H6.
  - intros w1 w2 cmd [H _]. by apply H7.
  - intros w1 w2 cmd [H Ho]. split; [by apply H8|].
    simpl. unfold Sample.checkout_ls. by destruct (List.find _ _).
  - intros w1 w2 p text [H Ho]. split; [by apply H9|]. exact Ho.
Qed.

Lemma same_trees_in_order_order (r : Sample.repository) :
  @Replay.same_order (Sample.os r) Sample.same_trees_in_order.
Proof. intros w1 w2 [_ Ho]. exact Ho. Qed.

(** Directory by directory of the sample trees. *)
Ltac by_directory :=
  intros p; cbv [Sample.isdir Sample.listdir Sample.assoc Sample.dirs
                 Sample.tree Sample.shuffled_tree Sample.relisted_tree];
  repeat match goal with
         | |- context [String.eqb ?a ?b] =>
             destruct (String.eqb a b); [first [reflexivity | apply perm_swap]|]
         end;
  reflexivity.

Lemma shuffled_same_trees : Sample.same_trees Sample.tree Sample.shuffled_tree.
Proof. split_and!; [by_directory | by_directory | reflexivity]. Qed.

Lemma relisted_same_trees : Sample.same_trees_in_order Sample.tree Sample.relisted_tree.
Proof. split; [split_and!; [by_directory | by_directory | reflexivity] | reflexivity]. Qed.


(** C8 as worded fails: the tree of the scenario and the same tree with
    the examples directory enumerated in another order hold the same
    files and directories, the repository is the same, and the two
    runs produce different documents (the matrix and the blocks follow
    the order in which the applications are discovered). *)
Lemma listing_order_changes_the_document :
  let s1 := Sample.start Sample.repo Sample.tree in
  let s2 := Sample.start Sample.repo Sample.shuffled_tree in
  @Replay.same_state (Sample.os Sample.repo) Sample.same_trees /\
  Sample.same_trees (st_world s1) (st_world s2) /\
  st_heap s1 = st_heap s2 /\ st_stdout s1 = st_stdout s2 /\
  match Gen.main s1, Gen.main s2 with
  | Ok text1 _, Ok text2 _ => String.eqb text1 text2 = false
  | _, _ => False
  end.
Proof.
  intros s1 s2.
  split; [apply same_trees_state|].
  split; [apply shuffled_same_trees|].
  split; [reflexivity|]. split; [reflexivity|].
  vm_compute. reflexivity.
Qed.

Lemma same_state_in_order_same_document_witness :
  let E := Sample.os Sample.repo in
  let s1 := Sample.start Sample.repo Sample.tree in
  let s2 := Sample.start Sample.repo Sample.relisted_tree in
  match Gen.main s1, Gen.main s2 with
  | Ok text1 t1, Ok text2 t2 =>
      text1 = text2 /\
      st_stdout t1 = st_stdout t2 /\ last (st_stdout t1) = Some text1 /\
      (exists w1 w2,
         st_world t1 = write_file E Gen.generated_config text1 w1 /\
         st_world t2 = write_file E Gen.generated_config text2 w2) /\
      Sample.same_trees_in_order (st_world t1) (st_world t2)
  | Raise e1, Raise e2 => e1 = e2
  | _, _ => False
  end.
Proof.
  apply (@same_state_in_order_same_document (Sample.os Sample.repo)
           Sample.same_trees_in_order
           (Sample.start Sample.repo Sample.tree)
           (Sample.start Sample.repo Sample.relisted_tree)).
  - apply same_trees_in_order_state.
  - apply same_trees_in_order_order.
  - apply relisted_same_trees.
  - reflexivity.
  - reflexivity.
Defined.

(** ** The pattern and the version tags *)

Lemma append_nil_inv (a b : string) :
  a +:+ b = EmptyString -> a = EmptyString /\ b = EmptyString.
Proof. destruct a; [done|]. rewrite append_String. discriminate. Qed.

Lemma append_cons_inv (a b : string) c s :
  a +:+ b = String c s ->
  (a = EmptyString /\ b = String c s) \/ (exists a', a = String c a' /\ s = a' +:+ b).
Proof.
  destruct a as [|x a]; [by left|]. rewrite append_String. intros [= -> <-]. right. eauto.
Qed.

Lemma nullable_lang r s : Regex.lang r s -> s = EmptyString -> Regex.nullable r = true.
Proof.
  induction 1 as [| | |r1 r2 s1 s2 _ IH1 _ IH2|r1 r2 s _ IH|r1 r2 s _ IH| |];
    intros Hs; simpl; try done.
  - apply append_nil_inv in Hs as [-> ->]. by rewrite IH1, IH2.
  - by rewrite IH.
  - rewrite IH by done. apply orb_true_r.
Qed.

Lemma deriv_lang r s0 : Regex.lang r s0 ->
  forall c s, s0 = String c s -> Regex.lang (Regex.deriv c r) s.
Proof.
  induction 1 as [|a|lo hi a Ha|r1 r2 s1 s2 H1 IH1 H2 IH2|r1 r2 s0 _ IH|r1 r2 s0 _ IH
                  |r|r s1 s2 H1 IH1 H2 IH2]; intros c s Hs; simpl; try done.
  - injection Hs as -> <-. rewrite Ascii.eqb_refl. constructor.
  - injection Hs as -> <-. rewrite Ha. constructor.
  - apply append_cons_inv in Hs as [[-> ->]|(s1' & -> & ->)].
    + rewrite (nullable_lang _ _ H1 eq_refl). apply Regex.lang_alt_r. by apply IH2.
    + assert (Hc : Regex.lang (Regex.Cat (Regex.deriv c r1) r2) (s1' +:+ s2)).
      { constructor; [by apply IH1 | done]. }
      destruct (Regex.nullable r1); [by apply Regex.lang_alt_l | done].
  - apply Regex.lang_alt_l. by apply IH.
  - apply Regex.lang_alt_r. by apply IH.
  - apply append_cons_inv in Hs as [[-> ->]|(s1' & -> & ->)].
    + by apply (IH2 c s).
    + constructor; [by apply IH1 | done].
Qed.

Lemma match_prefix_lang s1 : forall r s2,
  Regex.lang r s1 -> Regex.word_end s2 = true -> Regex.match_prefix r (s1 +:+ s2) = true.
Proof.
  induction s1 as [|c s1 IH]; intros r s2 Hl Hw.
  - rewrite append_empty_l.
    destruct s2; simpl in *; rewrite (nullable_lang _ _ Hl eq_refl), ?Hw; done.
  - rewrite append_String. simpl. rewrite (IH (Regex.deriv c r) s2); [apply orb_true_r| |done].
    by apply (deriv_lang r (String c s1)).
Qed.

(** A line that starts with a match which ends a word is selected. *)
Lemma grep_w_prefix r (s1 s2 : string) :
  s1 <> EmptyString -> Regex.lang r s1 -> Regex.word_end s2 = true ->
  Regex.grep_w r (s1 +:+ s2) = true.
Proof.
  intros Hne Hl Hw. destruct s1 as [|c s1]; [done|].
  rewrite append_String. unfold Regex.grep_w. simpl.
  rewrite match_prefix_lang; [done| |done]. by apply (deriv_lang r (String c s1)).
Qed.

Lemma split_nonempty sep s : PyStr.split sep s <> [].
Proof.
  destruct s as [|c s]; simpl; [done|].
  destruct (Ascii.eqb c sep); [done|]. by destruct (PyStr.split sep s).
Qed.

(** [sep.join(s.split(sep)) == s] *)
Lemma join_split sep s : PyStr.join (String sep EmptyString) (PyStr.split sep s) = s.
Proof.
  induction s as [|c s IH]; [done|]. simpl.
  pose proof (split_nonempty sep s) as Hne.
  destruct (Ascii.eqb c sep) eqn:Hc.
  - apply Ascii.eqb_eq in Hc as ->.
    destruct (PyStr.split sep s) as [|w ws]; [done|].
    change (PyStr.join (String sep EmptyString) (EmptyString :: w :: ws))
      with (EmptyString +:+ String sep EmptyString
            +:+ PyStr.join (String sep EmptyString) (w :: ws)).
    by rewrite IH.
  - destruct (PyStr.split sep s) as [|w ws]; [done|].
    destruct ws as [|w' ws].
    + simpl in *. by rewrite IH.
    + change (PyStr.join (String sep EmptyString) (String c w :: w' :: ws))
        with (String c w +:+ String sep EmptyString
              +:+ PyStr.join (String sep EmptyString) (w' :: ws)).
      change (PyStr.join (String sep EmptyString) (w :: w' :: ws))
        with (w +:+ String sep EmptyString
              +:+ PyStr.join (String sep EmptyString) (w' :: ws)) in IH.
      by rewrite append_String, IH.
Qed.

Lemma digits_lang s :
  PyStr.all_chars (Regex.in_range "0" "9") s = true ->
  Regex.lang (Regex.Star (Regex.Range "0" "9")) s.
Proof.
  induction s as [|c s IH]; simpl; intros H; [constructor|].
  apply andb_true_iff in H as [Hc Hs].
  change (String c s) with (String c EmptyString +:+ s).
  constructor; [by constructor | by apply IH].
Qed.

Lemma nonzero_lang c s :
  Regex.in_range "1" "9" c = true ->
  PyStr.all_chars (Regex.in_range "0" "9") s = true ->
  Regex.lang Gen.re_nonzero (String c s).
Proof.
  intros Hc Hs. change (String c s) with (String c EmptyString +:+ s).
  constructor; [by constructor | by apply digits_lang].
Qed.

Lemma component_lang s : Spec.is_component s = true -> Regex.lang Gen.re_number s.
Proof.
  unfold Spec.is_component. intros H. apply orb_true_iff in H as [H|H].
  - apply String.eqb_eq in H as ->. apply Regex.lang_alt_l. constructor.
  - destruct s as [|c s]; [done|]. apply andb_true_iff in H as [Hc Hs].
    apply Regex.lang_alt_r. by apply nonzero_lang.
Qed.

(** Every tag of the claimed form, and [latest], matches the pattern
    as a whole word, so the listing selects it. *)
Lemma version_tags_selected t :
  Spec.is_version_tag t = true -> Regex.grep_w Gen.regex t = true.
Proof.
  unfold Spec.is_version_tag. intros H. apply orb_true_iff in H as [H|H].
  2:{ apply String.eqb_eq in H as ->. reflexivity. }
  destruct t as [|c r]; [done|]. apply andb_true_iff in H as [Hc H].
  apply Ascii.eqb_eq in Hc as ->.
  pose proof (join_split "." r) as Hr.
  destruct (PyStr.split "." r) as [|a [|b [|p [|]]]]; try done.
  apply andb_true_iff in H as [H Hp]. apply andb_true_iff in H as [Ha Hb].
  change (PyStr.join "." [a; b; p]) with (a +:+ "." +:+ b +:+ "." +:+ p) in Hr.
  subst r.
  apply component_lang in Hb, Hp.
  unfold Spec.is_component in Ha. apply orb_true_iff in Ha as [Ha|Ha].
  - apply String.eqb_eq in Ha as ->.
    change (String "v" ("0" +:+ "." +:+ b +:+ "." +:+ p))
      with ("v0" +:+ String "." (b +:+ "." +:+ p)).
    apply grep_w_prefix; [done| |done].
    apply Regex.lang_alt_l.
    change "v0"%string with ("v" +:+ "0").
    constructor; [constructor|]. apply Regex.lang_alt_l. constructor.
  - destruct a as [|c a]; [done|]. apply andb_true_iff in Ha as [Hc Ha].
    rewrite <- (append_empty_r (String "v" _)).
    apply grep_w_prefix; [done| |done].
    apply Regex.lang_alt_l.
    change (String "v" (String c a +:+ "." +:+ b +:+ "." +:+ p))
      with ("v" +:+ (String c a +:+ "." +:+ b +:+ "." +:+ p)).
    constructor; [constructor|]. apply Regex.lang_alt_r.
    constructor; [by apply nonzero_lang|].
    constructor; [constructor|]. constructor; [done|].
    constructor; [constructor | done].
Qed.

(** ** What the config extender keeps *)

Section Keeps.

Context {E : OS}.

Lemma put_block_keeps f sl app_name steps (h : Py.store) items :
  (forall g l, sublist l (f g l)) ->
  h !! sl = Some (Py.OList items) ->
  exists items', Extender.put_block f sl app_name steps h !! sl = Some (Py.OList items') /\
                 sublist items items'.
Proof.
  intros Hf Hsl. destruct (put_block_summary f sl app_name steps h items Hsl) as [H _].
  eexists. split; [exact H|]. by destruct (Py.truthy h steps).
Qed.

Lemma insert_at_sublist {A} i (x : A) l : sublist l (Py.list_insert_at i x l).
Proof.
  unfold Py.list_insert_at. rewrite <- (take_drop i l) at 1.
  apply sublist_app; [done|]. by apply sublist_cons.
Qed.

Lemma merged_keeps sl app_name es (h : Py.store) items :
  h !! sl = Some (Py.OList items) ->
  exists items', Extender.merged sl app_name es h !! sl = Some (Py.OList items') /\
                 sublist items items'.
Proof.
  intros Hsl. unfold Extender.merged.
  assert (H2 : ((h ++ [Py.OList []]) ++ [Py.OList []]) !! sl = Some (Py.OList items)).
  { by do 2 apply lookup_app_l_Some. }
  destruct (put_block_keeps (Py.list_insert_at 1) sl app_name
              (Extender.steps_or_default "before" es (length h)) _ items
              (fun g l => insert_at_sublist 1 g l) H2) as (items1 & H1 & Hs1).
  destruct (put_block_keeps (fun g l => l ++ [g]) sl app_name
              (Extender.steps_or_default "after" es (length (h ++ [Py.OList []]))) _ items1
              (fun g l => sublist_inserts_r [g] l l (reflexivity l)) H1)
    as (items2 & H3 & Hs2).
  exists items2. split; [exact H3 | by etrans].
Qed.

Lemma turn_keeps sl w app (h : Py.store) items :
  h !! sl = Some (Py.OList items) ->
  exists items', Extender.turn sl w app h !! sl = Some (Py.OList items') /\
                 sublist items items'.
Proof.
  intros Hsl. unfold Extender.turn.
  destruct (Extender.find_override w app) as [|e|d]; [by exists items..|].
  unfold Py.load_document. cbv beta iota.
  set (h1 := h ++ map (Py.shift_object (length h)) (Py.doc_objects d)).
  assert (H1 : h1 !! sl = Some (Py.OList items)) by by apply lookup_app_l_Some.
  destruct (Py.truthy h1 _); [|by exists items].
  destruct (Extender.dict_entries h1 _) as [es|]; [|by exists items].
  by apply merged_keeps.
Qed.

Lemma extended_keeps sl w apps (h : Py.store) items :
  h !! sl = Some (Py.OList items) ->
  exists items', Extender.extended sl w apps h !! sl = Some (Py.OList items') /\
                 sublist items items'.
Proof.
  revert h items. induction apps as [|app apps IH]; intros h items Hsl; simpl.
  - by exists items.
  - destruct (turn_keeps sl w app h items Hsl) as (items1 & H1 & Hs1).
    destruct (IH _ _ H1) as (items2 & H2 & Hs2).
    exists items2. split; [exact H2 | by etrans].
Qed.

(** X1: the config extender only adds to the shared step list.  When every
    application's override document is well formed, the loop returns
    the configuration object it was given, leaves the world as it was,
    and the list at [jobs.test-example.steps] holds afterwards every
    step it held before, in the same order. *)
Theorem extender_keeps_steps (apps : list pathlike) (cc : Py.value) (s : state)
    (sl : nat) (items : list Py.value) :
  Heap.lookup_path (st_heap s) cc Extender.steps_path = Some (Py.VRef sl) ->
  st_heap s !! sl = Some (Py.OList items) ->
  Forall (fun app => Extender.app_ok (st_world s) app = true) apps ->
  exists s' items',
    Gen.append_custom_yamls cc apps s = Ok cc s' /\
    st_world s' = st_world s /\
    st_heap s' !! sl = Some (Py.OList items') /\
    sublist items items'.
Proof.
  intros Hpath Hsl Hok.
  destruct (append_custom_yamls_spec sl apps cc s items Hpath Hsl
              (apps_ok_turns_ok sl _ _ _ Hok)) as [msgs Hrun].
  destruct (extended_keeps sl (st_world s) apps (st_heap s) items Hsl) as (items' & H & Hs).
  eexists _, items'. split; [exact Hrun|]. by repeat split.
Qed.

End Keeps.

Lemma extender_keeps_steps_witness :
  let apps := [PStr "/repo/src/examples/app1"; PStr "/repo/src/examples/app2";
               PStr "/repo/src/examples/app4"] in
  let s := Sample.loaded Sample.extender_tree in
  exists s' items',
    Gen.append_custom_yamls (Py.VRef 0) apps s = Ok (Py.VRef 0) s' /\
    st_world s' = st_world s /\
    st_heap s' !! 3 = Some (Py.OList items') /\
    sublist [Py.VStr "checkout"; Py.VStr "run-tests"] items'.
Proof.
  apply (@extender_keeps_steps (Sample.os Sample.repo)
           [PStr "/repo/src/examples/app1"; PStr "/repo/src/examples/app2";
            PStr "/repo/src/examples/app4"]
           (Py.VRef 0) (Sample.loaded Sample.extender_tree) 3
           [Py.VStr "checkout"; Py.VStr "run-tests"]).
  - reflexivity.
  - reflexivity.
  - repeat constructor.
Defined.

(** ** What the assembly changes *)





(** ** The tag listing as text and back *)

Lemma chomp_app (s t : string) :
  t <> EmptyString -> Shell.chomp (s +:+ t) = s +:+ Shell.chomp t.
Proof.
  intros Ht. induction s as [|c s IH]; [done|].
  rewrite !append_String. simpl. rewrite IH.
  destruct (s +:+ t) as [|x r] eqn:Hst; [|done].
  by apply append_nil_inv in Hst as [_ ->].
Qed.

Lemma unlines_nonempty l ls : Shell.unlines (l :: ls) <> EmptyString.
Proof.
  simpl. intros [_ H]%append_nil_inv. unfold nl in H. by rewrite append_String in H.
Qed.

(** The command's output for at least one selected line: the lines
    with a newline between them. *)
Lemma chomp_unlines l ls :
  Shell.chomp (Shell.unlines (l :: ls)) = PyStr.join nl (l :: ls).
Proof.
  revert l. induction ls as [|l' ls IH]; intros l.
  - simpl. rewrite append_empty_r, chomp_app by done. by rewrite append_empty_r.
  - change (Shell.unlines (l :: l' :: ls)) with (l +:+ nl +:+ Shell.unlines (l' :: ls)).
    change (PyStr.join nl (l :: l' :: ls)) with (l +:+ nl +:+ PyStr.join nl (l' :: ls)).
    rewrite chomp_app.
    2:{ unfold nl. by rewrite append_String. }
    rewrite chomp_app by apply unlines_nonempty. by rewrite IH.
Qed.

Lemma rstrip_app (a b : string) :
  PyStr.rstrip b <> EmptyString -> PyStr.rstrip (a +:+ b) = a +:+ PyStr.rstrip b.
Proof.
  intros Hb. induction a as [|c a IH]; [done|].
  rewrite !append_String. simpl. rewrite IH.
  destruct (a +:+ PyStr.rstrip b) as [|x r] eqn:Hab; [|done].
  by apply append_nil_inv in Hab as [_ ?].
Qed.

Lemma rstrip_no_space s : PyStr.no_space s = true -> PyStr.rstrip s = s.
Proof.
  unfold PyStr.no_space. induction s as [|c s IH]; [done|]. simpl.
  intros [Hc Hs]%andb_prop. rewrite (IH Hs).
  destruct s; [|done]. by destruct (PyStr.isspace c).
Qed.

Lemma lstrip_no_space s : PyStr.no_space s = true -> PyStr.lstrip s = s.
Proof.
  unfold PyStr.no_space. destruct s as [|c s]; [done|]. simpl.
  intros [Hc _]%andb_prop. by destruct (PyStr.isspace c).
Qed.

Lemma join_nonempty l ls : l <> EmptyString -> PyStr.join nl (l :: ls) <> EmptyString.
Proof.
  intros Hl. destruct ls as [|l' ls]; [done|].
  change (PyStr.join nl (l :: l' :: ls)) with (l +:+ nl +:+ PyStr.join nl (l' :: ls)).
  by intros [? _]%append_nil_inv.
Qed.

Lemma rstrip_join l ls :
  Forall Shell.tag_line (l :: ls) -> PyStr.rstrip (PyStr.join nl (l :: ls)) = PyStr.join nl (l :: ls).
Proof.
  revert l. induction ls as [|l' ls IH]; intros l Hall.
  - apply rstrip_no_space. by inversion Hall as [|? ? [_ ?] _].
  - inversion Hall as [|? ? [Hl Hs] Hrest]; subst.
    change (PyStr.join nl (l :: l' :: ls)) with (l +:+ nl +:+ PyStr.join nl (l' :: ls)).
    assert (Hne : PyStr.join nl (l' :: ls) <> EmptyString).
    { apply join_nonempty. by inversion Hrest as [|? ? [? _] _]. }
    rewrite rstrip_app.
    + rewrite rstrip_app; rewrite (IH _ Hrest); done.
    + rewrite rstrip_app; rewrite (IH _ Hrest); [|done].
      unfold nl. by rewrite append_String.
Qed.

Lemma lstrip_join l ls :
  Shell.tag_line l -> PyStr.lstrip (PyStr.join nl (l :: ls)) = PyStr.join nl (l :: ls).
Proof.
  intros [Hl Hs]. destruct l as [|c l]; [done|].
  unfold PyStr.no_space in Hs. simpl in Hs. apply andb_prop in Hs as [Hc _].
  destruct ls as [|l' ls].
  - simpl. by destruct (PyStr.isspace c).
  - change (PyStr.join nl (String c l :: l' :: ls))
      with (String c (l +:+ nl +:+ PyStr.join nl (l' :: ls))).
    simpl. by destruct (PyStr.isspace c).
Qed.

Lemma split_no_sep sep s :
  PyStr.all_chars (fun c => negb (Ascii.eqb c sep)) s = true -> PyStr.split sep s = [s].
Proof.
  induction s as [|c s IH]; [done|]. simpl. intros [Hc Hs]%andb_prop.
  rewrite (IH Hs). by destruct (Ascii.eqb c sep).
Qed.

Lemma split_app_sep sep s rest :
  PyStr.all_chars (fun c => negb (Ascii.eqb c sep)) s = true ->
  PyStr.split sep (s +:+ String sep rest) = s :: PyStr.split sep rest.
Proof.
  induction s as [|c s IH]; intros H.
  - rewrite append_empty_l. simpl. by rewrite Ascii.eqb_refl.
  - simpl in H. apply andb_prop in H as [Hc Hs].
    rewrite append_String. simpl. rewrite (IH Hs). by destruct (Ascii.eqb c sep).
Qed.

Lemma no_space_no_newline s :
  PyStr.no_space s = true ->
  PyStr.all_chars (fun c => negb (Ascii.eqb c "010")) s = true.
Proof.
  unfold PyStr.no_space. induction s as [|c s IH]; [done|]. simpl.
  intros [Hc Hs]%andb_prop. rewrite (IH Hs), andb_true_r.
  destruct (Ascii.eqb c "010") eqn:Heq; [|done].
  apply Ascii.eqb_eq in Heq as ->. done.
Qed.

(** [("\n".join(lines)).split("\n") == lines] for lines without a
    newline. *)
Lemma split_join_lines l ls :
  Forall Shell.tag_line (l :: ls) -> PyStr.split "010" (PyStr.join nl (l :: ls)) = l :: ls.
Proof.
  revert l. induction ls as [|l' ls IH]; intros l Hall.
  - simpl. apply split_no_sep, no_space_no_newline. by inversion Hall as [|? ? [_ ?] _].
  - inversion Hall as [|? ? [Hl Hs] Hrest]; subst.
    change (PyStr.join nl (l :: l' :: ls))
      with (l +:+ String "010" (PyStr.join nl (l' :: ls))).
    rewrite split_app_sep by by apply no_space_no_newline. by rewrite (IH _ Hrest).
Qed.

Lemma listing_round_trip l ls :
  Forall Shell.tag_line (l :: ls) ->
  PyStr.split "010" (PyStr.strip (Shell.chomp (Shell.unlines (l :: ls)))) = l :: ls.
Proof.
  intros Hall. rewrite chomp_unlines. unfold PyStr.strip.
  rewrite lstrip_join by by inversion Hall.
  rewrite rstrip_join by done. by apply split_join_lines.
Qed.

Lemma get_git_tags_lines {E : OS} (s : state) :
  Forall Shell.tag_line (git_tag_l E (st_world s)) ->
  List.filter (Regex.grep_w Gen.regex) (git_tag_l E (st_world s)) <> [] ->
  Gen.get_git_tags s
  = Ok (List.filter (Regex.grep_w Gen.regex) (git_tag_l E (st_world s))) s.
Proof.
  intros Hall Hne. unfold Gen.get_git_tags, bind, observe, ret, Shell.grep_output.
  assert (Hsel : Forall Shell.tag_line
                   (List.filter (Regex.grep_w Gen.regex) (git_tag_l E (st_world s)))).
  { apply List.Forall_forall. intros t [Hin _]%filter_In.
    by apply (proj1 (List.Forall_forall _ _) Hall). }
  destruct (List.filter _ _) as [|l ls]; [done|].
  by rewrite listing_round_trip.
Qed.

(** X2: when the tag listing holds reference names (no whitespace, none
    empty) and the pattern selects at least one, [get_git_tags]
    returns exactly the selected lines, in the order of the listing
    (writing them out for the pipe, dropping the final newline,
    stripping and splitting gives the lines back), and the versions
    are these lines followed by the branch. *)
Theorem git_tags_are_the_selected_lines {E : OS} (s : state) :
  Forall Shell.tag_line (git_tag_l E (st_world s)) ->
  List.filter (Regex.grep_w Gen.regex) (git_tag_l E (st_world s)) <> [] ->
  Gen.get_git_tags s
  = Ok (List.filter (Regex.grep_w Gen.regex) (git_tag_l E (st_world s))) s /\
  Gen.available_versions s
  = Ok (List.filter (Regex.grep_w Gen.regex) (git_tag_l E (st_world s))
        ++ [Gen.main_branch]) s.
Proof.
  intros Hall Hne. pose proof (get_git_tags_lines s Hall Hne) as Htags.
  split; [exact Htags|].
  unfold Gen.available_versions, bind. by rewrite Htags.
Qed.

Lemma git_tags_are_the_selected_lines_witness :
  let s := Sample.start Sample.odd_tags_repo Sample.tree in
  Gen.get_git_tags s
  = Ok (List.filter (Regex.grep_w Gen.regex)
          (git_tag_l (Sample.os Sample.odd_tags_repo) (st_world s))) s /\
  Gen.available_versions s
  = Ok (List.filter (Regex.grep_w Gen.regex)
          (git_tag_l (Sample.os Sample.odd_tags_repo) (st_world s))
        ++ [Gen.main_branch]) s.
Proof.
  apply (@git_tags_are_the_selected_lines (Sample.os Sample.odd_tags_repo)
           (Sample.start Sample.odd_tags_repo Sample.tree)).
  - repeat constructor; discriminate.
  - vm_compute. discriminate.
Defined.

(** X3: every tag of the form v<major>.<minor>.<patch> (each number 0 or
    without a leading zero), and the tag latest, that the repository
    holds is among the versions handed to the matrix builder, which
    end with the branch. *)
Theorem version_tags_are_listed {E : OS} (s : state) (t : string) :
  Forall Shell.tag_line (git_tag_l E (st_world s)) ->
  In t (git_tag_l E (st_world s)) ->
  Spec.is_version_tag t = true ->
  exists tags,
    Gen.available_versions s = Ok (tags ++ [Gen.main_branch]) s /\ In t tags.
Proof.
  intros Hall Hin Hform.
  assert (Hsel : In t (List.filter (Regex.grep_w Gen.regex) (git_tag_l E (st_world s)))).
  { apply filter_In. split; [done|]. by apply version_tags_selected. }
  exists (List.filter (Regex.grep_w Gen.regex) (git_tag_l E (st_world s))).
  split; [|done]. unfold Gen.available_versions, bind.
  rewrite get_git_tags_lines; [done|done|].
  intros Hnil. by rewrite Hnil in Hsel.
Qed.

Lemma version_tags_are_listed_witness :
  let s := Sample.start Sample.odd_tags_repo Sample.tree in
  exists tags,
    Gen.available_versions s = Ok (tags ++ ["main"]) s /\ In "v1.2.3" tags.
Proof.
  apply (@version_tags_are_listed (Sample.os Sample.odd_tags_repo)
           (Sample.start Sample.odd_tags_repo Sample.tree) "v1.2.3").
  - repeat constructor; discriminate.
  - vm_compute. tauto.
  - reflexivity.
Defined.

(** ** The matrix builder, one application after the other *)

Section MatrixTurns.

Context {E : OS}.

Lemma for_each_app {A B} (xs ys : list A) (body : A -> B -> M B) acc (s : state) :
  for_each (xs ++ ys) body acc s
  = match for_each xs body acc s with
    | Ok b s' => for_each ys body b s'
    | Raise e => Raise e
    end.
Proof.
  revert acc s. induction xs as [|x xs IH]; intros acc s; [done|].
  simpl. unfold bind. destruct (body x acc s) as [b s'|e]; [apply IH | done].
Qed.

(** A loop whose turns only append to the accumulator does the same
    from any accumulator. *)
Lemma for_each_appends {A B} (xs : list A) (body : A -> list B -> M (list B)) :
  (forall x acc s,
     body x acc s = match body x [] s with
                    | Ok js s' => Ok (acc ++ js) s'
                    | Raise e => Raise e
                    end) ->
  forall acc s,
    for_each xs body acc s = match for_each xs body [] s with
                             | Ok js s' => Ok (acc ++ js) s'
                             | Raise e => Raise e
                             end.
Proof.
  intros Hbody. induction xs as [|x xs IH]; intros acc s; simpl.
  - unfold ret. by rewrite app_nil_r.
  - unfold bind. rewrite (Hbody x acc s).
    destruct (body x [] s) as [js s'|e]; [|done].
    rewrite (IH (acc ++ js) s'), (IH js s').
    destruct (for_each xs body [] s') as [js' s''|e]; [|done].
    by rewrite app_assoc.
Qed.

Lemma add_suite_appends app version suite acc (s : state) :
  Gen.add_suite app version suite acc s
  = match Gen.add_suite app version suite [] s with
    | Ok js s' => Ok (acc ++ js) s'
    | Raise e => Raise e
    end.
Proof.
  unfold Gen.add_suite, bind, observe.
  destruct (negb (os_path_exists E (st_world s) _) || _); simpl.
  - unfold ret. by rewrite app_nil_r.
  - done.
Qed.

Lemma add_app_version_appends pv acc (s : state) :
  Gen.add_app_version pv acc s
  = match Gen.add_app_version pv [] s with
    | Ok js s' => Ok (acc ++ js) s'
    | Raise e => Raise e
    end.
Proof.
  destruct pv as [app version]. unfold Gen.add_app_version, bind, observe.
  destruct (negb (Gen.is_valid (st_world s) app)); simpl.
  - unfold print, ret. by rewrite app_nil_r.
  - destruct (Gen.list_test_suites_for_version version s) as [suites s'|e]; [|done].
    apply for_each_appends. intros. apply add_suite_appends.
Qed.

Lemma list_prod_app {A B} (l1 l2 : list A) (l' : list B) :
  list_prod (l1 ++ l2) l' = list_prod l1 l' ++ list_prod l2 l'.
Proof.
  induction l1 as [|x l1 IH]; [done|]. simpl. by rewrite IH, app_assoc.
Qed.

(** X4: the matrix builder takes the applications in turn: running it on
    [apps1 ++ apps2] is running it on [apps1], then on [apps2] from
    the state the first run leaves (the checkouts have moved the
    working tree, the diagnostics are on the output), and joining the
    two lists.  None of the runs raises. *)
Theorem matrix_runs_applications_in_turn (apps1 apps2 : list pathlike)
    (versions : list string) (s : state) :
  exists jobs1 s1 jobs2 s2,
    Gen.list_test_executions apps1 versions s = Ok jobs1 s1 /\
    Gen.list_test_executions apps2 versions s1 = Ok jobs2 s2 /\
    Gen.list_test_executions (apps1 ++ apps2) versions s = Ok (jobs1 ++ jobs2) s2.
Proof.
  destruct (list_test_executions_spec apps1 versions s) as [m1 H1].
  set (s1 := moved s (Matrix.final_world (st_world s) (list_prod apps1 versions)) m1) in *.
  destruct (list_test_executions_spec apps2 versions s1) as [m2 H2].
  eexists _, s1, _, _. split; [exact H1|]. split; [exact H2|].
  unfold Gen.list_test_executions in *.
  rewrite list_prod_app, for_each_app, H1.
  rewrite (for_each_appends _ _ add_app_version_appends), H2. done.
Qed.

(** X5: the matrix builder invents no job.  Every element of its output
    is the descriptor of the pair at some position of the product of
    the applications and the versions: the application was valid in
    the world the run had when it took that pair up, and the suite was
    listed by the checkout of the pair's version in that world and
    existed and was valid in the working tree that checkout left. *)
Theorem every_job_has_an_origin (example_apps : list pathlike) (versions : list string)
    (s : state) :
  exists out s',
    Gen.list_test_executions example_apps versions s = Ok out s' /\
    forall j, In j out ->
      exists i app version suite w,
        list_prod example_apps versions !! i = Some (app, version) /\
        Matrix.worlds (st_world s) (list_prod example_apps versions) !! i = Some w /\
        In app example_apps /\ In version versions /\
        Gen.is_valid w app = true /\
        In suite (Matrix.suites w version) /\
        Matrix.suite_ok (Matrix.checkout w version).2 suite = true /\
        j = Py.LDict [("test-example",
                       Gen.new_example app (Matrix.suite_path suite) version)].
Proof.
  destruct (list_test_executions_spec example_apps versions s) as [msgs Hrun].
  eexists _, _. split; [exact Hrun|]. intros j Hj.
  apply jobs_origin in Hj
    as (i & app & version & suite & w & Hi & Hw & Hv & Hs & Hok & ->).
  assert (Hin : In (app, version) (list_prod example_apps versions)).
  { apply list_elem_of_In. by eapply list_elem_of_lookup_2. }
  apply in_prod_iff in Hin as [Happ Hver].
  by exists i, app, version, suite, w.
Qed.

End MatrixTurns.

(** ** Edges of the config extender *)

Section ExtenderEdges.

Context {E : OS}.

Lemma turn_without_override app cc (s : state) :
  Gen.extends_config (st_world s) (Matrix.app_path app) = false ->
  Gen.append_custom_yaml app cc s
  = Ok cc (moved s (st_world s) [Extender.no_override_diagnostic app]).
Proof.
  intros H. unfold Gen.append_custom_yaml.
  change (Gen.app_and_name_from_path app) with (Matrix.app_path app, Matrix.app_name app).
  cbv beta iota. unfold bind at 1, observe. rewrite H. reflexivity.
Qed.

(** X6: applications for which [extends_config] is false (the path is no
    directory, or it holds no [circle_config.yml]) leave the
    configuration alone: the loop returns the object it was given,
    store and world are as before, and one line per application is
    printed, in the order of the applications.  The configuration is
    not looked into: it need not even be a mapping. *)
Theorem apps_without_override_change_nothing (apps : list pathlike) (cc : Py.value)
    (s : state) :
  Forall (fun app => Gen.extends_config (st_world s) (Matrix.app_path app) = false) apps ->
  Gen.append_custom_yamls cc apps s
  = Ok cc (moved s (st_world s) (map Extender.no_override_diagnostic apps)).
Proof.
  unfold Gen.append_custom_yamls. revert s.
  induction apps as [|app apps IH]; intros s Hall.
  - simpl. unfold ret. by rewrite moved_id.
  - inversion Hall as [|? ? Happ Hrest]; subst.
    rewrite for_each_cons, (turn_without_override app cc s Happ).
    rewrite (IH (moved s (st_world s) [Extender.no_override_diagnostic app])); [|exact Hrest].
    by rewrite moved_moved.
Qed.

(** X7: when the override of an application cannot be used, the turn
    raises and so does the loop, whatever applications follow: the
    loader's error when the file cannot be opened or parsed, and
    [AttributeError] when the document is truthy and no mapping (a
    sequence or a scalar has no [get]). *)
Theorem bad_override_aborts (app : pathlike) (apps : list pathlike) (cc : Py.value)
    (s : state) :
  Extender.turn_ok (st_world s) app (st_heap s) = false ->
  exists e,
    e = match Extender.find_override (st_world s) app with
        | Extender.BadOverride e' => e'
        | _ => Py.AttributeError
        end /\
    Gen.append_custom_yaml app cc s = Raise e /\
    Gen.append_custom_yamls cc (app :: apps) s = Raise e.
Proof.
  intros Hbad. eexists. split; [reflexivity|].
  assert (Hturn : Gen.append_custom_yaml app cc s
                  = Raise match Extender.find_override (st_world s) app with
                          | Extender.BadOverride e' => e'
                          | _ => Py.AttributeError
                          end).
  { unfold Gen.append_custom_yaml, Extender.turn_ok, Extender.find_override in *.
    change (Gen.app_and_name_from_path app) with (Matrix.app_path app, Matrix.app_name app).
    cbv beta iota. unfold bind at 1, observe.
    destruct (Gen.extends_config (st_world s) (Matrix.app_path app)); [|discriminate Hbad].
    cbn [negb]. unfold bind at 1. unfold Gen.load_circle_config. unfold bind at 1, observe.
    destruct (os_path_isfile E (st_world s) _); [|discriminate Hbad].
    unfold PyOps.load_yaml, bind at 1, observe.
    destruct (yaml_safe_load E (st_world s) _) as [| |d]; [done | done |].
    unfold run_heap. unfold Py.load_document in *.
    set (h1 := st_heap s ++ _) in *. set (c := Py.shift_value _ _) in *.
    unfold bind at 1, PyOps.truth, read_heap. cbn [st_heap].
    destruct (Py.truthy h1 c); [|discriminate Hbad]. cbn [negb orb] in Hbad.
    unfold Gen.merge_with_custom_steps. unfold bind at 1. unfold PyOps.dict_get.
    unfold Extender.dict_entries in Hbad. cbn [st_heap].
    destruct c as [| | | | |l]; try done.
    destruct (h1 !! l) as [[|es]|]; done. }
  split; [exact Hturn|].
  unfold Gen.append_custom_yamls. by rewrite for_each_cons, Hturn.
Qed.

End ExtenderEdges.

Lemma apps_without_override_change_nothing_witness :
  let apps := [PStr "/repo/src/examples/app1"; PStr "/repo/src/examples/app3"] in
  let s := Sample.loaded Sample.tree in
  Gen.append_custom_yamls (Py.VRef 0) apps s
  = Ok (Py.VRef 0) (moved s (st_world s)
                      (map (@Extender.no_override_diagnostic (Sample.os Sample.repo)) apps)).
Proof.
  apply (@apps_without_override_change_nothing (Sample.os Sample.repo)
           [PStr "/repo/src/examples/app1"; PStr "/repo/src/examples/app3"]
           (Py.VRef 0) (Sample.loaded Sample.tree)).
  repeat constructor.
Defined.

Lemma bad_override_aborts_witness :
  let s := Sample.loaded Sample.list_override_tree in
  let app := PStr "/repo/src/examples/app5" in
  exists e,
    e = match Extender.find_override (st_world s) app with
        | Extender.BadOverride e' => e'
        | _ => Py.AttributeError
        end /\
    Gen.append_custom_yaml app (Py.VRef 0) s = Raise e /\
    Gen.append_custom_yamls (Py.VRef 0) [app; PStr "/repo/src/examples/app1"] s = Raise e.
Proof.
  apply (@bad_override_aborts (Sample.os Sample.repo)
           (PStr "/repo/src/examples/app5") [PStr "/repo/src/examples/app1"]
           (Py.VRef 0) (Sample.loaded Sample.list_override_tree)).
  reflexivity.
Defined.

Section BlockBounds.

Context {E : OS}.

(** X8: [insert(1, block)] within bounds and beyond.  For a custom
    configuration with a non-empty [before] list and no [after] key,
    [merge_with_custom_steps] puts the guarded block after the first
    step when there is one, and makes it the only element when the
    step list is empty: position 1 is then past the end and [insert]
    appends.  Nothing else is added, and the block is a mapping with
    the one key [when], over a mapping with [condition] (a mapping
    whose [equal] is the list of the matrix parameter and the name
    handed in) and [steps], the very list of the custom
    configuration. *)
Theorem before_block_is_first_in_an_empty_list (cc : Py.value) (c sl b : nat)
    (app_name : string) (s : state) (items : list Py.value)
    (es : list (Py.value * Py.value)) (x : Py.value) (xs : list Py.value) :
  Heap.lookup_path (st_heap s) cc Extender.steps_path = Some (Py.VRef sl) ->
  st_heap s !! sl = Some (Py.OList items) ->
  st_heap s !! c = Some (Py.ODict es) ->
  Py.entries_get "before" es = Some (Py.VRef b) ->
  st_heap s !! b = Some (Py.OList (x :: xs)) ->
  Py.entries_get "after" es = None ->
  exists s' g,
    Gen.merge_with_custom_steps cc (Py.VRef c) app_name s = Ok cc s' /\
    st_heap s' !! sl = Some (Py.OList (take 1 items ++ g :: drop 1 items)) /\
    (items = [] -> st_heap s' !! sl = Some (Py.OList [g])) /\
    Spec.guarded_block (st_heap s') g app_name (Py.VRef b).
Proof.
  intros Hpath Hsl Hc Hbefore Hb Hafter.
  pose proof (lookup_lt_Some _ _ _ Hsl) as Hlt.
  set (h := st_heap s) in *.
  set (h2 := (h ++ [Py.OList []]) ++ [Py.OList []]).
  assert (Hsl2 : h2 !! sl = Some (Py.OList items)) by (by do 2 apply lookup_app_l_Some).
  assert (Hb2 : h2 !! b = Some (Py.OList (x :: xs))) by (by do 2 apply lookup_app_l_Some).
  exists (Extender.with_heap s (Extender.merged sl app_name es h)), (Py.VRef (length h2 + 3)).
  split; [by apply (merge_spec cc c app_name s sl items es)|].
  unfold Extender.merged, Extender.steps_or_default. rewrite Hbefore, Hafter. fold h2.
  destruct (put_block_summary (Py.list_insert_at 1) sl app_name (Py.VRef b) h2 _ Hsl2)
    as [Hsl3 Hg3].
  assert (Htb : Py.truthy h2 (Py.VRef b) = true) by (simpl; by rewrite Hb2).
  rewrite Htb in Hsl3. specialize (Hg3 Htb).
  set (h3 := Extender.put_block (Py.list_insert_at 1) sl app_name (Py.VRef b) h2) in *.
  assert (Hdl : h3 !! length (h ++ [Py.OList []]) = Some (Py.OList [])).
  { pose proof (put_block_frame (Py.list_insert_at 1) sl app_name (Py.VRef b) h2
                  (length (h ++ [Py.OList []])) (Py.OList [])) as Hf.
    rewrite decide_False in Hf by (rewrite length_app; simpl; lia).
    apply Hf. unfold h2. rewrite lookup_app_r by lia. by rewrite Nat.sub_diag. }
  assert (Hta : Py.truthy h3 (Py.VRef (length (h ++ [Py.OList []]))) = false).
  { simpl. by rewrite Hdl. }
  cbn [st_heap Extender.with_heap].
  assert (Hfinal : Extender.put_block (fun g its => its ++ [g]) sl app_name
                      (Py.VRef (length (h ++ [Py.OList []]))) h3 = h3).
  { unfold Extender.put_block at 1. by rewrite Hta. }
  rewrite Hfinal.
  split_and!.
  - exact Hsl3.
  - intros ->. exact Hsl3.
  - eapply guard_above_block. exact Hg3.
Qed.

End BlockBounds.



Lemma before_block_is_first_in_an_empty_list_witness :
  let s := Sample.bare_loaded in
  exists s' g,
    Gen.merge_with_custom_steps (Py.VRef 0) (Py.VRef 7) "app4" s = Ok (Py.VRef 0) s' /\
    st_heap s' !! 3 = Some (Py.OList (take 1 [] ++ g :: drop 1 [])) /\
    (([] : list Py.value) = [] -> st_heap s' !! 3 = Some (Py.OList [g])) /\
    Spec.guarded_block (st_heap s') g "app4" (Py.VRef 8).
Proof.
  apply (@before_block_is_first_in_an_empty_list (Sample.os Sample.repo)
           (Py.VRef 0) 7 3 8 "app4" Sample.bare_loaded []
           [(Py.VStr "before", Py.VRef 8)] (Py.VRef 9) []).
  - reflexivity.
  - reflexivity.
  - reflexivity.
  - reflexivity.
  - reflexivity.
  - reflexivity.
Defined.

Section MissingKey.

Context {E : OS}.

(** X9: a block for a template without the shared job.  When the
    configuration is a mapping without the key [jobs] and the custom
    configuration holds a non-empty [before] list,
    [merge_with_custom_steps] raises [KeyError]: the step list is
    looked up only once a block is to be put into it. *)
Theorem block_for_a_template_without_jobs_raises (r c b : nat) (app_name : string)
    (s : state) (ces es : list (Py.value * Py.value)) (x : Py.value) (xs : list Py.value) :
  st_heap s !! r = Some (Py.ODict ces) ->
  Py.entries_get "jobs" ces = None ->
  st_heap s !! c = Some (Py.ODict es) ->
  Py.entries_get "before" es = Some (Py.VRef b) ->
  st_heap s !! b = Some (Py.OList (x :: xs)) ->
  Gen.merge_with_custom_steps (Py.VRef r) (Py.VRef c) app_name s = Raise Py.KeyError.
Proof.
  intros Hr Hjobs Hc Hbefore Hb. unfold Gen.merge_with_custom_steps.
  unfold bind at 1. rewrite (dict_get_ok c "before" s es Hc).
  unfold bind at 1. rewrite (dict_get_ok c "after" _ es); [|by apply lookup_app_l_Some].
  unfold Extender.steps_or_default at 1. rewrite Hbefore.
  set (s2 := Extender.with_heap (Extender.with_heap s _) _).
  assert (Hb2 : st_heap s2 !! b = Some (Py.OList (x :: xs))).
  { simpl. by do 2 apply lookup_app_l_Some. }
  assert (Hr2 : st_heap s2 !! r = Some (Py.ODict ces)).
  { simpl. by do 2 apply lookup_app_l_Some. }
  unfold bind at 1, PyOps.truth, read_heap. cbn [Py.truthy]. rewrite Hb2.
  unfold bind at 1. unfold bind at 1. unfold PyOps.new, run_heap.
  rewrite alloc_wrap. unfold bind at 1.
  unfold Gen.shared_steps. unfold bind at 1. unfold PyOps.getitem at 1.
  cbn [st_heap]. rewrite (lookup_app_l_Some _ _ _ _ Hr2). by rewrite Hjobs.
Qed.

End MissingKey.



Lemma block_for_a_template_without_jobs_raises_witness :
  Gen.merge_with_custom_steps (Py.VRef 0) (Py.VRef 1) "app4" Sample.jobless_loaded
  = Raise Py.KeyError.
Proof.
  apply (@block_for_a_template_without_jobs_raises (Sample.os Sample.repo)
           0 1 2 "app4" Sample.jobless_loaded
           [(Py.VStr "version", Py.VFloat 4611911198408756429)]
           [(Py.VStr "before", Py.VRef 2)] (Py.VRef 3) []).
  - reflexivity.
  - reflexivity.
  - reflexivity.
  - reflexivity.
  - reflexivity.
Defined.

Lemma lstrip_first_text s rest :
  PyStr.first_is_text s = true -> PyStr.lstrip (s +:+ rest) = s +:+ rest.
Proof.
  destruct s as [|c s]; [done|]. simpl. intros Hc.
  rewrite append_String. simpl. by destruct (PyStr.isspace c).
Qed.

Lemma last_is_text_nonempty s : PyStr.last_is_text s = true -> s <> EmptyString.
Proof. by destruct s. Qed.

Lemma rstrip_last_text s : PyStr.last_is_text s = true -> PyStr.rstrip s = s.
Proof.
  induction s as [|c s IH]; [done|]. intros H.
  destruct s as [|c' s'].
  - simpl in *. by destruct (PyStr.isspace c).
  - change (PyStr.last_is_text (String c (String c' s')))
      with (PyStr.last_is_text (String c' s')) in H.
    change (PyStr.rstrip (String c (String c' s')))
      with (match PyStr.rstrip (String c' s') with
            | EmptyString => if PyStr.isspace c then EmptyString else String c EmptyString
            | r => String c r
            end).
    by rewrite (IH H).
Qed.

Lemma join_cons_cons sep l l' ls :
  PyStr.join sep (l :: l' :: ls) = l +:+ sep +:+ PyStr.join sep (l' :: ls).
Proof. reflexivity. Qed.

Lemma last_cons_default {A} (ls : list A) (l l' : A) :
  List.last (l' :: ls) l = List.last ls l'.
Proof.
  revert l l'. induction ls as [|a ls IH]; intros l l'; [done|].
  change (List.last (l' :: a :: ls) l) with (List.last (a :: ls) l).
  by rewrite !IH.
Qed.

Lemma rstrip_join_text l ls :
  PyStr.last_is_text (List.last ls l) = true ->
  PyStr.rstrip (PyStr.join nl (l :: ls)) = PyStr.join nl (l :: ls)
  /\ PyStr.join nl (l :: ls) <> EmptyString.
Proof.
  revert l. induction ls as [|l' ls IH]; intros l Hlast.
  - simpl in *. split; [by apply rstrip_last_text | by apply last_is_text_nonempty].
  - rewrite last_cons_default in Hlast.
    destruct (IH l' Hlast) as [Hr Hne].
    rewrite join_cons_cons.
    assert (Hnl : PyStr.rstrip (nl +:+ PyStr.join nl (l' :: ls))
                  = nl +:+ PyStr.join nl (l' :: ls)).
    { rewrite rstrip_app; rewrite Hr; done. }
    split.
    + rewrite rstrip_app; rewrite Hnl; [done|]. unfold nl. by rewrite append_String.
    + intros [_ H]%append_nil_inv. unfold nl in H. by rewrite append_String in H.
Qed.

Lemma split_join_newline l ls :
  Forall (fun x => PyStr.all_chars (fun c => negb (Ascii.eqb c "010")) x = true) (l :: ls) ->
  PyStr.split "010" (PyStr.join nl (l :: ls)) = l :: ls.
Proof.
  revert l. induction ls as [|l' ls IH]; intros l Hall.
  - simpl. apply split_no_sep. by inversion Hall.
  - inversion Hall as [|? ? Hl Hrest]; subst.
    change (PyStr.join nl (l :: l' :: ls))
      with (l +:+ String "010" (PyStr.join nl (l' :: ls))).
    rewrite split_app_sep by done. by rewrite (IH _ Hrest).
Qed.

(** X10: the suite listing as text and back.  [getoutput] returns what
    the checkout and [ls] print on either stream, the last newline
    dropped.  When the first line starts and the last line ends with a
    character that is no whitespace, and the marker [error:] is nowhere
    in the text, [list_test_suites_for_version] returns every line of
    it, in the order printed: the suite names [ls] wrote and, before
    them, whatever line the checkout wrote about the revision.  It
    prints nothing and leaves the world the command left. *)
Theorem suite_listing_round_trip {E : OS} (version : string) (s : state)
    (line : string) (lines : list string) (w' : world E) :
  subprocess_getoutput E (Matrix.checkout_command version) (st_world s)
  = (PyStr.join nl (line :: lines), w') ->
  Forall (fun x => PyStr.all_chars (fun c => negb (Ascii.eqb c "010")) x = true)
    (line :: lines) ->
  PyStr.first_is_text line = true ->
  PyStr.last_is_text (List.last lines line) = true ->
  PyStr.contains "error:" (PyStr.join nl (line :: lines)) = false ->
  Gen.list_test_suites_for_version version s = Ok (line :: lines) (moved s w' []).
Proof.
  intros Hout Hall Hfirst Hlast Hmark.
  unfold Gen.list_test_suites_for_version, bind, run_world.
  change ("git checkout " +:+ version +:+ " && ls " +:+ Gen.test_suites_path)
    with (Matrix.checkout_command version).
  rewrite Hout. cbn [st_world st_heap st_stdout]. unfold PyStr.strip.
  assert (Hl : PyStr.lstrip (PyStr.join nl (line :: lines)) = PyStr.join nl (line :: lines)).
  { destruct lines as [|l' ls].
    - simpl. rewrite <- (append_empty_r line) at 1 2. by apply lstrip_first_text.
    - rewrite join_cons_cons. by apply lstrip_first_text. }
  rewrite Hl, (proj1 (rstrip_join_text line lines Hlast)), Hmark.
  unfold ret, moved. rewrite split_join_newline by done. by rewrite app_nil_r.
Qed.

Lemma suite_listing_round_trip_witness :
  let s := Sample.start Sample.chatty_repo Sample.tree in
  @Gen.list_test_suites_for_version (Sample.os Sample.chatty_repo) "v1.0.0" s
  = Ok ["HEAD is now at 1a2b3c4 Release 1.0.0"; "smoke"] (moved s Sample.tree []).
Proof.
  apply (@suite_listing_round_trip (Sample.os Sample.chatty_repo) "v1.0.0"
           (Sample.start Sample.chatty_repo Sample.tree)
           "HEAD is now at 1a2b3c4 Release 1.0.0" ["smoke"] Sample.tree).
  - reflexivity.
  - repeat constructor.
  - reflexivity.
  - reflexivity.
  - reflexivity.
Defined.

(** ** Names of the discovered applications *)

Lemma contains_sep_none sep n :
  PyStr.all_chars (fun c => negb (Ascii.eqb c sep)) n = true ->
  PyStr.contains (String sep EmptyString) n = false.
Proof.
  induction n as [|c n IH]; [done|]. simpl. intros [Hc Hn]%andb_prop.
  rewrite (IH Hn), orb_false_r.
  destruct (ascii_dec sep c) as [->|]; [|done].
  by rewrite Ascii.eqb_refl in Hc.
Qed.

Lemma contains_sep_app sep a n :
  PyStr.contains (String sep EmptyString) (a +:+ String sep n) = true.
Proof.
  induction a as [|c a IH].
  - rewrite append_empty_l. simpl. destruct (ascii_dec sep sep); [|done].
    by destruct n.
  - rewrite append_String. simpl. rewrite IH. apply orb_true_r.
Qed.

(** [(a + sep + n).rsplit(sep, 1)[-1] == n] when [n] holds no [sep]. *)
Lemma after_last_app sep a n :
  PyStr.all_chars (fun c => negb (Ascii.eqb c sep)) n = true ->
  PyStr.after_last sep (a +:+ String sep n) = n.
Proof.
  intros Hn. induction a as [|c a IH].
  - rewrite append_empty_l. simpl.
    by rewrite (contains_sep_none sep n Hn), Ascii.eqb_refl.
  - rewrite append_String. simpl. by rewrite contains_sep_app.
Qed.

Lemma join_snoc sep ps n :
  PyStr.join sep (ps ++ [n])
  = match ps with
    | [] => n
    | _ => PyStr.join sep ps +:+ sep +:+ n
    end.
Proof.
  induction ps as [|p ps IH]; [done|].
  destruct ps as [|p' ps]; [done|].
  change (PyStr.join sep ((p :: p' :: ps) ++ [n]))
    with (p +:+ sep +:+ PyStr.join sep ((p' :: ps) ++ [n])).
  rewrite IH.
  change (PyStr.join sep (p :: p' :: ps)) with (p +:+ sep +:+ PyStr.join sep (p' :: ps)).
  by rewrite !append_assoc.
Qed.

Lemma parse_root_cases s :
  PosixPath.parse_root s = EmptyString \/ PosixPath.parse_root s = "/"
  \/ PosixPath.parse_root s = "//".
Proof.
  unfold PosixPath.parse_root.
  repeat match goal with
         | |- context [match ?x with _ => _ end] => destruct x; auto
         end.
Qed.

(** X11: an application found by [iterdir] under an absolute directory is
    named after its directory entry (a name without a slash that is
    neither empty nor a dot): [app_and_name_from_path] returns the
    path as [iterdir] gave it ([absolute()] changes nothing) and the
    entry's name as the display name. *)
Theorem discovered_application_is_named_after_its_entry {E : OS} (dir n : string) :
  PosixPath.is_absolute (PosixPath.of_string dir) = true ->
  n <> EmptyString -> n <> "." ->
  PyStr.all_chars (fun c => negb (Ascii.eqb c "/")) n = true ->
  Gen.app_and_name_from_path (PPath (PosixPath.child (PosixPath.of_string dir) n))
  = (fspath (PPath (PosixPath.child (PosixPath.of_string dir) n)), n).
Proof.
  intros Habs _ _ Hn. unfold Gen.app_and_name_from_path, PosixPath.absolute. cbn [to_Path fspath].
  change (PosixPath.is_absolute (PosixPath.child (PosixPath.of_string dir) n))
    with (PosixPath.is_absolute (PosixPath.of_string dir)).
  rewrite Habs. f_equal.
  unfold PosixPath.to_string, PosixPath.child, PosixPath.of_string, PosixPath.is_absolute in *.
  cbn [PosixPath.root PosixPath.parts] in *.
  set (ps := PosixPath.parse_parts dir).
  assert (Hroot : PosixPath.parse_root dir = "/" \/ PosixPath.parse_root dir = "//").
  { destruct (parse_root_cases dir) as [H|[H|H]]; [by rewrite H in Habs | by left | by right]. }
  unfold PosixPath.basename.
  destruct Hroot as [-> | ->]; cbn match; rewrite join_snoc; destruct ps as [|p ps'].
  - by apply (after_last_app "/" EmptyString).
  - change ("/" +:+ PyStr.join "/" (p :: ps') +:+ "/" +:+ n)
      with (("/" +:+ PyStr.join "/" (p :: ps')) +:+ String "/" n).
    by apply after_last_app.
  - by apply (after_last_app "/" "/").
  - change ("//" +:+ PyStr.join "/" (p :: ps') +:+ "/" +:+ n)
      with (("//" +:+ PyStr.join "/" (p :: ps')) +:+ String "/" n).
    by apply after_last_app.
Qed.

Lemma discovered_application_is_named_after_its_entry_witness :
  @Gen.app_and_name_from_path (Sample.os Sample.repo)
    (PPath (PosixPath.child (PosixPath.of_string "/repo/src/examples") "app1"))
  = (fspath (PPath (PosixPath.child (PosixPath.of_string "/repo/src/examples") "app1")),
     "app1").
Proof.
  apply (@discovered_application_is_named_after_its_entry (Sample.os Sample.repo)
           "/repo/src/examples" "app1").
  - reflexivity.
  - discriminate.
  - discriminate.
  - reflexivity.
Defined.

(** ** What a finished run tells *)

Section Finished.

Context {E : OS}.

Lemma bind_ok {A B} (m : M A) (k : A -> M B) (s s' : state) b :
  bind m k s = Ok b s' -> exists a s1, m s = Ok a s1 /\ k a s1 = Ok b s'.
Proof.
  unfold bind. destruct (m s) as [a s1|e]; [|discriminate]. eauto.
Qed.

Lemma merge_returns_its_argument cc custom app_name (s s' : state) v :
  Gen.merge_with_custom_steps cc custom app_name s = Ok v s' -> v = cc.
Proof.
  unfold Gen.merge_with_custom_steps. intros H.
  do 6 (apply bind_ok in H as (? & ? & _ & H)).
  by injection H as <- _.
Qed.

Lemma turn_returns_its_argument app cc (s s' : state) v :
  Gen.append_custom_yaml app cc s = Ok v s' -> v = cc.
Proof.
  unfold Gen.append_custom_yaml.
  destruct (Gen.app_and_name_from_path app) as [app_path app_name].
  intros H. apply bind_ok in H as (extends & s1 & _ & H).
  destruct (negb extends).
  - apply bind_ok in H as (? & ? & _ & H). by injection H as <- _.
  - apply bind_ok in H as (custom & s2 & _ & H).
    apply bind_ok in H as (has & s3 & _ & H).
    destruct has; [by eapply merge_returns_its_argument|]. by injection H as <- _.
Qed.

Lemma loop_returns_its_argument apps cc (s s' : state) v :
  Gen.append_custom_yamls cc apps s = Ok v s' -> v = cc.
Proof.
  unfold Gen.append_custom_yamls. revert cc s.
  induction apps as [|app apps IH]; intros cc s H.
  - by injection H as <- _.
  - rewrite for_each_cons in H.
    destruct (Gen.append_custom_yaml app cc s) as [cc1 s1|e] eqn:H1; [|discriminate H].
    apply turn_returns_its_argument in H1 as ->. by apply IH in H.
Qed.

Lemma load_yaml_inv path (s s' : state) v :
  PyOps.load_yaml path s = Ok v s' ->
  exists d, yaml_safe_load E (st_world s) path = Loaded d /\
            v = (Py.load_document d (st_heap s)).1.
Proof.
  unfold PyOps.load_yaml, bind, observe.
  destruct (yaml_safe_load E (st_world s) path) as [| |d]; try discriminate.
  unfold run_heap, Py.load_document. cbn. intros [= <- _]. by exists d.
Qed.

Lemma available_examples_inv (s s' : state) apps :
  Gen.available_examples s = Ok apps s' ->
  os_path_isdir E (st_world s) Gen.examples_path = true.
Proof.
  unfold Gen.available_examples, bind, observe.
  by destruct (os_path_isdir E (st_world s) Gen.examples_path).
Qed.

Lemma available_examples_world (s s' : state) apps :
  Gen.available_examples s = Ok apps s' -> s' = s.
Proof.
  unfold Gen.available_examples, bind, observe.
  destruct (os_path_isdir E (st_world s) Gen.examples_path); [|discriminate].
  by intros [= _ <-].
Qed.

(** X12: what a successful run implies.  When the script's top level ends
    without an exception, the template could be opened and parsed and
    the examples directory exists; the text it returns is the dump of
    the template's own top-level object as the store holds it at the
    end; that text is the last thing printed, and it is what was
    written to [generated.yml], the last change made to the world. *)
Theorem a_finished_run_dumps_the_template (s t : state) (text : string) :
  Gen.main s = Ok text t ->
  exists d w,
    yaml_safe_load E (st_world s) Gen.base_config = Loaded d /\
    os_path_isdir E (st_world s) Gen.examples_path = true /\
    text = yaml_dump E (st_heap t) (Py.load_document d (st_heap s)).1 /\
    last (st_stdout t) = Some text /\
    st_world t = write_file E Gen.generated_config text w.
Proof.
  unfold Gen.main. intros H.
  apply bind_ok in H as (cc & s1 & Hload & H).
  apply bind_ok in H as (examples & s2 & Hex & H).
  apply bind_ok in H as (versions & s3 & _ & H).
  apply bind_ok in H as (executions & s4 & _ & H).
  apply bind_ok in H as (jobs & s5 & _ & H).
  apply bind_ok in H as (workflows & s6 & _ & H).
  apply bind_ok in H as (workflow & s7 & _ & H).
  apply bind_ok in H as (? & s8 & _ & H).
  apply bind_ok in H as (cc' & s9 & Hloop & H).
  apply loop_returns_its_argument in Hloop as ->.
  apply load_yaml_inv in Hload as Hd. destruct Hd as (d & Hd & Hcc).
  assert (Hs1 : st_world s1 = st_world s).
  { unfold PyOps.load_yaml, bind, observe in Hload. rewrite Hd in Hload.
    unfold run_heap in Hload. destruct (Py.load_document d (st_heap s)).
    by injection Hload as _ <-. }
  pose proof (available_examples_inv _ _ _ Hex) as Hdir. rewrite Hs1 in Hdir.
  unfold bind, read_heap, print, run_world, ret in H. cbn in H.
  injection H as <- <-. cbn.
  exists d, (st_world s9). split_and!; [done | done | by rewrite Hcc | apply last_snoc | done].
Qed.

End Finished.

Lemma a_finished_run_dumps_the_template_witness :
  let s := Sample.start Sample.repo Sample.tree in
  let text := match Gen.main s with Ok a _ => a | Raise _ => EmptyString end in
  let t := match Gen.main s with Ok _ t => t | Raise _ => s end in
  exists d w,
    yaml_safe_load (Sample.os Sample.repo) (st_world s)
      (@Gen.base_config (Sample.os Sample.repo)) = Loaded d /\
    os_path_isdir (Sample.os Sample.repo) (st_world s)
      (@Gen.examples_path (Sample.os Sample.repo)) = true /\
    text = yaml_dump (Sample.os Sample.repo) (st_heap t) (Py.load_document d (st_heap s)).1 /\
    last (st_stdout t) = Some text /\
    st_world t = write_file (Sample.os Sample.repo)
                   (@Gen.generated_config (Sample.os Sample.repo)) text w.
Proof.
  apply (@a_finished_run_dumps_the_template (Sample.os Sample.repo)
           (Sample.start Sample.repo Sample.tree)).
  vm_compute. reflexivity.
Defined.

Section NoWorkflows.

Context {E : OS}.

(** X13: a template without [workflows].  When the template loads, the
    examples directory exists and the template's top level has no
    value under [workflows], the run raises once the matrix is built:
    [KeyError] when the top level is a mapping, [TypeError] when it is
    anything else (an empty file loads as [None], which cannot be
    subscripted). *)
Theorem template_without_workflows_raises (s : state) (d : Py.document) :
  yaml_safe_load E (st_world s) Gen.base_config = Loaded d ->
  os_path_isdir E (st_world s) Gen.examples_path = true ->
  Extender.wf_document d = true ->
  Heap.lookup_path (Py.load_document d (st_heap s)).2
    (Py.load_document d (st_heap s)).1 ["workflows"] = None ->
  Gen.main s
  = Raise (match Extender.dict_entries (Py.load_document d (st_heap s)).2
                   (Py.load_document d (st_heap s)).1 with
           | Some _ => Py.KeyError
           | None => Py.TypeError
           end).
Proof.
  intros Hload Hdir Hwf Hnone.
  set (cc := (Py.load_document d (st_heap s)).1) in *.
  set (h1 := (Py.load_document d (st_heap s)).2) in *.
  unfold Gen.main.
  unfold bind at 1. rewrite (load_yaml_ok _ s d Hload). cbv beta iota. fold cc h1.
  unfold bind at 1. rewrite (available_examples_ok (Extender.with_heap s h1) Hdir).
  cbv beta iota.
  unfold bind at 1. rewrite available_versions_ok. cbv beta iota.
  unfold bind at 1.
  destruct (list_test_executions_spec
              (Assembly.examples (st_world (Extender.with_heap s h1)))
              (Assembly.versions (st_world (Extender.with_heap s h1)))
              (Extender.with_heap s h1)) as [msgs ->].
  cbv beta iota.
  unfold bind at 1, PyOps.new, run_heap. cbn [st_heap moved Extender.with_heap].
  match goal with
  | |- context [Py.alloc ?t h1] =>
      destruct (alloc_extends t h1) as [new Hnew];
      destruct (Py.alloc t h1) as [jobs h2] eqn:Halloc
  end.
  cbn [snd] in Hnew. subst h2.
  unfold bind at 1, PyOps.getitem at 1. cbn [st_heap].
  unfold Extender.dict_entries.
  destruct cc as [| | | | |r] eqn:Hcc; try reflexivity.
  assert (Hlt : r < length h1).
  { apply andb_prop in Hwf as [Hb _].
    unfold cc, h1, Py.load_document in *. cbn [fst snd] in *.
    rewrite length_app, length_map.
    destruct (Py.doc_root d) as [| | | | |r0]; try discriminate Hcc.
    injection Hcc as <-. apply boundb_lt in Hb. lia. }
  rewrite lookup_app_l by done.
  simpl in Hnone.
  destruct (h1 !! r) as [[items|ces]|]; try reflexivity.
  by destruct (Py.entries_get "workflows" ces).
Qed.

End NoWorkflows.



Lemma template_without_workflows_raises_witness :
  Gen.main (Sample.start Sample.repo Sample.jobless_tree) = Raise Py.KeyError.
Proof.
  apply (@template_without_workflows_raises (Sample.os Sample.repo)
           (Sample.start Sample.repo Sample.jobless_tree) Sample.jobless_template).
  - reflexivity.
  - reflexivity.
  - reflexivity.
  - reflexivity.
Defined.
